(** * Boids flocking on a uniform grid: the kernels of [src/kernel.cu]

    A shallow embedding of the CUDA kernels and of the host driver of
    [kernel.cu], and the properties of its specification.

    Conventions of the embedding.
    - [int] values are [Z]; every index the program forms is far below
      [2^31] for its grid (side 22, 10648 cells), so overflow is outside
      the model.  [a / b] on [int] is [Z.quot].
    - [float] is a type [F] with the operations of [FloatOps].  Two
      instances are given: [binary32] (IEEE single precision, from the
      Standard Library's [SpecFloat]), on which concrete runs are
      evaluated, and [ideal] (the real numbers), on which the numeric
      invariants are stated.
    - A device array is a [list]; reading or writing outside it is
      undefined behaviour and gives [None].
    - A kernel launch runs the body of every thread whose index is below
      the element count; threads of one launch write disjoint slots, except
      in [renewGridCellIndex], which therefore takes the order in which the
      writes land as an argument. *)

From Stdlib Require Import Strings.String.
From Stdlib Require Import ZArith List Bool Lia Reals Lra Permutation Sorted.
From Stdlib Require Import Floats.SpecFloat.
From stdpp Require Import base option list.

Local Open Scope Z_scope.

(** ** Floating point interface *)

Class FloatOps (F : Type) : Type := {
  (** the literal [n/d] of the source text, as [0.01f] is [Flit 1 100] *)
  Flit : Z → positive → F;
  (** conversion [int] to [float] *)
  Fof_int : Z → F;
  Fadd : F → F → F;
  Fsub : F → F → F;
  Fmul : F → F → F;
  Fdiv : F → F → F;
  Fneg : F → F;
  Fsqrt : F → F;
  (** [a < b] *)
  Fltb : F → F → bool;
  (** [floor(x)] stored into an [int] *)
  Ffloor : F → Z;
  (** [(int) x] *)
  Ftrunc : F → Z
}.

(** [glm::vec3] *)
Record vec3 (F : Type) : Type := Vec3 { vx : F; vy : F; vz : F }.
Arguments Vec3 {F} _ _ _.
Arguments vx {F} _.
Arguments vy {F} _.
Arguments vz {F} _.

(** ** Device arrays *)

Definition rd {A : Type} (a : list A) (i : Z) : option A :=
  if i <? 0 then None else a !! Z.to_nat i.

Definition wr {A : Type} (a : list A) (i : Z) (x : A) : option (list A) :=
  if (0 <=? i) && (i <? Z.of_nat (length a))
  then Some (<[Z.to_nat i := x]> a) else None.

(** [forM l body s]: run [body] on the elements of [l] in order, threading
    the state; the first fault stops the run. *)
Fixpoint forM {A S : Type} (l : list A) (body : A → S → option S) (s : S)
  : option S :=
  match l with
  | [] => Some s
  | x :: l' => s' ← body x s; forM l' body s'
  end.

(** the values of [i] in [for (int i = lo; i <= hi; i++)] *)
Definition zrange (lo hi : Z) : list Z :=
  map (λ k, lo + Z.of_nat k) (seq 0 (Z.to_nat (hi - lo + 1))).

(** the indices of the threads of a launch over [N] elements that pass the
    guard [index >= N] *)
Definition threads (N : Z) : list Z := zrange 0 (N - 1).

(** ** Configuration ([#define]s of the source) *)

Section Config.
Context {F : Type} `{FloatOps F}.

Definition rule1Distance : F := Flit 5 1.
Definition rule2Distance : F := Flit 3 1.
Definition rule3Distance : F := Flit 5 1.
Definition rule1Scale : F := Flit 1 100.
Definition rule2Scale : F := Flit 1 10.
Definition rule3Scale : F := Flit 1 10.
Definition maxSpeed : F := Flit 1 1.
Definition scene_scale : F := Flit 100 1.

  (** ** The parts of glm the kernels use *)

Definition vzero : vec3 F := Vec3 (Flit 0 1) (Flit 0 1) (Flit 0 1).
Definition vadd (a b : vec3 F) : vec3 F :=
    Vec3 (Fadd (vx a) (vx b)) (Fadd (vy a) (vy b)) (Fadd (vz a) (vz b)).
Definition vsub (a b : vec3 F) : vec3 F :=
    Vec3 (Fsub (vx a) (vx b)) (Fsub (vy a) (vy b)) (Fsub (vz a) (vz b)).
  (** [v * s] *)
Definition vscale (v : vec3 F) (s : F) : vec3 F :=
    Vec3 (Fmul (vx v) s) (Fmul (vy v) s) (Fmul (vz v) s).
  (** [v /= n] for an [int] [n]: each component is divided by [(float) n] *)
Definition vdivi (v : vec3 F) (n : Z) : vec3 F :=
    Vec3 (Fdiv (vx v) (Fof_int n)) (Fdiv (vy v) (Fof_int n))
         (Fdiv (vz v) (Fof_int n)).
Definition glm_dot (a b : vec3 F) : F :=
    Fadd (Fadd (Fmul (vx a) (vx b)) (Fmul (vy a) (vy b))) (Fmul (vz a) (vz b)).
Definition glm_length (v : vec3 F) : F := Fsqrt (glm_dot v v).
  (** [glm::normalize(v)] is [v * inversesqrt(dot(v, v))] *)
Definition glm_normalize (v : vec3 F) : vec3 F :=
    vscale v (Fdiv (Flit 1 1) (Fsqrt (glm_dot v v))).

Definition BoidDistanceCalculation (pos1 pos2 : vec3 F) : F :=
    glm_length (vsub pos1 pos2).
End Config.

(** ** Kernels of the brute-force strategy and the integrator *)

Section Kernels.
Context {F : Type} `{FloatOps F}.

Definition computeVelocityChange (N iSelf : Z) (pos vel : list (vec3 F))
    : option (vec3 F) :=
    if iSelf >=? N then None else
    thisPos ← rd pos iSelf;
    originalSpeed ← rd vel iSelf;
    (* Rule 1 *)
    '(perceivedCenter, count1) ←
      forM (zrange 0 (N - 1)) (λ i '(perceivedCenter, count1),
        if negb (i =? iSelf) then
          testPos1 ← rd pos i;
          if Fltb (BoidDistanceCalculation testPos1 thisPos) rule1Distance
          then Some (vadd perceivedCenter testPos1, count1 + 1)
          else Some (perceivedCenter, count1)
        else Some (perceivedCenter, count1)) (vzero, 0);
    let perceivedCenter :=
      if negb (count1 =? 0) then vdivi perceivedCenter count1 else thisPos in
    (* Rule 2 *)
    cVector ←
      forM (zrange 0 (N - 1)) (λ j cVector,
        if negb (j =? iSelf) then
          testPos2 ← rd pos j;
          if Fltb (BoidDistanceCalculation testPos2 thisPos) rule2Distance
          then
            if Fltb (BoidDistanceCalculation testPos2 thisPos) (Flit 100 1)
            then Some (vsub cVector (vsub testPos2 thisPos))
            else Some cVector
          else Some cVector
        else Some cVector) vzero;
    (* Rule 3 *)
    '(perceivedVelocity, count2) ←
      forM (zrange 0 (N - 1)) (λ k '(perceivedVelocity, count2),
        if negb (k =? iSelf) then
          testPos3 ← rd pos k;
          testVel3 ← rd vel k;
          if Fltb (BoidDistanceCalculation testPos3 thisPos) rule3Distance
          then Some (vadd perceivedVelocity testVel3, count2 + 1)
          else Some (perceivedVelocity, count2)
        else Some (perceivedVelocity, count2)) (vzero, 0);
    let perceivedVelocity :=
      if negb (count2 =? 0) then vdivi perceivedVelocity count2
      else perceivedVelocity in
    Some (vadd (vadd (vadd originalSpeed
                           (vscale (vsub perceivedCenter thisPos) rule1Scale))
                     (vscale cVector rule2Scale))
               (vscale perceivedVelocity rule3Scale)).

  (** The speed clamp, written out in each of the three velocity kernels:
      [if (glm::length(v) > maxSpeed) v = glm::normalize(v) * maxSpeed;] *)
Definition clampSpeed (v : vec3 F) : vec3 F :=
    if Fltb maxSpeed (glm_length v)
    then vscale (glm_normalize v) maxSpeed else v.

Definition kernUpdateVelocityBruteForce (N : Z) (pos vel1 vel2 : list (vec3 F))
    : option (list (vec3 F)) :=
    forM (threads N) (λ indexNumber vel2,
      updatedVel ← computeVelocityChange N indexNumber pos vel1;
      wr vel2 indexNumber (clampSpeed updatedVel)) vel2.

  (** [c < -scene_scale ? scene_scale : c] *)
Definition wrapLow (c : F) : F :=
    if Fltb c (Fneg scene_scale) then scene_scale else c.
  (** [c > scene_scale ? -scene_scale : c] *)
Definition wrapHigh (c : F) : F :=
    if Fltb scene_scale c then Fneg scene_scale else c.

  (** the body of [kernUpdatePos] between the read and the write of
      [pos[index]] *)
Definition integrate (dt : F) (p v : vec3 F) : vec3 F :=
    let thisPos := vadd p (vscale v dt) in
    let thisPos :=
      Vec3 (wrapLow (vx thisPos)) (wrapLow (vy thisPos)) (wrapLow (vz thisPos)) in
    Vec3 (wrapHigh (vx thisPos)) (wrapHigh (vy thisPos)) (wrapHigh (vz thisPos)).

Definition kernUpdatePos (N : Z) (dt : F) (pos vel : list (vec3 F))
    : option (list (vec3 F)) :=
    forM (threads N) (λ index pos,
      thisPos ← rd pos index;
      v ← rd vel index;
      wr pos index (integrate dt thisPos v)) pos.

  (** ** Grid indexing *)

Definition gridIndex3Dto1D (x y z gridResolution : Z) : Z :=
    if (x >=? gridResolution) || (x <? 0) || (y >=? gridResolution) || (y <? 0)
       || (z >=? gridResolution) || (z <? 0)
    then -1
    else x + y * gridResolution + z * gridResolution * gridResolution.

Definition kernComputeIndices (N gridResolution : Z) (gridMin : vec3 F)
      (inverseCellWidth : F) (pos : list (vec3 F)) (indices gridIndices : list Z)
    : option (list Z * list Z) :=
    forM (threads N) (λ index '(indices, gridIndices),
      indices ← wr indices index index;
      boidPosition ← rd pos index;
      let xIdx := Ffloor (Fmul (Fsub (vx boidPosition) (vx gridMin)) inverseCellWidth) in
      let yIdx := Ffloor (Fmul (Fsub (vy boidPosition) (vy gridMin)) inverseCellWidth) in
      let zIdx := Ffloor (Fmul (Fsub (vz boidPosition) (vz gridMin)) inverseCellWidth) in
      let gridIdx := gridIndex3Dto1D xIdx yIdx zIdx gridResolution in
      gridIndices ← wr gridIndices index gridIdx;
      Some (indices, gridIndices)) (indices, gridIndices).
End Kernels.

Definition kernResetIntBuffer (N : Z) (intBuffer : list Z) (value : Z)
  : option (list Z) :=
  forM (threads N) (λ index intBuffer, wr intBuffer index value) intBuffer.

(** ** Cell range table *)

(** [while (g[i] == g[i + 1]) i++;] gives the final [i].  The loop leaves
    the array after at most [length g] rounds, so that much fuel is never
    used up (see [whileUp_fuel]). *)
Fixpoint whileUp (g : list Z) (fuel : nat) (i : Z) : option Z :=
  a ← rd g i; b ← rd g (i + 1);
  if a =? b
  then match fuel with O => None | S fuel' => whileUp g fuel' (i + 1) end
  else Some i.

(** [while (g[k - 1] == g[k]) k--;] gives the final [k] *)
Fixpoint whileDown (g : list Z) (fuel : nat) (k : Z) : option Z :=
  a ← rd g (k - 1); b ← rd g k;
  if a =? b
  then match fuel with O => None | S fuel' => whileDown g fuel' (k - 1) end
  else Some k.

(** one thread of [kernIdentifyCellStartEnd] *)
Definition identifyCellStartEnd (N : Z) (particleGridIndices : list Z) (index : Z)
    (arrays : list Z * list Z) : option (list Z * list Z) :=
  let g := particleGridIndices in
  let fuel := length g in
  let '(gridCellStartIndices, gridCellEndIndices) := arrays in
  if index =? 0 then
    gridCellStartIndices ← wr gridCellStartIndices index index;
    a ← rd g index; b ← rd g (index + 1);
    if negb (a =? b) then
      gridCellEndIndices ← wr gridCellEndIndices index index;
      Some (gridCellStartIndices, gridCellEndIndices)
    else
      i ← whileUp g fuel index;
      gridCellEndIndices ← wr gridCellEndIndices index (i + 1);
      Some (gridCellStartIndices, gridCellEndIndices)
  else if index =? N - 1 then
    gridCellEndIndices ← wr gridCellEndIndices index index;
    a ← rd g (index - 1); b ← rd g index;
    if negb (a =? b) then
      gridCellStartIndices ← wr gridCellStartIndices index index;
      Some (gridCellStartIndices, gridCellEndIndices)
    else
      j ← whileDown g fuel index;
      gridCellStartIndices ← wr gridCellStartIndices index (j - 1);
      Some (gridCellStartIndices, gridCellEndIndices)
  else
    a ← rd g (index - 1); b ← rd g index;
    gridCellStartIndices ←
      (if negb (a =? b) then wr gridCellStartIndices index index
       else k ← whileDown g fuel index; wr gridCellStartIndices index (k - 1));
    a ← rd g index; b ← rd g (index + 1);
    gridCellEndIndices ←
      (if negb (a =? b) then wr gridCellEndIndices index index
       else p ← whileUp g fuel index; wr gridCellEndIndices index (p + 1));
    Some (gridCellStartIndices, gridCellEndIndices).

Definition kernIdentifyCellStartEnd (N : Z) (particleGridIndices : list Z)
    (gridCellStartIndices gridCellEndIndices : list Z)
  : option (list Z * list Z) :=
  forM (threads N) (identifyCellStartEnd N particleGridIndices)
       (gridCellStartIndices, gridCellEndIndices).

(** The two values one thread of [kernIdentifyCellStartEnd] stores, taken
    apart from its writes (see [identifyCellStartEnd_stores]). *)
Definition storedStart (g : list Z) (index : Z) : option Z :=
  if index =? 0 then Some index else
  a ← rd g (index - 1); b ← rd g index;
  if negb (a =? b) then Some index
  else k ← whileDown g (length g) index; Some (k - 1).

Definition storedEnd (N : Z) (g : list Z) (index : Z) : option Z :=
  if negb (index =? 0) && (index =? N - 1) then Some index else
  a ← rd g index; b ← rd g (index + 1);
  if negb (a =? b) then Some index
  else p ← whileUp g (length g) index; Some (p + 1).

(** ** Cell head lookup *)

(** [sched] is the order in which the threads' writes reach memory. *)
Definition renewGridCellIndex (sched : list Z) (N : Z)
    (gridCellStartIndices gridCellIndex particleGridIndices : list Z)
  : option (list Z) :=
  forM sched (λ index gridCellIndex,
    if index >=? N then Some gridCellIndex else
    gridNumber ← rd particleGridIndices index;
    startIndex ← rd gridCellStartIndices index;
    wr gridCellIndex gridNumber startIndex) gridCellIndex.

Definition InitializeGridCellIndex (gridCellIndex : list Z) (gridSideCount : Z)
  : option (list Z) :=
  forM (threads (gridSideCount * gridSideCount * gridSideCount))
       (λ index gridCellIndex, wr gridCellIndex index (-1)) gridCellIndex.

(** ** Neighbour search on the grid *)

(** [a / b] on [int]; a zero divisor is undefined behaviour *)
Definition idiv (a b : Z) : option Z :=
  if b =? 0 then None else Some (a ÷ b).

(** the five accumulators of [newUpdateVelocity] and
    [CoherentUpDateVelocity] *)
Record tally (F : Type) : Type := Tally {
  perceivedCenter : vec3 F;
  count1 : Z;
  vectorC : vec3 F;
  perceivedVelocity : vec3 F;
  count3 : Z
}.
Arguments Tally {F} _ _ _ _ _.
Arguments perceivedCenter {F} _.
Arguments count1 {F} _.
Arguments vectorC {F} _.
Arguments perceivedVelocity {F} _.
Arguments count3 {F} _.

Section GridSearch.
Context {F : Type} `{FloatOps F}.

Definition tally0 : tally F := Tally vzero 0 vzero vzero 0.

(** The three rule tests on one candidate; the source repeats this block
    in the body of each loop over candidates. *)
Definition applyRules (currentPosition testPos testVel : vec3 F) (t : tally F)
  : tally F :=
  (* rule1 *)
  let t :=
    if Fltb (glm_length (vsub testPos currentPosition)) rule1Distance
    then Tally (vadd (perceivedCenter t) testPos) (count1 t + 1)
               (vectorC t) (perceivedVelocity t) (count3 t)
    else t in
  (* rule2 *)
  let t :=
    if Fltb (glm_length (vsub testPos currentPosition)) rule2Distance
    then
      if Fltb (glm_length (vsub testPos currentPosition)) (Flit 100 1)
      then Tally (perceivedCenter t) (count1 t)
                 (vsub (vectorC t) (vsub testPos currentPosition))
                 (perceivedVelocity t) (count3 t)
      else t
    else t in
  (* rule3 *)
  if Fltb (glm_length (vsub testPos currentPosition)) rule3Distance
  then Tally (perceivedCenter t) (count1 t) (vectorC t)
             (vadd (perceivedVelocity t) testVel) (count3 t + 1)
  else t.

(** the end of both functions: averages, then the sum of the rules *)
Definition finalSpeed (currentPosition currentVelocity : vec3 F) (t : tally F)
  : vec3 F :=
  let perceivedCenter :=
    if count1 t =? 0 then currentPosition
    else vdivi (perceivedCenter t) (count1 t) in
  let perceivedVelocity :=
    if negb (count3 t =? 0) then vdivi (perceivedVelocity t) (count3 t)
    else perceivedVelocity t in
  vadd (vadd (vadd currentVelocity
                   (vscale (vsub perceivedCenter currentPosition) rule1Scale))
             (vscale (vectorC t) rule2Scale))
       (vscale perceivedVelocity rule3Scale).

Definition newUpdateVelocity (N index boidIndex : Z) (pos vel : list (vec3 F))
    (particleArrayIndices particleGridIndices : list Z)
    (gridCellStartIndices gridCellEndIndices gridCellIndex : list Z)
    (gridSideCount gridCellWidth : Z) : option (vec3 F) :=
  currentPosition ← rd pos boidIndex;
  currentVelocity ← rd vel boidIndex;
  gridIndex ← rd particleGridIndices index;
  gridIdx3Z ← idiv gridIndex (gridSideCount * gridSideCount);
  gridIdx3Y ← idiv (gridIndex - gridIdx3Z * gridSideCount * gridSideCount)
                   gridSideCount;
  let gridIdx3X := gridIndex - gridIdx3Z * gridSideCount * gridSideCount
                   - gridIdx3Y * gridSideCount in
  startIndex ← rd gridCellStartIndices index;
  endIndex ← rd gridCellEndIndices index;
  (* the boids of the same cell *)
  t ← forM (zrange startIndex endIndex) (λ i t,
        if negb (i =? index) then
          tempBoidIndex ← rd particleArrayIndices i;
          testPosition ← rd pos tempBoidIndex;
          testVelocity ← rd vel tempBoidIndex;
          Some (applyRules currentPosition testPosition testVelocity t)
        else Some t) tally0;
  (* the neighbouring cells *)
  t ← forM (zrange (gridIdx3X - 1) (gridIdx3X + 1)) (λ j t,
      forM (zrange (gridIdx3Y - 1) (gridIdx3Y + 1)) (λ k t,
      forM (zrange (gridIdx3Z - 1) (gridIdx3Z + 1)) (λ m t,
        let testGridIndexBeighbor := gridIndex3Dto1D j k m gridSideCount in
        if negb (testGridIndexBeighbor =? -1) then
          if negb (testGridIndexBeighbor =? gridIndex) then
            startPoint ← rd gridCellIndex testGridIndexBeighbor;
            if negb (startPoint =? -1) then
              endPoint ← rd gridCellEndIndices startPoint;
              forM (zrange startPoint endPoint) (λ n t,
                testBoidIndex ← rd particleArrayIndices n;
                testPos ← rd pos testBoidIndex;
                testVel ← rd vel testBoidIndex;
                Some (applyRules currentPosition testPos testVel t)) t
            else Some t
          else Some t
        else Some t) t) t) t;
  Some (finalSpeed currentPosition currentVelocity t).

(** The parameters [gridResolution], [gridMin], [inverseCellWidth] and
    [cellWidth] of the two search kernels are not used by their bodies and
    are left out; the arguments keep the order of the source otherwise. *)
Definition kernUpdateVelNeighborSearchScattered (N : Z)
    (gridCellStartIndices gridCellEndIndices : list Z)
    (particleArrayIndices particleGridIndices gridCellIndex : list Z)
    (gridSideCount gridCellWidth : Z)
    (pos vel1 vel2 : list (vec3 F)) : option (list (vec3 F)) :=
  forM (threads N) (λ index vel2,
    boidIndex ← rd particleArrayIndices index;
    updatedVel ← newUpdateVelocity N index boidIndex pos vel1
                   particleArrayIndices particleGridIndices
                   gridCellStartIndices gridCellEndIndices gridCellIndex
                   gridSideCount gridCellWidth;
    wr vel2 boidIndex (clampSpeed updatedVel)) vel2.

Definition RearangeVelAndPos (N : Z) (particleArrayIndices : list Z)
    (pos vel arrPos arrVel : list (vec3 F))
  : option (list (vec3 F) * list (vec3 F)) :=
  forM (threads N) (λ index '(arrPos, arrVel),
    boidIndex ← rd particleArrayIndices index;
    velocity ← rd vel boidIndex;
    position ← rd pos boidIndex;
    arrPos ← wr arrPos index position;
    arrVel ← wr arrVel index velocity;
    Some (arrPos, arrVel)) (arrPos, arrVel).

Definition CoherentUpDateVelocity (N index : Z) (pos vel : list (vec3 F))
    (particleArrayIndices particleGridIndices : list Z)
    (gridCellStartIndices gridCellEndIndices gridCellIndex : list Z)
    (gridSideCount gridCellWidth : Z) : option (vec3 F) :=
  currentPosition ← rd pos index;
  currentVelocity ← rd vel index;
  gridIndex ← rd particleGridIndices index;
  gridIdx3Z ← idiv gridIndex (gridSideCount * gridSideCount);
  gridIdx3Y ← idiv (gridIndex - gridIdx3Z * gridSideCount * gridSideCount)
                   gridSideCount;
  let gridIdx3X := gridIndex - gridIdx3Z * gridSideCount * gridSideCount
                   - gridIdx3Y * gridSideCount in
  startIndex ← rd gridCellStartIndices index;
  endIndex ← rd gridCellEndIndices index;
  t ← forM (zrange startIndex endIndex) (λ i t,
        if negb (i =? index) then
          testPosition ← rd pos i;
          testVelocity ← rd vel i;
          Some (applyRules currentPosition testPosition testVelocity t)
        else Some t) tally0;
  t ← forM (zrange (gridIdx3X - 1) (gridIdx3X + 1)) (λ j t,
      forM (zrange (gridIdx3Y - 1) (gridIdx3Y + 1)) (λ k t,
      forM (zrange (gridIdx3Z - 1) (gridIdx3Z + 1)) (λ m t,
        let testGridIndexBeighbor := gridIndex3Dto1D j k m gridSideCount in
        if negb (testGridIndexBeighbor =? -1) then
          if negb (testGridIndexBeighbor =? gridIndex) then
            startPoint ← rd gridCellIndex testGridIndexBeighbor;
            if negb (startPoint =? -1) then
              endPoint ← rd gridCellEndIndices startPoint;
              forM (zrange startPoint endPoint) (λ n t,
                testPos ← rd pos n;
                testVel ← rd vel n;
                Some (applyRules currentPosition testPos testVel t)) t
            else Some t
          else Some t
        else Some t) t) t) t;
  Some (finalSpeed currentPosition currentVelocity t).

Definition kernUpdateVelNeighborSearchCoherent (N : Z)
    (gridCellStartIndices gridCellEndIndices : list Z)
    (particleArrayIndices particleGridIndices gridCellIndex : list Z)
    (gridSideCount gridCellWidth : Z)
    (pos vel1 vel2 : list (vec3 F)) : option (list (vec3 F)) :=
  forM (threads N) (λ index vel2,
    updateVel ← CoherentUpDateVelocity N index pos vel1
                  particleArrayIndices particleGridIndices
                  gridCellStartIndices gridCellEndIndices gridCellIndex
                  gridSideCount gridCellWidth;
    wr vel2 index (clampSpeed updateVel)) vel2.
End GridSearch.

(** ** Sorting by cell

    [thrust::sort_by_key] belongs to an external library.  It is embedded
    as a stable insertion sort of the key and value pairs; the source asks
    for no more than an unstable sort, and no theorem below relies on the
    order of equal keys unless it says so. *)

Fixpoint insert_by_key (kv : Z * Z) (l : list (Z * Z)) : list (Z * Z) :=
  match l with
  | [] => [kv]
  | kv' :: l' =>
      if kv.1 <=? kv'.1 then kv :: l else kv' :: insert_by_key kv l'
  end.

Definition sort_pairs (l : list (Z * Z)) : list (Z * Z) :=
  foldr insert_by_key [] l.

(** [thrust::sort_by_key(keys, keys + N, values)] *)
Definition sort_by_key (N : Z) (keys values : list Z) : option (list Z * list Z) :=
  let n := Z.to_nat N in
  if (Z.of_nat (length keys) <? N) || (Z.of_nat (length values) <? N) then None
  else
    let s := sort_pairs (zip (take n keys) (take n values)) in
    Some (s.*1 ++ drop n keys, s.*2 ++ drop n values).

(** [cudaMemcpy(dst, src, N * sizeof(T), cudaMemcpyDeviceToDevice)] *)
Definition cudaMemcpy {A : Type} (dst src : list A) (N : Z) : option (list A) :=
  let n := Z.to_nat N in
  if (Z.of_nat (length dst) <? N) || (Z.of_nat (length src) <? N) then None
  else Some (take n src ++ drop n dst).

(** ** The seed mixer

    [hash] works on [unsigned int]: a 32-bit word, here a [Z] in
    [0, 2^32), every addition and left shift wrapping modulo [2^32].
    [>>] on an unsigned word shifts zeros in. *)

Definition add32 (a b : Z) : Z := (a + b) mod 2 ^ 32.
Definition shl32 (a n : Z) : Z := Z.shiftl a n mod 2 ^ 32.

Definition hash (a : Z) : Z :=
  let a := add32 (add32 a 0x7ed55d16) (shl32 a 12) in
  let a := Z.lxor (Z.lxor a 0xc761c23c) (Z.shiftr a 19) in
  let a := add32 (add32 a 0x165667b1) (shl32 a 5) in
  let a := Z.lxor (add32 a 0xd3a2646c) (shl32 a 9) in
  let a := add32 (add32 a 0xfd7046c5) (shl32 a 3) in
  let a := Z.lxor (Z.lxor a 0xb55a4f09) (Z.shiftr a 16) in
  a.
(** a 32-bit word *)
Definition word (a : Z) : Prop := 0 <= a < 2 ^ 32.

(** [generateRandomVec3]: the seed is [hash((int)(index * time))], with
    [index] converted to [float] for the product and the [int] converted
    to [unsigned int] for [hash].  The engine and the distribution belong
    to thrust: [unitDistrib seed] stands for the three draws from an
    engine started with [seed]. *)
Definition generateRandomVec3 {F : Type} `{FloatOps F} (unitDistrib : Z → vec3 F)
    (time : F) (index : Z) : vec3 F :=
  unitDistrib (hash (Ftrunc (Fmul (Fof_int index) time) mod 2 ^ 32)).

(** ** Host side: buffers, simulation state, outcomes *)

(** What a device pointer of the program points at.  [cudaFree] releases
    the allocation and leaves the pointer as it was, so the pointer then
    dangles. *)
Inductive buffer (A : Type) : Type :=
  | Live (data : list A)
  | Freed.
Arguments Live {A} _.
Arguments Freed {A}.

(** the globals of [kernel.cu] *)
Record Sim (F : Type) : Type := MkSim {
  numObjects : Z;
  dev_pos : buffer (vec3 F);
  dev_vel1 : buffer (vec3 F);
  dev_vel2 : buffer (vec3 F);
  devGridCellnumber : buffer Z;
  devBoidIndex : buffer Z;
  gridCellIndex : buffer Z;
  dev_gridCellStartIndices : buffer Z;
  dev_gridCellEndIndices : buffer Z;
  gridCellCount : Z;
  gridSideCount : Z;
  gridCellWidth : F;
  gridInverseCellWidth : F;
  gridMinimum : vec3 F
}.
Arguments MkSim {F} _ _ _ _ _ _ _ _ _ _ _ _ _ _.
Arguments numObjects {F} _.
Arguments dev_pos {F} _.
Arguments dev_vel1 {F} _.
Arguments dev_vel2 {F} _.
Arguments devGridCellnumber {F} _.
Arguments devBoidIndex {F} _.
Arguments gridCellIndex {F} _.
Arguments dev_gridCellStartIndices {F} _.
Arguments dev_gridCellEndIndices {F} _.
Arguments gridCellCount {F} _.
Arguments gridSideCount {F} _.
Arguments gridCellWidth {F} _.
Arguments gridInverseCellWidth {F} _.
Arguments gridMinimum {F} _.

(** How a host function ends: it returns, or [checkCUDAError] prints its
    message and calls [exit(EXIT_FAILURE)], or the behaviour is undefined
    (a kernel went outside an array or through a dangling pointer). *)
Inductive outcome (A : Type) : Type :=
  | Done (a : A)
  | Exited (line : Z) (msg : String.string)
  | Undefined.
Arguments Done {A} _.
Arguments Exited {A} _ _.
Arguments Undefined {A}.

Definition obind {A B : Type} (m : outcome A) (k : A → outcome B) : outcome B :=
  match m with
  | Done a => k a
  | Exited line msg => Exited line msg
  | Undefined => Undefined
  end.

(** a device computation run from the host *)
Definition run {A : Type} (m : option A) : outcome A :=
  match m with Some a => Done a | None => Undefined end.

(** [checkCUDAErrorWithLine(msg)] after a call that succeeded ([ok]) or
    not *)
Definition checkCUDAError (ok : bool) (msg : String.string) (line : Z)
  : outcome unit :=
  if ok then Done tt else Exited line msg.

(** the elements a kernel may touch through a pointer: all of a live
    allocation, none of a released one *)
Definition contents {A : Type} (b : buffer A) : list A :=
  match b with Live d => d | Freed => [] end.

(** the allocation after a kernel has written [d] through the pointer *)
Definition store {A : Type} (b : buffer A) (d : list A) : buffer A :=
  match b with Live _ => Live d | Freed => Freed end.

(** [cudaMalloc] of [bytes] bytes on a device with [avail] free bytes: the
    free bytes left, or nothing when the request cannot be met *)
Definition cudaMalloc (avail bytes : Z) : option Z :=
  if bytes <=? avail then Some (avail - bytes) else None.

Section Driver.
Context {F : Type} `{FloatOps F}.

(** *** initSimulation *)

(** [std::max] *)
Definition std_max (a b : F) : F := if Fltb a b then b else a.

(** [generateRandomVec3] draws from thrust's random engine, an external
    library: it is an argument [rng] of the model. *)
Definition kernGenerateRandomPosArray (rng : F → Z → vec3 F) (time N : Z)
    (arr : list (vec3 F)) (scale : F) : option (list (vec3 F)) :=
  forM (threads N) (λ index arr,
    let rand := rng (Fof_int time) index in
    wr arr index (Vec3 (Fmul scale (vx rand)) (Fmul scale (vy rand))
                       (Fmul scale (vz rand)))) arr.

(** the [malloc; check] pair of [initSimulation] *)
Definition allocOrExit (avail bytes : Z) (msg : String.string) (line : Z)
  : outcome Z :=
  match cudaMalloc avail bytes with
  | Some avail' => obind (checkCUDAError true msg line) (λ _, Done avail')
  | None => obind (checkCUDAError false msg line) (λ _, Done avail)
  end.

(** [initSimulation(N)] on a device with [avail] free bytes.  Fresh device
    memory is indeterminate: [junkV] and [junkI] stand for what it holds.
    [gridMinimum] is a zero-initialised global before the call. *)
Definition initSimulation (rng : F → Z → vec3 F) (junkV : vec3 F) (junkI : Z)
    (avail : Z) (N : Z) : outcome (Sim F) :=
  let n := Z.to_nat N in
  obind (allocOrExit avail (N * 12) "cudaMalloc dev_pos failed!"%string 161) (λ avail,
  obind (allocOrExit avail (N * 12) "cudaMalloc dev_vel1 failed!"%string 164) (λ avail,
  obind (allocOrExit avail (N * 12) "cudaMalloc dev_vel2 failed!"%string 167) (λ avail,
  obind (run (kernGenerateRandomPosArray rng 1 N (replicate n junkV) scene_scale))
        (λ pos,
  let gridCellWidth :=
    Fmul (Flit 2 1) (std_max (std_max rule1Distance rule2Distance) rule3Distance) in
  let halfSideCount := Ftrunc (Fdiv scene_scale gridCellWidth) + 1 in
  let gridSideCount := 2 * halfSideCount in
  let gridCellCount := gridSideCount * gridSideCount * gridSideCount in
  let gridInverseCellWidth := Fdiv (Flit 1 1) gridCellWidth in
  let halfGridWidth := Fmul gridCellWidth (Fof_int halfSideCount) in
  let gridMinimum :=
    Vec3 (Fsub (Flit 0 1) halfGridWidth) (Fsub (Flit 0 1) halfGridWidth)
         (Fsub (Flit 0 1) halfGridWidth) in
  obind (allocOrExit avail (N * 4) "cudaMalloc devGridCellnumber failed!"%string 194) (λ avail,
  obind (allocOrExit avail (N * 4) "cudaMalloc devBoidIndex failed!"%string 197) (λ avail,
  obind (allocOrExit avail (N * 4) "cudaMalloc gridStartIndecies failed!"%string 200) (λ avail,
  obind (allocOrExit avail (N * 4) "cudaMalloc gridEndIndecies failed!"%string 203) (λ avail,
  obind (allocOrExit avail (gridSideCount * gridSideCount * gridSideCount * 4)
                     "cudaMalloc gridCellIndex failed!"%string 206) (λ _,
  Done (MkSim N (Live pos) (Live (replicate n junkV)) (Live (replicate n junkV))
          (Live (replicate n junkI)) (Live (replicate n junkI))
          (Live (replicate (Z.to_nat (gridSideCount * gridSideCount * gridSideCount))
                           junkI))
          (Live (replicate n junkI)) (Live (replicate n junkI))
          gridCellCount gridSideCount gridCellWidth gridInverseCellWidth
          gridMinimum)))))))))).

(** *** The three steps *)

Definition stepSimulationNaive (dt : F) (s : Sim F) : outcome (Sim F) :=
  let N := numObjects s in
  run (
    vel2 ← kernUpdateVelocityBruteForce N (contents (dev_pos s))
             (contents (dev_vel1 s)) (contents (dev_vel2 s));
    pos ← kernUpdatePos N dt (contents (dev_pos s)) vel2;
    (* ping-pong the velocity buffers *)
    vel1 ← cudaMemcpy (contents (dev_vel1 s)) vel2 N;
    Some (MkSim N (store (dev_pos s) pos) (store (dev_vel1 s) vel1)
            (store (dev_vel2 s) vel2)
            (devGridCellnumber s) (devBoidIndex s) (gridCellIndex s)
            (dev_gridCellStartIndices s) (dev_gridCellEndIndices s)
            (gridCellCount s) (gridSideCount s) (gridCellWidth s)
            (gridInverseCellWidth s) (gridMinimum s))).

(** The five launches both grid steps begin with: indices, reset of the
    lookup, sort, cell ranges, cell heads.  The result is the sorted
    [(ParticleIndex, GridIndex)] arrays, the range tables and the lookup. *)
Definition buildGrid (sched : list Z) (s : Sim F)
  : option (list Z * list Z * list Z * list Z * list Z) :=
  let N := numObjects s in
  '(boidIndex, gridCellnumber) ←
    kernComputeIndices N (gridSideCount s) (gridMinimum s)
      (gridInverseCellWidth s) (contents (dev_pos s))
      (contents (devBoidIndex s)) (contents (devGridCellnumber s));
  lookup ← InitializeGridCellIndex (contents (gridCellIndex s)) (gridSideCount s);
  '(gridCellnumber, boidIndex) ← sort_by_key N gridCellnumber boidIndex;
  '(starts, ends) ←
    kernIdentifyCellStartEnd N gridCellnumber
      (contents (dev_gridCellStartIndices s)) (contents (dev_gridCellEndIndices s));
  lookup ← renewGridCellIndex sched N starts lookup gridCellnumber;
  Some (boidIndex, gridCellnumber, starts, ends, lookup).

Definition stepSimulationScatteredGrid (sched : list Z) (dt : F) (s : Sim F)
  : outcome (Sim F) :=
  let N := numObjects s in
  run (
    '(boidIndex, gridCellnumber, starts, ends, lookup) ← buildGrid sched s;
    vel2 ← kernUpdateVelNeighborSearchScattered N starts ends
             boidIndex gridCellnumber lookup
             (gridSideCount s) (Ftrunc (gridCellWidth s))
             (contents (dev_pos s)) (contents (dev_vel1 s)) (contents (dev_vel2 s));
    pos ← kernUpdatePos N dt (contents (dev_pos s)) vel2;
    vel1 ← cudaMemcpy (contents (dev_vel1 s)) vel2 N;
    Some (MkSim N (store (dev_pos s) pos) (store (dev_vel1 s) vel1)
            (store (dev_vel2 s) vel2)
            (store (devGridCellnumber s) gridCellnumber)
            (store (devBoidIndex s) boidIndex)
            (store (gridCellIndex s) lookup)
            (store (dev_gridCellStartIndices s) starts)
            (store (dev_gridCellEndIndices s) ends)
            (gridCellCount s) (gridSideCount s) (gridCellWidth s)
            (gridInverseCellWidth s) (gridMinimum s))).

(** [rearrangePos] and [rearrangeVel] are allocated in the step; their
    first contents are indeterminate and stand here as zero vectors. *)
Definition stepSimulationCoherentGrid (sched : list Z) (dt : F) (s : Sim F)
  : outcome (Sim F) :=
  let N := numObjects s in
  run (
    '(boidIndex, gridCellnumber, starts, ends, lookup) ← buildGrid sched s;
    '(rearrangePos, rearrangeVel) ←
      RearangeVelAndPos N boidIndex (contents (dev_pos s)) (contents (dev_vel1 s))
        (replicate (Z.to_nat N) vzero) (replicate (Z.to_nat N) vzero);
    vel2 ← kernUpdateVelNeighborSearchCoherent N starts ends
             boidIndex gridCellnumber lookup
             (gridSideCount s) (Ftrunc (gridCellWidth s))
             rearrangePos rearrangeVel (contents (dev_vel2 s));
    rearrangePos ← kernUpdatePos N dt rearrangePos vel2;
    vel1 ← cudaMemcpy (contents (dev_vel1 s)) vel2 N;
    pos ← cudaMemcpy (contents (dev_pos s)) rearrangePos N;
    Some (MkSim N (store (dev_pos s) pos) (store (dev_vel1 s) vel1)
            (store (dev_vel2 s) vel2)
            (store (devGridCellnumber s) gridCellnumber)
            (store (devBoidIndex s) boidIndex)
            (store (gridCellIndex s) lookup)
            (store (dev_gridCellStartIndices s) starts)
            (store (dev_gridCellEndIndices s) ends)
            (gridCellCount s) (gridSideCount s) (gridCellWidth s)
            (gridInverseCellWidth s) (gridMinimum s))).

(** *** endSimulation: eight [cudaFree]s, nothing else *)
Definition endSimulation (s : Sim F) : Sim F :=
  MkSim (numObjects s) Freed Freed Freed Freed Freed Freed Freed Freed
        (gridCellCount s) (gridSideCount s) (gridCellWidth s)
        (gridInverseCellWidth s) (gridMinimum s).
End Driver.

Section Display.
Context {F : Type} `{FloatOps F}.

Definition kernCopyPositionsToVBO (N : Z) (pos : list (vec3 F)) (vbo : list F)
    (s_scale : F) : option (list F) :=
  let c_scale := Fdiv (Fneg (Flit 1 1)) s_scale in
  forM (threads N) (λ index vbo,
    p ← rd pos index; vbo ← wr vbo (4 * index + 0) (Fmul (vx p) c_scale);
    p ← rd pos index; vbo ← wr vbo (4 * index + 1) (Fmul (vy p) c_scale);
    p ← rd pos index; vbo ← wr vbo (4 * index + 2) (Fmul (vz p) c_scale);
    wr vbo (4 * index + 3) (Flit 1 1)) vbo.

(** [s_scale] is a parameter the body does not use *)
Definition kernCopyVelocitiesToVBO (N : Z) (vel : list (vec3 F)) (vbo : list F)
    (s_scale : F) : option (list F) :=
  forM (threads N) (λ index vbo,
    v ← rd vel index; vbo ← wr vbo (4 * index + 0) (Fadd (vx v) (Flit 3 10));
    v ← rd vel index; vbo ← wr vbo (4 * index + 1) (Fadd (vy v) (Flit 3 10));
    v ← rd vel index; vbo ← wr vbo (4 * index + 2) (Fadd (vz v) (Flit 3 10));
    wr vbo (4 * index + 3) (Flit 1 1)) vbo.

(** [copyBoidsToVBO]: the two launches, then the error check of line 252,
    which passes when the launches were accepted *)
Definition copyBoidsToVBO (s : Sim F) (vbodptr_positions vbodptr_velocities : list F)
  : outcome (list F * list F) :=
  obind (run (
    positions ← kernCopyPositionsToVBO (numObjects s) (contents (dev_pos s))
                  vbodptr_positions scene_scale;
    velocities ← kernCopyVelocitiesToVBO (numObjects s) (contents (dev_vel1 s))
                   vbodptr_velocities scene_scale;
    Some (positions, velocities))) (λ vbos,
  obind (checkCUDAError true "copyBoidsToVBO failed!"%string 252) (λ _,
  Done vbos)).
End Display.

(** ** The two models of [float] *)

(** *** IEEE single precision: 24 bits of precision, exponents below 128 *)

Definition b32_of_Z (z : Z) : spec_float := binary_normalize 24 128 z 0 false.

Definition b32_signed (s : bool) (m : positive) : Z :=
  if s then Z.neg m else Z.pos m.

(** [floor] and the conversion to [int]; converting an infinity or a NaN is
    undefined in C++, and gives 0 here *)
Definition b32_floor (x : spec_float) : Z :=
  match x with
  | S754_finite s m e =>
      if 0 <=? e then b32_signed s m * 2 ^ e else b32_signed s m / 2 ^ (- e)
  | _ => 0
  end.

Definition b32_trunc (x : spec_float) : Z :=
  match x with
  | S754_finite s m e =>
      if 0 <=? e then b32_signed s m * 2 ^ e else b32_signed s m ÷ 2 ^ (- e)
  | _ => 0
  end.

#[export] Instance binary32 : FloatOps spec_float := {|
  Flit n d := SFdiv 24 128 (b32_of_Z n) (b32_of_Z (Z.pos d));
  Fof_int := b32_of_Z;
  Fadd := SFadd 24 128;
  Fsub := SFsub 24 128;
  Fmul := SFmul 24 128;
  Fdiv := SFdiv 24 128;
  Fneg := SFopp;
  Fsqrt := SFsqrt 24 128;
  Fltb := SFltb;
  Ffloor := b32_floor;
  Ftrunc := b32_trunc
|}.

(** *** Exact real arithmetic *)

Definition Rltb (a b : R) : bool := if Rlt_dec a b then true else false.

Definition Rtrunc (x : R) : Z := if Rlt_dec x 0 then Zceil x else Zfloor x.

#[export] Instance ideal : FloatOps R := {|
  Flit n d := (IZR n / IZR (Z.pos d))%R;
  Fof_int := IZR;
  Fadd := Rplus;
  Fsub := Rminus;
  Fmul := Rmult;
  Fdiv := Rdiv;
  Fneg := Ropp;
  Fsqrt := sqrt;
  Fltb := Rltb;
  Ffloor := Zfloor;
  Ftrunc := Rtrunc
|}.

(** ** Vocabulary of the specification *)

(** the leftmost position of [g] that holds the key [c] *)
Fixpoint firstOffset (g : list Z) (c : Z) : option Z :=
  match g with
  | [] => None
  | x :: g' => if x =? c then Some 0 else Z.succ <$> firstOffset g' c
  end.

(** the rightmost position of [g] that holds the key [c] *)
Fixpoint lastOffset (g : list Z) (c : Z) : option Z :=
  match g with
  | [] => None
  | x :: g' =>
      match lastOffset g' c with
      | Some k => Some (Z.succ k)
      | None => if x =? c then Some 0 else None
      end
  end.

(** The cell range table as the specification words it: for each sorted
    position, the leftmost and the rightmost position sharing its key. *)
Definition cellRangeSpec (g : list Z) : option (list Z * list Z) :=
  starts ← mapM (firstOffset g) g;
  ends ← mapM (lastOffset g) g;
  Some (starts, ends).

(** the dense encoding of a cell as the specification words it *)
Definition encode1D (x y z side : Z) : Z := x + y * side + z * side ^ 2.

Definition inGrid (x y z side : Z) : Prop :=
  0 <= x < side ∧ 0 <= y < side ∧ 0 <= z < side.

(** the cell coordinate of a position coordinate [c], as the specification
    words it: [floor((c - gridMin) * invCellWidth)] *)
Definition cellCoord {F : Type} `{FloatOps F} (gridMin inverseCellWidth c : F) : Z :=
  Ffloor (Fmul (Fsub c gridMin) inverseCellWidth).

(** the three strategies, and one step of each *)
Inductive strategy : Type := Naive | Scattered | Coherent.

Definition step {F : Type} `{FloatOps F} (st : strategy) (sched : list Z)
    (dt : F) (s : Sim F) : outcome (Sim F) :=
  match st with
  | Naive => stepSimulationNaive dt s
  | Scattered => stepSimulationScatteredGrid sched dt s
  | Coherent => stepSimulationCoherentGrid sched dt s
  end.

(** a run: one call of a step function after the other *)
Fixpoint simulate {F : Type} `{FloatOps F}
    (calls : list (strategy * list Z * F)) (s : Sim F) : outcome (Sim F) :=
  match calls with
  | [] => Done s
  | (st, sched, dt) :: calls' => obind (step st sched dt s) (simulate calls')
  end.

(** every buffer has the size [initSimulation] gave it *)
Definition wellSized {F : Type} (s : Sim F) : Prop :=
  let n := Z.to_nat (numObjects s) in
  0 <= numObjects s ∧
  length (contents (dev_pos s)) = n ∧
  length (contents (dev_vel1 s)) = n ∧
  length (contents (dev_vel2 s)) = n ∧
  length (contents (devGridCellnumber s)) = n ∧
  length (contents (devBoidIndex s)) = n ∧
  length (contents (dev_gridCellStartIndices s)) = n ∧
  length (contents (dev_gridCellEndIndices s)) = n.

(** the simulation domain, over the reals *)
Definition inDomain (p : vec3 R) : Prop :=
  (- scene_scale <= vx p <= scene_scale)%R ∧
  (- scene_scale <= vy p <= scene_scale)%R ∧
  (- scene_scale <= vz p <= scene_scale)%R.

(** ** Concrete inputs, in single precision *)

Definition f32 (z : Z) : spec_float := b32_of_Z z.
Definition v32 (x y z : Z) : vec3 spec_float := Vec3 (f32 x) (f32 y) (f32 z).

(** a state as [initSimulation] leaves it, with the given positions and
    velocities *)
Definition sim32 (pos vel : list (vec3 spec_float)) : Sim spec_float :=
  let n := length pos in
  MkSim (Z.of_nat n) (Live pos) (Live vel) (Live (replicate n (v32 0 0 0)))
        (Live (replicate n 0)) (Live (replicate n 0))
        (Live (replicate (Z.to_nat 10648) (-1)))
        (Live (replicate n 0)) (Live (replicate n 0))
        10648 22 (f32 10) (Flit 1 10) (v32 (-110) (-110) (-110)).

(** four boids at rest: one far away, two in the cell (11,11,11), one in the
    next cell (12,11,11), three units from the second boid *)
Definition fourBoids : Sim spec_float :=
  sim32 [v32 (-95) (-95) (-95); v32 8 1 1; v32 9 1 1; v32 11 1 1]
        [v32 0 0 0; v32 0 0 0; v32 0 0 0; v32 0 0 0].

(** two boids at rest, far apart, the first in the higher cell *)
Definition twoBoids : Sim spec_float :=
  sim32 [v32 50 50 50; v32 (-50) (-50) (-50)] [v32 0 0 0; v32 0 0 0].


(** the sorted cell ids of [fourBoids], and its range tables and lookup as
    the kernels of the source build them *)
Definition fourKeys : list Z := [507; 5577; 5577; 5578].
Definition fourStarts : list Z := [0; 1; 0; 3].
Definition fourEnds : list Z := [0; 3; 2; 3].

(** the lookup after [renewGridCellIndex]: the two threads of cell 5577 write
    different values, [head] is the one that lands last *)
Definition fourLookup (head : Z) : list Z :=
  <[Z.to_nat 5577 := head]> (<[Z.to_nat 5578 := 3]> (<[Z.to_nat 507 := 0]>
    (replicate (Z.to_nat 10648) (-1)))).

(** [twoBoids] after one scattered-grid step and after one coherent-grid
    step (the boids are at rest and out of each other's reach) *)
Definition twoBoidsTables (pos : list (vec3 spec_float)) : Sim spec_float :=
  MkSim 2 (Live pos) (Live [v32 0 0 0; v32 0 0 0]) (Live [v32 0 0 0; v32 0 0 0])
        (Live [3042; 8112]) (Live [1; 0])
        (Live (<[Z.to_nat 8112 := 1]> (<[Z.to_nat 3042 := 0]>
                 (replicate (Z.to_nat 10648) (-1)))))
        (Live [0; 1]) (Live [0; 1])
        10648 22 (f32 10) (Flit 1 10) (v32 (-110) (-110) (-110)).

Definition twoBoidsScattered : Sim spec_float :=
  twoBoidsTables [v32 50 50 50; v32 (-50) (-50) (-50)].

Definition twoBoidsCoherent : Sim spec_float :=
  twoBoidsTables [v32 (-50) (-50) (-50); v32 50 50 50].


(** ** A concrete input over the reals: one boid at rest at the origin *)


(** what the steps of a run keep: the element count, the grid parameters
    and the size of every buffer *)
Definition sameShape {F : Type} (s s' : Sim F) : Prop :=
  numObjects s' = numObjects s ∧
  gridCellCount s' = gridCellCount s ∧ gridSideCount s' = gridSideCount s ∧
  gridCellWidth s' = gridCellWidth s ∧
  gridInverseCellWidth s' = gridInverseCellWidth s ∧
  gridMinimum s' = gridMinimum s ∧
  length (contents (gridCellIndex s')) = length (contents (gridCellIndex s)).

(** a run of brute-force steps *)
Definition naiveCalls {F : Type} (dts : list F) : list (strategy * list Z * F) :=
  map (λ dt, (Naive, [], dt)) dts.

(** one boid at rest at the origin, in single precision *)
Definition oneBoid : Sim spec_float := sim32 [v32 0 0 0] [v32 0 0 0].

(** the cell id [kernComputeIndices] gives the position [p] in the grid of
    the state [s] *)
Definition cellOf {F : Type} `{FloatOps F} (s : Sim F) (p : vec3 F) : Z :=
  gridIndex3Dto1D (cellCoord (vx (gridMinimum s)) (gridInverseCellWidth s) (vx p))
                  (cellCoord (vy (gridMinimum s)) (gridInverseCellWidth s) (vy p))
                  (cellCoord (vz (gridMinimum s)) (gridInverseCellWidth s) (vz p))
                  (gridSideCount s).

(** the boid [i] is alone in its cell, and every other boid is in a cell
    with a higher id ([below = true]) or a lower id ([below = false]) *)
Definition aloneAtEnd {F : Type} `{FloatOps F} (below : bool) (s : Sim F) (i : Z)
  : Prop :=
  0 <= i < numObjects s ∧
  ∃ p, rd (contents (dev_pos s)) i = Some p ∧
    ∀ j q, 0 <= j < numObjects s → j ≠ i → rd (contents (dev_pos s)) j = Some q →
      if below then cellOf s p < cellOf s q else cellOf s q < cellOf s p.

(** the tables of a grid step point inside the arrays of [N] boids *)
Definition tablesInRange (N : Z) (pai starts ends lookup : list Z) (side : Z)
  : Prop :=
  (∀ k, 0 <= k < N → ∃ b, rd pai k = Some b ∧ 0 <= b < N) ∧
  (∀ k, 0 <= k < N →
     ∃ a e, rd starts k = Some a ∧ rd ends k = Some e ∧ 0 <= a ∧ e < N) ∧
  (∀ c, 0 <= c < side * side * side →
     ∃ h, rd lookup c = Some h ∧ (h = -1 ∨ 0 <= h < N)).

(** the candidates [l], tested one after the other against the boid at
    [p]: the innermost loop of [newUpdateVelocity] *)
Definition gather {F : Type} `{FloatOps F} (pos vel : list (vec3 F)) (p : vec3 F)
    (l : list Z) (t : tally F) : option (tally F) :=
  forM l (λ j t, q ← rd pos j; w ← rd vel j; Some (applyRules p q w t)) t.

(** the boids of the cell with the id [c] *)
Definition occupants {F : Type} `{FloatOps F} (s : Sim F) (c : Z) : list Z :=
  filter (λ b, cellOf s <$> rd (contents (dev_pos s)) b = Some c)
         (threads (numObjects s)).

(** no cell of the grid holds more than one boid *)
Definition oneBoidPerCell {F : Type} `{FloatOps F} (s : Sim F) : Prop :=
  ∀ i j p q, rd (contents (dev_pos s)) i = Some p →
    rd (contents (dev_pos s)) j = Some q → i ≠ j → cellOf s p ≠ cellOf s q.

(** the candidate at [q] passes one of the distance tests of the boid at
    [p] at least *)
Definition inReach {F : Type} `{FloatOps F} (pos : list (vec3 F)) (p : vec3 F)
    (j : Z) : bool :=
  match rd pos j with
  | Some q => Fltb (glm_length (vsub q p)) rule1Distance
  | None => false
  end.

(** the boids [newUpdateVelocity] meets in the cell [(j, k, m)] when it
    looks around a boid of the cell [own], if the tables list for each
    cell the boids in it *)
Definition visit {F : Type} `{FloatOps F} (s : Sim F) (own j k m : Z) : list Z :=
  let c := gridIndex3Dto1D j k m (gridSideCount s) in
  if (c =? -1) || (c =? own) then [] else occupants s c.

(** the same for the 27 cells around [(x, y, z)], in the order of the
    three loops *)
Definition neighbours {F : Type} `{FloatOps F} (s : Sim F) (own x y z : Z)
  : list Z :=
  j ← zrange (x - 1) (x + 1); k ← zrange (y - 1) (y + 1);
  m ← zrange (z - 1) (z + 1); visit s own j k m.

(** two boids at rest three units apart, in the adjacent cells (11,11,11)
    and (12,11,11), over the reals *)
Definition twoNeighboursIdeal : Sim R :=
  MkSim 2 (Live [Vec3 8%R 1%R 1%R; Vec3 11%R 1%R 1%R])
        (Live [Vec3 0%R 0%R 0%R; Vec3 0%R 0%R 0%R])
        (Live [Vec3 0%R 0%R 0%R; Vec3 0%R 0%R 0%R])
        (Live [0; 0]) (Live [0; 0]) (Live (replicate (Z.to_nat 10648) (-1)))
        (Live [0; 0]) (Live [0; 0])
        10648 22 10%R (1 / 10)%R (Vec3 (-110)%R (-110)%R (-110)%R).

(** * Properties *)

(** ** Arrays and loops *)

Lemma rd_lookup {A : Type} (a : list A) (i : Z) :
  0 <= i → rd a i = a !! Z.to_nat i.
Proof. intros Hi. unfold rd. destruct (Z.ltb_spec i 0); [lia | done]. Qed.

Lemma rd_nat {A : Type} (a : list A) (n : nat) : rd a (Z.of_nat n) = a !! n.
Proof. rewrite rd_lookup by lia. by rewrite Nat2Z.id. Qed.

Lemma rd_Some_bound {A : Type} (a : list A) (i : Z) (x : A) :
  rd a i = Some x → 0 <= i < Z.of_nat (length a).
Proof.
  unfold rd. destruct (Z.ltb_spec i 0); [done |].
  intros Hx. apply lookup_lt_Some in Hx. lia.
Qed.

Lemma rd_is_Some {A : Type} (a : list A) (i : Z) :
  0 <= i < Z.of_nat (length a) → is_Some (rd a i).
Proof.
  intros Hi. rewrite rd_lookup by lia. apply lookup_lt_is_Some. lia.
Qed.

Lemma rd_None_out {A : Type} (a : list A) (i : Z) :
  i < 0 ∨ Z.of_nat (length a) <= i → rd a i = None.
Proof.
  intros Hi. unfold rd. destruct (Z.ltb_spec i 0); [done |].
  apply lookup_ge_None. lia.
Qed.

Lemma wr_Some {A : Type} (a a' : list A) (i : Z) (x : A) :
  wr a i x = Some a' →
  0 <= i < Z.of_nat (length a) ∧ a' = <[Z.to_nat i := x]> a.
Proof.
  unfold wr. destruct (Z.leb_spec 0 i), (Z.ltb_spec i (Z.of_nat (length a)));
    simpl; intros [= <-]; split; (lia || done).
Qed.

Lemma wr_in_bounds {A : Type} (a : list A) (i : Z) (x : A) :
  0 <= i < Z.of_nat (length a) → wr a i x = Some (<[Z.to_nat i := x]> a).
Proof.
  intros Hi. unfold wr.
  destruct (Z.leb_spec 0 i), (Z.ltb_spec i (Z.of_nat (length a))); (lia || done).
Qed.

Lemma wr_length {A : Type} (a a' : list A) (i : Z) (x : A) :
  wr a i x = Some a' → length a' = length a.
Proof. intros [_ ->]%wr_Some. apply length_insert. Qed.

Lemma rd_wr_eq {A : Type} (a a' : list A) (i : Z) (x : A) :
  wr a i x = Some a' → rd a' i = Some x.
Proof.
  intros [Hi ->]%wr_Some. rewrite rd_lookup by lia.
  apply list_lookup_insert_eq. lia.
Qed.

Lemma rd_wr_ne {A : Type} (a a' : list A) (i j : Z) (x : A) :
  wr a i x = Some a' → j ≠ i → rd a' j = rd a j.
Proof.
  intros [Hi ->]%wr_Some Hne. unfold rd. destruct (Z.ltb_spec j 0); [done |].
  apply list_lookup_insert_ne. lia.
Qed.

Lemma elem_of_zrange (lo hi i : Z) : i ∈ zrange lo hi ↔ lo <= i <= hi.
Proof.
  unfold zrange. rewrite list_elem_of_fmap. split.
  - intros (k & -> & Hk). apply elem_of_seq in Hk. lia.
  - intros Hi. exists (Z.to_nat (i - lo)). split; [lia |].
    apply elem_of_seq. lia.
Qed.

Lemma NoDup_zrange (lo hi : Z) : NoDup (zrange lo hi).
Proof.
  unfold zrange. apply NoDup_fmap_2; [| apply NoDup_seq].
  intros x y Hxy. lia.
Qed.

Lemma elem_of_threads (N i : Z) : i ∈ threads N ↔ 0 <= i < N.
Proof. unfold threads. rewrite elem_of_zrange. lia. Qed.

Lemma NoDup_threads (N : Z) : NoDup (threads N).
Proof. apply NoDup_zrange. Qed.

Lemma forM_ext {A S : Type} (l : list A) (f g : A → S → option S) (s : S) :
  (∀ x s, x ∈ l → f x s = g x s) → forM l f s = forM l g s.
Proof.
  revert s. induction l as [| x l IH]; intros s Hfg; [done |].
  simpl. rewrite Hfg by left. destruct (g x s) as [s' |]; [| done].
  simpl. apply IH. intros y t Hy. apply Hfg. by right.
Qed.

(** A launch whose thread [i] reads and rewrites slot [i] alone. *)
Lemma forM_inplace {A : Type} (h : Z → A → option A) (l : list Z) (a a' : list A) :
  NoDup l →
  forM l (λ i a, x ← rd a i; y ← h i x; wr a i y) a = Some a' →
  length a' = length a ∧
  (∀ i, i ∈ l → ∃ x y, rd a i = Some x ∧ h i x = Some y ∧ rd a' i = Some y) ∧
  (∀ j, j ∉ l → rd a' j = rd a j).
Proof.
  revert a. induction l as [| i l IH]; intros a Hnd Hrun.
  - simpl in Hrun. injection Hrun as <-. split; [done |]. split; [| done].
    intros i Hi. by apply elem_of_nil in Hi.
  - apply NoDup_cons in Hnd as [Hi Hnd]. simpl in Hrun.
    destruct (rd a i) as [x |] eqn:Hx; [| done]. simpl in Hrun.
    destruct (h i x) as [y |] eqn:Hy; [| done]. simpl in Hrun.
    destruct (wr a i y) as [a1 |] eqn:Hw; [| done]. simpl in Hrun.
    destruct (IH a1 Hnd Hrun) as (Hlen & Hin & Hout).
    split; [by rewrite Hlen, (wr_length _ _ _ _ Hw) |]. split.
    + intros k [-> | Hk]%elem_of_cons.
      * exists x, y. repeat split; [done .. |].
        rewrite (Hout i Hi). by eapply rd_wr_eq.
      * destruct (Hin k Hk) as (x' & y' & Hx' & Hy' & Hr).
        exists x', y'. repeat split; [| done ..].
        rewrite <- Hx'. symmetry. eapply rd_wr_ne; [done |]. by intros ->.
    + intros j Hj. apply not_elem_of_cons in Hj as [Hji Hj].
      rewrite (Hout j Hj). by eapply rd_wr_ne.
Qed.

Lemma forM_inplace_total {A : Type} (h : Z → A → option A) (l : list Z) (a : list A) :
  NoDup l →
  (∀ i, i ∈ l → ∃ x, rd a i = Some x ∧ is_Some (h i x)) →
  is_Some (forM l (λ i a, x ← rd a i; y ← h i x; wr a i y) a).
Proof.
  revert a. induction l as [| i l IH]; intros a Hnd Hok; [by eexists |].
  apply NoDup_cons in Hnd as [Hi Hnd]. simpl.
  destruct (Hok i) as (x & Hx & [y Hy]); [by left |].
  rewrite Hx. simpl. rewrite Hy. simpl.
  rewrite wr_in_bounds by (by eapply rd_Some_bound). simpl.
  apply IH; [done |]. intros k Hk.
  destruct (Hok k) as (x' & Hx' & Hy'); [by right |].
  exists x'. split; [| done]. rewrite <- Hx'.
  eapply rd_wr_ne; [apply wr_in_bounds; by eapply rd_Some_bound |].
  by intros ->.
Qed.

(** A launch whose thread [i] writes the value [v] to the slot [j], for
    [cell i = Some (j, v)]: every slot some thread writes to ends with a
    value a thread wrote there; the others keep theirs. *)
Lemma forM_scatter {A : Type} (cell : Z → option (Z * A)) (l : list Z)
    (a a' : list A) :
  forM l (λ i a, jv ← cell i; wr a jv.1 jv.2) a = Some a' →
  length a' = length a ∧
  (∀ i, i ∈ l → ∃ j v, cell i = Some (j, v) ∧ 0 <= j < Z.of_nat (length a)) ∧
  (∀ j, (∀ i v, i ∈ l → cell i ≠ Some (j, v)) → rd a' j = rd a j) ∧
  (∀ i j v, i ∈ l → cell i = Some (j, v) →
     ∃ i' v', i' ∈ l ∧ cell i' = Some (j, v') ∧ rd a' j = Some v').
Proof.
  revert a. induction l as [| i0 l IH]; intros a Hrun.
  - simpl in Hrun. injection Hrun as <-.
    split; [done |]. split; [| split; [done |]].
    + intros i Hi. by apply elem_of_nil in Hi.
    + intros i j v Hi. by apply elem_of_nil in Hi.
  - simpl in Hrun. destruct (cell i0) as [[j0 v0] |] eqn:Hc; [| done].
    simpl in Hrun. destruct (wr a j0 v0) as [a1 |] eqn:Hw; [| done].
    simpl in Hrun. destruct (IH a1 Hrun) as (Hlen & Hdef & Hkeep & Hwritten).
    pose proof (wr_length _ _ _ _ Hw) as Hlen1.
    split; [congruence |]. split; [| split].
    + intros i [-> | Hi]%elem_of_cons.
      * exists j0, v0. split; [done |]. by apply wr_Some in Hw as [? _].
      * destruct (Hdef i Hi) as (j & v & ? & ?). exists j, v.
        split; [done | lia].
    + intros j Hj. rewrite Hkeep.
      * eapply rd_wr_ne; [done |]. intros ->. by eapply (Hj i0 v0); [left |].
      * intros i v Hi. apply Hj. by right.
    + intros i j v Hi Hcell.
      destruct (decide (Exists (λ k, fst <$> cell k = Some j) l)) as [Hex | Hno].
      * apply Exists_exists in Hex as (k & Hk & Hfst).
        destruct (cell k) as [[j' v'] |] eqn:Hck; [| done].
        injection Hfst as ->.
        destruct (Hwritten k j v' Hk Hck) as (i' & w & ? & ? & ?).
        exists i', w. split; [by right | done].
      * assert (j = j0) as ->.
        { apply elem_of_cons in Hi as [-> | Hi]; [congruence |].
          exfalso. apply Hno, Exists_exists. exists i. split; [done |].
          by rewrite Hcell. }
        exists i0, v0. split; [by left |]. split; [done |].
        rewrite Hkeep; [by eapply rd_wr_eq |].
        intros k w Hk Hck. apply Hno, Exists_exists. exists k.
        split; [done |]. by rewrite Hck.
Qed.

Lemma forM_scatter_total {A : Type} (cell : Z → option (Z * A)) (l : list Z)
    (a : list A) :
  (∀ i, i ∈ l → ∃ j v, cell i = Some (j, v) ∧ 0 <= j < Z.of_nat (length a)) →
  is_Some (forM l (λ i a, jv ← cell i; wr a jv.1 jv.2) a).
Proof.
  revert a. induction l as [| i0 l IH]; intros a Hok; [by eexists |].
  simpl. destruct (Hok i0) as (j & v & Hc & Hj); [by left |].
  rewrite Hc. simpl. rewrite wr_in_bounds by done. simpl.
  apply IH. intros i Hi. destruct (Hok i) as (j' & v' & ? & ?); [by right |].
  exists j', v'. split; [done |]. by rewrite length_insert.
Qed.

Lemma forM_is_Some {A S : Type} (l : list A) (body : A → S → option S) (s : S) :
  (∀ x s, x ∈ l → is_Some (body x s)) → is_Some (forM l body s).
Proof.
  revert s. induction l as [| x l IH]; intros s Hok; [by eexists |].
  simpl. destruct (Hok x s) as [s' ->]; [by left |]. simpl.
  apply IH. intros y t Hy. apply Hok. by right.
Qed.

(** ** The integrator *)

Section Integrator.
Context {F : Type} `{FloatOps F}.

Lemma kernUpdatePos_spec (N : Z) (dt : F) (pos vel pos' : list (vec3 F)) :
  kernUpdatePos N dt pos vel = Some pos' →
  length pos' = length pos ∧
  (∀ i, 0 <= i < N →
     ∃ p v, rd pos i = Some p ∧ rd vel i = Some v ∧
            rd pos' i = Some (integrate dt p v)) ∧
  (∀ j, ¬ (0 <= j < N) → rd pos' j = rd pos j).
Proof.
  unfold kernUpdatePos. intros Hrun.
  rewrite (forM_ext _ _
    (λ i a, x ← rd a i; y ← (v ← rd vel i; Some (integrate dt x v)); wr a i y))
    in Hrun.
  2:{ intros i a _. destruct (rd a i); [| done]. simpl. by destruct (rd vel i). }
  apply forM_inplace in Hrun as (Hlen & Hin & Hout); [| apply NoDup_threads].
  split; [done |]. split.
  - intros i Hi. destruct (Hin i) as (x & y & Hx & Hy & Hr).
    { by apply elem_of_threads. }
    destruct (rd vel i) as [v |] eqn:Hv; [| done]. injection Hy as <-.
    by exists x, v.
  - intros j Hj. apply Hout. by rewrite elem_of_threads.
Qed.

Lemma kernUpdatePos_total (N : Z) (dt : F) (pos vel : list (vec3 F)) :
  N <= Z.of_nat (length pos) → N <= Z.of_nat (length vel) →
  is_Some (kernUpdatePos N dt pos vel).
Proof.
  intros Hp Hv. unfold kernUpdatePos.
  rewrite (forM_ext _ _
    (λ i a, x ← rd a i; y ← (v ← rd vel i; Some (integrate dt x v)); wr a i y)).
  2:{ intros i a _. destruct (rd a i); [| done]. simpl. by destruct (rd vel i). }
  apply forM_inplace_total; [apply NoDup_threads |].
  intros i Hi%elem_of_threads.
  destruct (rd_is_Some pos i) as [p Hrp]; [lia |].
  destruct (rd_is_Some vel i) as [v Hrv]; [lia |].
  exists p. split; [done |]. rewrite Hrv. by eexists.
Qed.
End Integrator.

(** *** Over the reals *)

Lemma Rltb_true (a b : R) : Rltb a b = true ↔ (a < b)%R.
Proof. unfold Rltb. destruct (Rlt_dec a b); split; intros ?; try done; lra. Qed.

Lemma Rltb_false (a b : R) : Rltb a b = false ↔ (b <= a)%R.
Proof. unfold Rltb. destruct (Rlt_dec a b); split; intros ?; try done; lra. Qed.

Ltac ideal_ops :=
  cbn [Flit Fof_int Fadd Fsub Fmul Fdiv Fneg Fsqrt Fltb Ffloor Ftrunc ideal] in *.

Lemma scene_scale_ideal : scene_scale (F := R) = 100%R.
Proof. unfold scene_scale. ideal_ops. lra. Qed.

Lemma wrap_ideal (c : R) :
  wrapHigh (wrapLow c) =
    if Rltb c (Ropp 100) then 100%R
    else if Rltb 100 c then Ropp 100 else c.
Proof.
  unfold wrapHigh, wrapLow. rewrite scene_scale_ideal. ideal_ops.
  destruct (Rltb c (Ropp 100)) eqn:Hlo; [| done].
  destruct (Rltb 100 100) eqn:Hhi; [| done].
  apply Rltb_true in Hhi. lra.
Qed.

Lemma wrap_in_range (c : R) : (Ropp 100 <= wrapHigh (wrapLow c) <= 100)%R.
Proof.
  rewrite wrap_ideal.
  destruct (Rltb c (Ropp 100)) eqn:Hlo; [lra |].
  destruct (Rltb 100 c) eqn:Hhi; [lra |].
  apply Rltb_false in Hlo, Hhi. lra.
Qed.

Lemma integrate_inDomain (dt : R) (p v : vec3 R) : inDomain (integrate dt p v).
Proof.
  unfold inDomain, integrate. rewrite scene_scale_ideal. cbn [vx vy vz].
  repeat split; apply wrap_in_range.
Qed.

(** C10: one application of the two strict comparisons of [kernUpdatePos]
    sends every real coordinate into [-100, 100], whatever the time step and
    the velocity were: a coordinate below -100 goes to 100, one above 100 to
    -100, any other is kept, and so are -100 and 100 themselves. *)
Theorem wrap_single_application :
  (∀ c : R,
     (- scene_scale <= wrapHigh (wrapLow c) <= scene_scale)%R ∧
     wrapHigh (wrapLow c) =
       if Rltb c (- scene_scale) then scene_scale
       else if Rltb scene_scale c then (- scene_scale)%R else c) ∧
  wrapHigh (wrapLow (- scene_scale)%R) = (- scene_scale)%R ∧
  wrapHigh (wrapLow (scene_scale (F := R))) = scene_scale ∧
  (∀ (dt : R) (p v : vec3 R), inDomain (integrate dt p v)).
Proof.
  rewrite !scene_scale_ideal. split; [| split; [| split]].
  - intros c. split; [apply wrap_in_range | apply wrap_ideal].
  - rewrite wrap_ideal.
    destruct (Rltb (Ropp 100) (Ropp 100)) eqn:E1; [apply Rltb_true in E1; lra |].
    destruct (Rltb 100 (Ropp 100)) eqn:E2; [apply Rltb_true in E2; lra | done].
  - rewrite wrap_ideal.
    destruct (Rltb 100 (Ropp 100)) eqn:E1; [apply Rltb_true in E1; lra |].
    destruct (Rltb 100 100) eqn:E2; [apply Rltb_true in E2; lra | done].
  - apply integrate_inDomain.
Qed.

(** *** In single precision *)

Lemma scene_scale_b32 :
  scene_scale (F := spec_float) = S754_finite false 13107200 (-17).
Proof. vm_compute. reflexivity. Qed.

Lemma spec_float_eq_nan (x : spec_float) : x = S754_nan ∨ x ≠ S754_nan.
Proof. destruct x; (by left) || (by right). Qed.

(** Every single-precision coordinate other than NaN ends in [-100, 100];
    a NaN is kept, both comparisons being false on it. *)
Lemma wrap_b32 (c : spec_float) :
  c ≠ S754_nan →
  SFleb (Fneg scene_scale) (wrapHigh (wrapLow c)) = true ∧
  SFleb (wrapHigh (wrapLow c)) scene_scale = true.
Proof.
  intros Hnan. unfold wrapHigh, wrapLow. rewrite scene_scale_b32.
  cbn [Fltb Fneg binary32 SFopp].
  destruct c as [s | s | | s m e]; [by destruct s .. | done |].
  pose proof (Z.compare_antisym e (-17)) as Hz.
  pose proof (Pos.compare_cont_antisym m 13107200 Eq) as Hp.
  unfold SFltb, SFleb, SFcompare.
  destruct (e ?= -17) eqn:He, (Pos.compare_cont Eq m 13107200) eqn:Hm, s;
    cbv beta iota delta [CompOpp] in Hz, Hp;
    repeat (cbv beta iota delta [negb CompOpp]; rewrite ?He, ?Hm, ?Hz, <- ?Hp);
    split; reflexivity.
Qed.

Lemma wrap_b32_nan : wrapHigh (wrapLow S754_nan) = S754_nan.
Proof. reflexivity. Qed.

(** In single precision [kernUpdatePos] leaves every coordinate in
    [-100, 100], unless the sum [pos + vel * dt] was a NaN. *)
Lemma integrate_b32 (dt : spec_float) (p v : vec3 spec_float) (c : spec_float) :
  c = vx (integrate dt p v) ∨ c = vy (integrate dt p v) ∨ c = vz (integrate dt p v) →
  c = S754_nan ∨
  (SFleb (Fneg scene_scale) c = true ∧ SFleb c scene_scale = true).
Proof.
  assert (∀ x, wrapHigh (wrapLow x) = S754_nan ∨
               (SFleb (Fneg scene_scale) (wrapHigh (wrapLow x)) = true ∧
                SFleb (wrapHigh (wrapLow x)) scene_scale = true)) as Hwrap.
  { intros x. destruct (spec_float_eq_nan x) as [-> | Hx];
      [left; apply wrap_b32_nan | right; by apply wrap_b32]. }
  unfold integrate. cbn [vx vy vz]. intros [-> | [-> | ->]]; apply Hwrap.
Qed.

(** ** The brute-force kernel *)

Section BruteForce.
Context {F : Type} `{FloatOps F}.

Lemma computeVelocityChange_total (N i : Z) (pos vel : list (vec3 F)) :
  0 <= i < N → N <= Z.of_nat (length pos) → N <= Z.of_nat (length vel) →
  is_Some (computeVelocityChange N i pos vel).
Proof.
  intros Hi Hp Hv. unfold computeVelocityChange.
  destruct (Z.geb_spec i N); [lia |].
  destruct (rd_is_Some pos i) as [p ->]; [lia |].
  destruct (rd_is_Some vel i) as [v ->]; [lia |]. simpl.
  assert (∀ k, k ∈ zrange 0 (N - 1) → is_Some (rd pos k) ∧ is_Some (rd vel k))
    as Hrd.
  { intros k Hk%elem_of_zrange. split; apply rd_is_Some; lia. }
  match goal with |- is_Some (forM ?l ?b ?s ≫= _) =>
    destruct (forM_is_Some l b s) as [[pc c1] ->] end.
  { intros k [pc c1] Hk. destruct (negb (k =? i)); [| by eexists].
    destruct (Hrd k Hk) as [[q ->] _]. simpl.
    match goal with |- is_Some (if ?c then _ else _) => by destruct c end. }
  simpl.
  match goal with |- is_Some (forM ?l ?b ?s ≫= _) =>
    destruct (forM_is_Some l b s) as [cv ->] end.
  { intros k cv Hk. destruct (negb (k =? i)); [| by eexists].
    destruct (Hrd k Hk) as [[q ->] _]. simpl.
    repeat match goal with |- is_Some (if ?c then _ else _) => destruct c end;
      by eexists. }
  simpl.
  match goal with |- is_Some (forM ?l ?b ?s ≫= _) =>
    destruct (forM_is_Some l b s) as [[pv c2] ->] end.
  { intros k [pv c2] Hk. destruct (negb (k =? i)); [| by eexists].
    destruct (Hrd k Hk) as [[q ->] [w ->]]. simpl.
    match goal with |- is_Some (if ?c then _ else _) => by destruct c end. }
  simpl. by eexists.
Qed.

Lemma kernUpdateVelocityBruteForce_spec (N : Z) (pos vel1 vel2 vel2' : list (vec3 F)) :
  kernUpdateVelocityBruteForce N pos vel1 vel2 = Some vel2' →
  length vel2' = length vel2 ∧
  (∀ i, 0 <= i < N →
     ∃ u, computeVelocityChange N i pos vel1 = Some u ∧
          rd vel2' i = Some (clampSpeed u)) ∧
  (∀ j, ¬ (0 <= j < N) → rd vel2' j = rd vel2 j).
Proof.
  unfold kernUpdateVelocityBruteForce. intros Hrun.
  rewrite (forM_ext _ _
    (λ i a, jv ← (λ u, (i, clampSpeed u)) <$> computeVelocityChange N i pos vel1;
            wr a jv.1 jv.2)) in Hrun.
  2:{ intros i a _. by destruct (computeVelocityChange N i pos vel1). }
  apply forM_scatter in Hrun as (Hlen & Hdef & Hkeep & Hwritten).
  split; [done |]. split.
  - intros i Hi%elem_of_threads.
    destruct (Hdef i Hi) as (j & v & Hc & _).
    destruct (computeVelocityChange N i pos vel1) as [u |] eqn:Hu; [| done].
    injection Hc as <- <-. exists u. split; [done |].
    destruct (Hwritten i i (clampSpeed u) Hi) as (i' & v' & _ & Hc' & Hr).
    { by rewrite Hu. }
    destruct (computeVelocityChange N i' pos vel1) as [u' |] eqn:Hu'; [| done].
    injection Hc' as -> <-. by rewrite Hu in Hu'; injection Hu' as <-.
  - intros j Hj. apply Hkeep. intros i v Hi%elem_of_threads Hc.
    destruct (computeVelocityChange N i pos vel1); [| done].
    injection Hc as -> _. lia.
Qed.

Lemma kernUpdateVelocityBruteForce_total (N : Z) (pos vel1 vel2 : list (vec3 F)) :
  N <= Z.of_nat (length pos) → N <= Z.of_nat (length vel1) →
  N <= Z.of_nat (length vel2) →
  is_Some (kernUpdateVelocityBruteForce N pos vel1 vel2).
Proof.
  intros Hp Hv1 Hv2. unfold kernUpdateVelocityBruteForce.
  rewrite (forM_ext _ _
    (λ i a, jv ← (λ u, (i, clampSpeed u)) <$> computeVelocityChange N i pos vel1;
            wr a jv.1 jv.2)).
  2:{ intros i a _. by destruct (computeVelocityChange N i pos vel1). }
  apply forM_scatter_total. intros i Hi%elem_of_threads.
  destruct (computeVelocityChange_total N i pos vel1) as [u Hu]; [lia .. |].
  exists i, (clampSpeed u). rewrite Hu. split; [done | lia].
Qed.

Lemma cudaMemcpy_Some {A : Type} (dst src out : list A) (N : Z) :
  cudaMemcpy dst src N = Some out →
  N <= Z.of_nat (length dst) ∧ N <= Z.of_nat (length src) ∧
  out = take (Z.to_nat N) src ++ drop (Z.to_nat N) dst.
Proof.
  unfold cudaMemcpy.
  destruct (Z.ltb_spec (Z.of_nat (length dst)) N),
           (Z.ltb_spec (Z.of_nat (length src)) N); simpl; intros [= <-].
  repeat split; lia.
Qed.

Lemma cudaMemcpy_total {A : Type} (dst src : list A) (N : Z) :
  N <= Z.of_nat (length dst) → N <= Z.of_nat (length src) →
  cudaMemcpy dst src N = Some (take (Z.to_nat N) src ++ drop (Z.to_nat N) dst).
Proof.
  intros Hd Hs. unfold cudaMemcpy.
  destruct (Z.ltb_spec (Z.of_nat (length dst)) N),
           (Z.ltb_spec (Z.of_nat (length src)) N); (lia || done).
Qed.

Lemma rd_take_app {A : Type} (a b : list A) (N i : Z) :
  0 <= i < N → N <= Z.of_nat (length a) →
  rd (take (Z.to_nat N) a ++ b) i = rd a i.
Proof.
  intros Hi Hn. rewrite !rd_lookup by lia.
  rewrite lookup_app_l by (rewrite length_take; lia).
  apply lookup_take_lt. lia.
Qed.

Lemma stepSimulationNaive_total (dt : F) (s : Sim F) :
  numObjects s <= Z.of_nat (length (contents (dev_pos s))) →
  numObjects s <= Z.of_nat (length (contents (dev_vel1 s))) →
  numObjects s <= Z.of_nat (length (contents (dev_vel2 s))) →
  ∃ s', stepSimulationNaive dt s = Done s'.
Proof.
  intros Hp Hv1 Hv2. unfold stepSimulationNaive.
  destruct (kernUpdateVelocityBruteForce_total _ _ _ _ Hp Hv1 Hv2) as [vel2 Hk].
  rewrite Hk. simpl.
  apply kernUpdateVelocityBruteForce_spec in Hk as (Hlen & _).
  destruct (kernUpdatePos_total (numObjects s) dt (contents (dev_pos s)) vel2)
    as [pos ->]; [lia .. |]. simpl.
  rewrite cudaMemcpy_total by lia. simpl. by eexists.
Qed.
End BruteForce.

(** ** Steps and runs *)

Lemma run_Done {A : Type} (m : option A) (a : A) : run m = Done a ↔ m = Some a.
Proof. destruct m; simpl; split; congruence. Qed.

Lemma obind_Done {A B : Type} (m : outcome A) (k : A → outcome B) (b : B) :
  obind m k = Done b ↔ ∃ a, m = Done a ∧ k a = Done b.
Proof.
  destruct m; simpl; split; try done.
  - intros Hk. by eexists.
  - by intros (a' & [= ->] & Hk).
  - by intros (a' & ? & _).
  - by intros (a' & ? & _).
Qed.

(** repeated inversion of [m ≫= k = Some y] *)
Ltac bind_inv H :=
  repeat (
    let x := fresh "x" in
    let Hx := fresh "Hx" in
    apply bind_Some in H as (x & Hx & H);
    repeat match type of H with
           | (let '(_, _) := ?p in _) = _ => destruct p
           end;
    cbn beta in H).






(** ** The speed clamp, over the reals *)


Lemma glm_length_ideal (v : vec3 R) :
  glm_length v = sqrt (vx v * vx v + vy v * vy v + vz v * vz v).
Proof. done. Qed.




(** ** The velocity kernels of the grid strategies *)

(** A launch whose thread [i] writes slot [i] with a value that does not
    depend on the array written. *)
Lemma forM_own_slot {A : Type} (val : Z → option A) (N : Z) (a a' : list A) :
  forM (threads N) (λ i a, v ← val i; wr a i v) a = Some a' →
  length a' = length a ∧
  (∀ i, 0 <= i < N → ∃ v, val i = Some v ∧ rd a' i = Some v) ∧
  (∀ j, ¬ (0 <= j < N) → rd a' j = rd a j).
Proof.
  intros Hrun.
  rewrite (forM_ext _ _ (λ i a, jv ← (λ v, (i, v)) <$> val i; wr a jv.1 jv.2))
    in Hrun.
  2:{ intros i b _. by destruct (val i). }
  apply forM_scatter in Hrun as (Hlen & Hdef & Hkeep & Hwritten).
  split; [done |]. split.
  - intros i Hi%elem_of_threads.
    destruct (Hdef i Hi) as (j & v & Hc & _).
    destruct (val i) as [u |] eqn:Hu; [| done].
    injection Hc as <- <-. exists u. split; [done |].
    destruct (Hwritten i i u Hi) as (i' & v' & _ & Hc' & Hr).
    { by rewrite Hu. }
    destruct (val i') as [u' |] eqn:Hu'; [| done].
    injection Hc' as -> <-. by rewrite Hu in Hu'; injection Hu' as <-.
  - intros j Hj. apply Hkeep. intros i v Hi%elem_of_threads Hc.
    destruct (val i); [| done]. injection Hc as -> _. lia.
Qed.

Lemma forM_own_slot_total {A : Type} (val : Z → option A) (N : Z) (a : list A) :
  (∀ i, 0 <= i < N → is_Some (val i)) → N <= Z.of_nat (length a) →
  is_Some (forM (threads N) (λ i a, v ← val i; wr a i v) a).
Proof.
  intros Hval Hlen.
  rewrite (forM_ext _ _ (λ i a, jv ← (λ v, (i, v)) <$> val i; wr a jv.1 jv.2)).
  2:{ intros i b _. by destruct (val i). }
  apply forM_scatter_total. intros i Hi%elem_of_threads.
  destruct (Hval i Hi) as [v Hv]. exists i, v. rewrite Hv. split; [done | lia].
Qed.

Section GridKernels.
Context {F : Type} `{FloatOps F}.

Lemma kernUpdateVelNeighborSearchCoherent_spec (N : Z)
    (starts ends pai pgi gci : list Z) (side width : Z)
    (pos vel1 vel2 vel2' : list (vec3 F)) :
  kernUpdateVelNeighborSearchCoherent N starts ends pai pgi gci side width
    pos vel1 vel2 = Some vel2' →
  length vel2' = length vel2 ∧
  (∀ i, 0 <= i < N →
     ∃ u, CoherentUpDateVelocity N i pos vel1 pai pgi starts ends gci side width
            = Some u ∧
          rd vel2' i = Some (clampSpeed u)) ∧
  (∀ j, ¬ (0 <= j < N) → rd vel2' j = rd vel2 j).
Proof.
  unfold kernUpdateVelNeighborSearchCoherent. intros Hrun.
  rewrite (forM_ext _ _
    (λ i a, v ← clampSpeed <$>
                  CoherentUpDateVelocity N i pos vel1 pai pgi starts ends gci
                    side width;
            wr a i v)) in Hrun.
  2:{ intros i a _. by destruct (CoherentUpDateVelocity _ _ _ _ _ _ _ _ _ _ _). }
  apply forM_own_slot in Hrun as (Hlen & Hin & Hout).
  split; [done |]. split; [| done].
  intros i Hi. destruct (Hin i Hi) as (v & Hv & Hr).
  destruct (CoherentUpDateVelocity _ _ _ _ _ _ _ _ _ _ _) as [u |]; [| done].
  injection Hv as <-. by exists u.
Qed.

Lemma kernUpdateVelNeighborSearchScattered_spec (N : Z)
    (starts ends pai pgi gci : list Z) (side width : Z)
    (pos vel1 vel2 vel2' : list (vec3 F)) :
  kernUpdateVelNeighborSearchScattered N starts ends pai pgi gci side width
    pos vel1 vel2 = Some vel2' →
  length vel2' = length vel2 ∧
  (∀ i, 0 <= i < N →
     ∃ b u, rd pai i = Some b ∧ 0 <= b < Z.of_nat (length vel2) ∧
       newUpdateVelocity N i b pos vel1 pai pgi starts ends gci side width
         = Some u ∧
       ∃ i' u', 0 <= i' < N ∧ rd pai i' = Some b ∧
         newUpdateVelocity N i' b pos vel1 pai pgi starts ends gci side width
           = Some u' ∧
         rd vel2' b = Some (clampSpeed u')) ∧
  (∀ j, (∀ i, 0 <= i < N → rd pai i ≠ Some j) → rd vel2' j = rd vel2 j).
Proof.
  unfold kernUpdateVelNeighborSearchScattered. intros Hrun.
  set (cell := λ i : Z,
         b ← rd pai i;
         u ← newUpdateVelocity N i b pos vel1 pai pgi starts ends gci side width;
         Some (b, clampSpeed u)).
  rewrite (forM_ext _ _ (λ i a, jv ← cell i; wr a jv.1 jv.2)) in Hrun.
  2:{ intros i a _. unfold cell. destruct (rd pai i) as [b |]; [| done]. simpl.
      by destruct (newUpdateVelocity _ _ _ _ _ _ _ _ _ _ _ _). }
  assert (∀ i j v, cell i = Some (j, v) →
            rd pai i = Some j ∧
            ∃ u, newUpdateVelocity N i j pos vel1 pai pgi starts ends gci
                   side width = Some u ∧ v = clampSpeed u) as Hcell.
  { intros i j v. unfold cell. destruct (rd pai i) as [b |]; [| done]. simpl.
    destruct (newUpdateVelocity _ _ _ _ _ _ _ _ _ _ _ _) as [u |] eqn:Hu; [| done].
    simpl. intros [= -> <-]. split; [done |]. by exists u. }
  apply forM_scatter in Hrun as (Hlen & Hdef & Hkeep & Hwritten).
  split; [done |]. split.
  - intros i Hi%elem_of_threads.
    destruct (Hdef i Hi) as (b & v & Hc & Hb).
    destruct (Hcell _ _ _ Hc) as (Hpai & u & Hu & ->).
    exists b, u. repeat split; [done | lia | lia | done |].
    destruct (Hwritten i b _ Hi Hc) as (i' & v' & Hi'%elem_of_threads & Hc' & Hr).
    destruct (Hcell _ _ _ Hc') as (Hpai' & u' & Hu' & ->).
    by exists i', u'.
  - intros j Hj. apply Hkeep. intros i v Hi%elem_of_threads Hc.
    destruct (Hcell _ _ _ Hc) as (Hpai & _). by apply (Hj i).
Qed.
End GridKernels.

(** ** The indexer *)

(** A launch whose thread [i] writes slot [i] of two arrays. *)
Lemma forM_split2 {A B : Type} (val : Z → option (A * B)) (l : list Z)
    (a : list A) (b : list B) :
  forM l (λ i '(a, b), xy ← val i; a ← wr a i xy.1; b ← wr b i xy.2; Some (a, b))
       (a, b)
  = (a' ← forM l (λ i a, v ← fst <$> val i; wr a i v) a;
     b' ← forM l (λ i b, v ← snd <$> val i; wr b i v) b;
     Some (a', b')).
Proof.
  revert a b. induction l as [| i l IH]; intros a b; [done |].
  simpl. destruct (val i) as [[x y] |]; [| done]. simpl.
  destruct (wr a i x) as [a1 |]; [| done]. simpl.
  destruct (wr b i y) as [b1 |]; simpl; [apply IH |].
  by destruct (forM l _ a1).
Qed.

Lemma forM_own_slot2 {A B : Type} (val : Z → option (A * B)) (N : Z)
    (a a' : list A) (b b' : list B) :
  forM (threads N)
       (λ i '(a, b), xy ← val i; a ← wr a i xy.1; b ← wr b i xy.2; Some (a, b))
       (a, b) = Some (a', b') →
  length a' = length a ∧ length b' = length b ∧
  (∀ i, 0 <= i < N →
     ∃ x y, val i = Some (x, y) ∧ rd a' i = Some x ∧ rd b' i = Some y) ∧
  (∀ j, ¬ (0 <= j < N) → rd a' j = rd a j ∧ rd b' j = rd b j).
Proof.
  rewrite forM_split2. intros Hrun.
  apply bind_Some in Hrun as (a1 & Ha & Hrun).
  apply bind_Some in Hrun as (b1 & Hb & [= <- <-]).
  apply forM_own_slot in Ha as (Hla & Hina & Houta).
  apply forM_own_slot in Hb as (Hlb & Hinb & Houtb).
  repeat split; [done | done | | by apply Houta | by apply Houtb].
  intros i Hi. destruct (Hina i Hi) as (x & Hx & Hrx).
  destruct (Hinb i Hi) as (y & Hy & Hry).
  destruct (val i) as [[x' y'] |]; [| done].
  injection Hx as <-. injection Hy as <-. by exists x', y'.
Qed.

Lemma forM_own_slot2_total {A B : Type} (val : Z → option (A * B)) (N : Z)
    (a : list A) (b : list B) :
  (∀ i, 0 <= i < N → is_Some (val i)) →
  N <= Z.of_nat (length a) → N <= Z.of_nat (length b) →
  is_Some (forM (threads N)
     (λ i '(a, b), xy ← val i; a ← wr a i xy.1; b ← wr b i xy.2; Some (a, b))
     (a, b)).
Proof.
  intros Hval Hla Hlb. rewrite forM_split2.
  destruct (forM_own_slot_total (λ i, fst <$> val i) N a) as [a' ->]; [| done |].
  { intros i Hi. destruct (Hval i Hi) as [xy ->]. by eexists. }
  destruct (forM_own_slot_total (λ i, snd <$> val i) N b) as [b' ->]; [| done |].
  { intros i Hi. destruct (Hval i Hi) as [xy ->]. by eexists. }
  by eexists.
Qed.

Lemma gridIndex3Dto1D_inside (x y z side : Z) :
  inGrid x y z side → gridIndex3Dto1D x y z side = encode1D x y z side.
Proof.
  intros (Hx & Hy & Hz). unfold gridIndex3Dto1D, encode1D.
  destruct (Z.geb_spec x side), (Z.ltb_spec x 0), (Z.geb_spec y side),
    (Z.ltb_spec y 0), (Z.geb_spec z side), (Z.ltb_spec z 0); try lia.
  simpl. lia.
Qed.

Lemma gridIndex3Dto1D_outside (x y z side : Z) :
  ¬ inGrid x y z side → gridIndex3Dto1D x y z side = -1.
Proof.
  intros Hout. unfold gridIndex3Dto1D.
  destruct (Z.geb_spec x side), (Z.ltb_spec x 0), (Z.geb_spec y side),
    (Z.ltb_spec y 0), (Z.geb_spec z side), (Z.ltb_spec z 0); try done.
  exfalso. apply Hout. unfold inGrid. lia.
Qed.

Section Indexer.
Context {F : Type} `{FloatOps F}.

Lemma kernComputeIndices_body (N res : Z) (gridMin : vec3 F) (inv : F)
    (pos : list (vec3 F)) (indices gridIndices : list Z) :
  kernComputeIndices N res gridMin inv pos indices gridIndices =
  forM (threads N)
    (λ i '(a, b),
       xy ← (λ p : vec3 F,
               (i, gridIndex3Dto1D (cellCoord (vx gridMin) inv (vx p))
                     (cellCoord (vy gridMin) inv (vy p))
                     (cellCoord (vz gridMin) inv (vz p)) res)) <$> rd pos i;
       a ← wr a i xy.1; b ← wr b i xy.2; Some (a, b))
    (indices, gridIndices).
Proof.
  unfold kernComputeIndices. apply forM_ext. intros i [a b] _.
  destruct (rd pos i) as [p |]; simpl; [| by destruct (wr a i i)].
  destruct (wr a i i); [| done]. done.
Qed.

Lemma kernComputeIndices_spec (N res : Z) (gridMin : vec3 F) (inv : F)
    (pos : list (vec3 F)) (indices gridIndices indices' gridIndices' : list Z) :
  kernComputeIndices N res gridMin inv pos indices gridIndices
    = Some (indices', gridIndices') →
  length indices' = length indices ∧ length gridIndices' = length gridIndices ∧
  (∀ i, 0 <= i < N →
     ∃ p, rd pos i = Some p ∧ rd indices' i = Some i ∧
          rd gridIndices' i =
            Some (gridIndex3Dto1D (cellCoord (vx gridMin) inv (vx p))
                    (cellCoord (vy gridMin) inv (vy p))
                    (cellCoord (vz gridMin) inv (vz p)) res)) ∧
  (∀ j, ¬ (0 <= j < N) →
     rd indices' j = rd indices j ∧ rd gridIndices' j = rd gridIndices j).
Proof.
  rewrite kernComputeIndices_body. intros Hrun.
  apply forM_own_slot2 in Hrun as (Hla & Hlb & Hin & Hout).
  repeat split; [done | done | | by apply Hout | by apply Hout].
  intros i Hi. destruct (Hin i Hi) as (x & y & Hval & Hrx & Hry).
  destruct (rd pos i) as [p |]; [| done]. injection Hval as <- <-. by exists p.
Qed.

Lemma kernComputeIndices_total (N res : Z) (gridMin : vec3 F) (inv : F)
    (pos : list (vec3 F)) (indices gridIndices : list Z) :
  N <= Z.of_nat (length pos) → N <= Z.of_nat (length indices) →
  N <= Z.of_nat (length gridIndices) →
  is_Some (kernComputeIndices N res gridMin inv pos indices gridIndices).
Proof.
  intros Hp Hi Hg. rewrite kernComputeIndices_body.
  apply forM_own_slot2_total; [| done ..].
  intros i Hi'. destruct (rd_is_Some pos i) as [p ->]; [lia |]. by eexists.
Qed.

(** C7: the indexer gives [ParticleIndex[i] = i] and stores in
    [GridIndex[i]] the encoding of the cell
    [floor((pos[i] - gridMin) * invCellWidth)]; the encoding of a cell inside
    the grid is [x + y * side + z * side^2], and that of a cell with a
    coordinate outside [0, side) is the sentinel -1. *)
Theorem indexer_encodes_cells (N side : Z) (gridMin : vec3 F) (inv : F)
    (pos : list (vec3 F)) (indices gridIndices : list Z) :
  N <= Z.of_nat (length pos) →
  N <= Z.of_nat (length indices) →
  N <= Z.of_nat (length gridIndices) →
  ∃ ParticleIndex GridIndex,
    kernComputeIndices N side gridMin inv pos indices gridIndices
      = Some (ParticleIndex, GridIndex) ∧
    ∀ i, 0 <= i < N →
      ∃ p x y z,
        rd pos i = Some p ∧
        x = cellCoord (vx gridMin) inv (vx p) ∧
        y = cellCoord (vy gridMin) inv (vy p) ∧
        z = cellCoord (vz gridMin) inv (vz p) ∧
        rd ParticleIndex i = Some i ∧
        rd GridIndex i = Some (gridIndex3Dto1D x y z side) ∧
        (inGrid x y z side → gridIndex3Dto1D x y z side = encode1D x y z side) ∧
        (¬ inGrid x y z side → gridIndex3Dto1D x y z side = -1).
Proof.
  intros Hp Hi Hg.
  destruct (kernComputeIndices_total N side gridMin inv pos indices gridIndices)
    as [[a b] Hrun]; [done .. |].
  exists a, b. split; [done |].
  apply kernComputeIndices_spec in Hrun as (_ & _ & Hin & _).
  intros i Hi'. destruct (Hin i Hi') as (p & Hrp & Hra & Hrb).
  eexists p, _, _, _. split; [done |]. do 3 (split; [reflexivity |]).
  split; [done |]. split; [done |]. split.
  - apply gridIndex3Dto1D_inside.
  - apply gridIndex3Dto1D_outside.
Qed.
End Indexer.

Lemma indexer_encodes_cells_witness :
  ∃ ParticleIndex GridIndex,
    kernComputeIndices 2 22 (v32 (-110) (-110) (-110)) (Flit 1 10)
      [v32 8 1 1; v32 (-120) 0 0] [7; 7] [7; 7] = Some (ParticleIndex, GridIndex) ∧
    ParticleIndex = [0; 1] ∧ GridIndex = [5577; -1].
Proof.
  destruct (indexer_encodes_cells 2 22 (v32 (-110) (-110) (-110)) (Flit 1 10)
              [v32 8 1 1; v32 (-120) 0 0] [7; 7] [7; 7])
    as (a & b & Hrun & _); [simpl; lia .. |].
  exists a, b. split; [exact Hrun |].
  vm_compute in Hrun. injection Hrun as <- <-. done.
Defined.

(** ** The scanning loops never run out of fuel *)

Lemma whileUp_fuel (g : list Z) (fuel fuel' : nat) (i : Z) :
  0 <= i →
  (length g <= Z.to_nat i + fuel)%nat → (length g <= Z.to_nat i + fuel')%nat →
  whileUp g fuel i = whileUp g fuel' i.
Proof.
  revert fuel' i. induction fuel as [| fuel IH]; intros fuel' i Hi Hf Hf'.
  - destruct fuel'; simpl; rewrite (rd_None_out g i) by lia; done.
  - destruct fuel' as [| fuel'].
    + simpl. rewrite (rd_None_out g i) by lia. done.
    + simpl. destruct (rd g i) as [a |]; [| done]. simpl.
      destruct (rd g (i + 1)) as [b |]; [| done]. simpl.
      destruct (a =? b); [| done]. apply IH; lia.
Qed.

Lemma whileDown_fuel (g : list Z) (fuel fuel' : nat) (k : Z) :
  (Z.to_nat k <= fuel)%nat → (Z.to_nat k <= fuel')%nat →
  whileDown g fuel k = whileDown g fuel' k.
Proof.
  revert fuel' k. induction fuel as [| fuel IH]; intros fuel' k Hf Hf'.
  - destruct fuel'; simpl; rewrite (rd_None_out g (k - 1)) by lia; done.
  - destruct fuel' as [| fuel'].
    + simpl. rewrite (rd_None_out g (k - 1)) by lia. done.
    + simpl. destruct (rd g (k - 1)) as [a |]; [| done]. simpl.
      destruct (rd g k) as [b |]; [| done]. simpl.
      destruct (a =? b); [| done]. apply IH; lia.
Qed.

(** ** The cell range table *)

(** What the scanning loops return: the last position of the run of equal
    keys they start in, in their direction. *)
Lemma whileUp_Some (g : list Z) (fuel : nat) (i p : Z) :
  whileUp g fuel i = Some p →
  i <= p ∧
  ∃ a b, rd g p = Some a ∧ rd g (p + 1) = Some b ∧ a ≠ b ∧
         ∀ j, i <= j <= p → rd g j = Some a.
Proof.
  revert i. induction fuel as [| fuel IH]; intros i Hrun; simpl in Hrun.
  - destruct (rd g i) as [a |] eqn:Ha; [| done]. simpl in Hrun.
    destruct (rd g (i + 1)) as [b |] eqn:Hb; [| done]. simpl in Hrun.
    destruct (Z.eqb_spec a b) as [-> | Hne]; [done |]. injection Hrun as <-.
    split; [lia |]. exists a, b. repeat split; try done.
    intros j Hj. by replace j with i by lia.
  - destruct (rd g i) as [a |] eqn:Ha; [| done]. simpl in Hrun.
    destruct (rd g (i + 1)) as [b |] eqn:Hb; [| done]. simpl in Hrun.
    destruct (Z.eqb_spec a b) as [-> | Hne].
    + destruct (IH _ Hrun) as (Hle & a' & b' & Hp & Hp1 & Hne & Hall).
      split; [lia |]. exists a', b'. repeat split; try done.
      intros j Hj. destruct (decide (j = i)) as [-> | Hji]; [| apply Hall; lia].
      rewrite Ha. rewrite <- (Hall (i + 1)) by lia. done.
    + injection Hrun as <-. split; [lia |]. exists a, b. repeat split; try done.
      intros j Hj. by replace j with i by lia.
Qed.

Lemma whileDown_Some (g : list Z) (fuel : nat) (k q : Z) :
  whileDown g fuel k = Some q →
  q <= k ∧
  ∃ a b, rd g (q - 1) = Some a ∧ rd g q = Some b ∧ a ≠ b ∧
         ∀ j, q <= j <= k → rd g j = Some b.
Proof.
  revert k. induction fuel as [| fuel IH]; intros k Hrun; simpl in Hrun.
  - destruct (rd g (k - 1)) as [a |] eqn:Ha; [| done]. simpl in Hrun.
    destruct (rd g k) as [b |] eqn:Hb; [| done]. simpl in Hrun.
    destruct (Z.eqb_spec a b) as [-> | Hne]; [done |]. injection Hrun as <-.
    split; [lia |]. exists a, b. repeat split; try done.
    intros j Hj. by replace j with k by lia.
  - destruct (rd g (k - 1)) as [a |] eqn:Ha; [| done]. simpl in Hrun.
    destruct (rd g k) as [b |] eqn:Hb; [| done]. simpl in Hrun.
    destruct (Z.eqb_spec a b) as [-> | Hne].
    + destruct (IH _ Hrun) as (Hle & a' & b' & Hp & Hp1 & Hne & Hall).
      split; [lia |]. exists a', b'. repeat split; try done.
      intros j Hj. destruct (decide (j = k)) as [-> | Hjk]; [| apply Hall; lia].
      rewrite Hb. rewrite <- (Hall (k - 1)) by lia. done.
    + injection Hrun as <-. split; [lia |]. exists a, b. repeat split; try done.
      intros j Hj. by replace j with k by lia.
Qed.

(** The defect in general.  A thread whose key equals the key to its right
    and that returns stores an end position that holds a different key; a
    thread whose key equals the key to its left stores such a start
    position.  Neither is a position "sharing GridIndex[i]". *)
Lemma identifyCellStartEnd_end_outside_run (N index c : Z)
    (g starts ends starts' ends' : list Z) :
  identifyCellStartEnd N g index (starts, ends) = Some (starts', ends') →
  (index = 0 ∨ index ≠ N - 1) →
  rd g index = Some c → rd g (index + 1) = Some c →
  ∃ e c', rd ends' index = Some e ∧ index < e ∧ rd g e = Some c' ∧ c' ≠ c.
Proof.
  intros Hrun Hidx Hc Hc1.
  assert (∀ ends0 ends1,
            (p ← whileUp g (length g) index; wr ends0 index (p + 1)) = Some ends1 →
            ∃ e c', rd ends1 index = Some e ∧ index < e ∧ rd g e = Some c' ∧ c' ≠ c)
    as Hscan.
  { intros ends0 ends1 Hs. apply bind_Some in Hs as (p & Hp & Hw).
    apply whileUp_Some in Hp as (Hle & a & b & Ha & Hb & Hne & Hall).
    exists (p + 1), b. split; [by eapply rd_wr_eq |]. split; [lia |].
    split; [done |]. rewrite (Hall index) in Hc by lia. congruence. }
  unfold identifyCellStartEnd in Hrun. cbv zeta in Hrun.
  destruct (index =? 0) eqn:H0.
  - apply bind_Some in Hrun as (starts1 & _ & Hrun).
    rewrite Hc, Hc1 in Hrun. simpl in Hrun. rewrite Z.eqb_refl in Hrun.
    simpl in Hrun.
    apply bind_Some in Hrun as (p & Hp & Hrun).
    apply bind_Some in Hrun as (ends1 & Hw & [= _ <-]).
    apply (Hscan ends ends1). by rewrite Hp.
  - destruct (Z.eqb_spec index (N - 1)) as [HN | _].
    { destruct Hidx as [-> | Hne]; [done | by destruct Hne]. }
    apply bind_Some in Hrun as (a & _ & Hrun).
    apply bind_Some in Hrun as (b & _ & Hrun).
    apply bind_Some in Hrun as (starts1 & _ & Hrun).
    rewrite Hc, Hc1 in Hrun. simpl in Hrun. rewrite Z.eqb_refl in Hrun.
    simpl in Hrun.
    apply bind_Some in Hrun as (ends1 & Hs & [= _ <-]).
    by apply (Hscan ends ends1).
Qed.

Lemma identifyCellStartEnd_start_outside_run (N index c : Z)
    (g starts ends starts' ends' : list Z) :
  identifyCellStartEnd N g index (starts, ends) = Some (starts', ends') →
  index ≠ 0 →
  rd g (index - 1) = Some c → rd g index = Some c →
  ∃ b c', rd starts' index = Some b ∧ b < index ∧ rd g b = Some c' ∧ c' ≠ c.
Proof.
  intros Hrun Hidx Hc1 Hc.
  assert (∀ starts0 starts1,
            (k ← whileDown g (length g) index; wr starts0 index (k - 1))
              = Some starts1 →
            ∃ b c', rd starts1 index = Some b ∧ b < index ∧ rd g b = Some c' ∧ c' ≠ c)
    as Hscan.
  { intros starts0 starts1 Hs. apply bind_Some in Hs as (q & Hq & Hw).
    apply whileDown_Some in Hq as (Hle & a & b & Ha & Hb & Hne & Hall).
    exists (q - 1), a. split; [by eapply rd_wr_eq |]. split; [lia |].
    split; [done |]. rewrite (Hall index) in Hc by lia. congruence. }
  unfold identifyCellStartEnd in Hrun. cbv zeta in Hrun.
  destruct (Z.eqb_spec index 0) as [-> | _]; [done |].
  destruct (index =? N - 1).
  - apply bind_Some in Hrun as (ends1 & _ & Hrun).
    rewrite Hc, Hc1 in Hrun. simpl in Hrun. rewrite Z.eqb_refl in Hrun.
    simpl in Hrun.
    apply bind_Some in Hrun as (q & Hq & Hrun).
    apply bind_Some in Hrun as (starts1 & Hw & [= <- _]).
    apply (Hscan starts starts1). by rewrite Hq.
  - rewrite Hc, Hc1 in Hrun. simpl in Hrun. rewrite Z.eqb_refl in Hrun.
    simpl in Hrun.
    apply bind_Some in Hrun as (starts1 & Hs & Hrun).
    apply bind_Some in Hrun as (b & _ & Hrun).
    apply bind_Some in Hrun as (ends1 & _ & [= <- _]).
    by apply (Hscan starts starts1).
Qed.

(** A thread whose key differs from the keys next to it stores its own
    position as start and as end, as the claim has it. *)
Lemma identifyCellStartEnd_alone (N index c : Z) (g starts ends : list Z) :
  0 <= index < Z.of_nat (length starts) →
  index < Z.of_nat (length ends) →
  rd g index = Some c →
  (index ≠ 0 → ∃ a, rd g (index - 1) = Some a ∧ a ≠ c) →
  (index = 0 ∨ index ≠ N - 1 → ∃ b, rd g (index + 1) = Some b ∧ b ≠ c) →
  identifyCellStartEnd N g index (starts, ends)
  = Some (<[Z.to_nat index := index]> starts, <[Z.to_nat index := index]> ends).
Proof.
  intros Hs He Hc Hleft Hright. unfold identifyCellStartEnd. cbv zeta.
  destruct (Z.eqb_spec index 0) as [H0 | H0].
  - destruct Hright as (b & Hb & Hne); [by left |].
    rewrite wr_in_bounds by lia. simpl. rewrite Hc, Hb. simpl.
    rewrite (proj2 (Z.eqb_neq c b)) by done. simpl.
    rewrite wr_in_bounds by lia. done.
  - destruct (Hleft H0) as (a & Ha & Hna).
    destruct (Z.eqb_spec index (N - 1)) as [HN | HN].
    + rewrite wr_in_bounds by lia. simpl. rewrite Ha, Hc. simpl.
      rewrite (proj2 (Z.eqb_neq a c)) by done. simpl.
      rewrite wr_in_bounds by lia. done.
    + destruct Hright as (b & Hb & Hnb); [by right |].
      rewrite Ha, Hc. simpl. rewrite (proj2 (Z.eqb_neq a c)) by done. simpl.
      rewrite wr_in_bounds by lia. simpl. rewrite Hb. simpl.
      rewrite (proj2 (Z.eqb_neq c b)) by done. simpl.
      rewrite wr_in_bounds by lia. done.
Qed.

(** C1 (the code departs from the claim): on the sorted keys [0,0,0,2,2,5]
    the claim gives start [0,0,0,3,3,5] and end [2,2,2,4,4,5]; in
    [kernIdentifyCellStartEnd] thread 0 stores end 3, thread 4 stores start 2
    and thread 1 reads [particleGridIndices[-1]].  On [0,2,2,5], where no
    thread leaves the array, the kernel gives start [0,1,0,3] and end
    [0,3,2,3] for the claimed [0,1,1,3] and [0,2,2,3]. *)
Theorem cell_range_off_by_one :
  cellRangeSpec [0; 0; 0; 2; 2; 5] = Some ([0; 0; 0; 3; 3; 5], [2; 2; 2; 4; 4; 5]) ∧
  identifyCellStartEnd 6 [0; 0; 0; 2; 2; 5] 0 (replicate 6 (-9), replicate 6 (-9))
    = Some ([0; -9; -9; -9; -9; -9], [3; -9; -9; -9; -9; -9]) ∧
  identifyCellStartEnd 6 [0; 0; 0; 2; 2; 5] 4 (replicate 6 (-9), replicate 6 (-9))
    = Some ([-9; -9; -9; -9; 2; -9], [-9; -9; -9; -9; 4; -9]) ∧
  identifyCellStartEnd 6 [0; 0; 0; 2; 2; 5] 1 (replicate 6 (-9), replicate 6 (-9))
    = None ∧
  kernIdentifyCellStartEnd 6 [0; 0; 0; 2; 2; 5] (replicate 6 (-9)) (replicate 6 (-9))
    = None ∧
  cellRangeSpec [0; 2; 2; 5] = Some ([0; 1; 1; 3], [0; 2; 2; 3]) ∧
  kernIdentifyCellStartEnd 4 [0; 2; 2; 5] (replicate 4 (-9)) (replicate 4 (-9))
    = Some ([0; 1; 0; 3], [0; 3; 2; 3]).
Proof. repeat apply conj; vm_compute; reflexivity. Qed.

(** ** The cell head lookup *)

(** C4 (the code departs from the claim): for the sorted cell ids
    [507, 5577, 5577, 5578] of [fourBoids] the first offset of cell 5577
    is 1.  The two threads of that cell write different start values, 1 and
    0, so the entry of the lookup is 0 when thread 2 writes last and 1 when
    thread 1 writes last. *)
Theorem cell_head_depends_on_write_order :
  kernIdentifyCellStartEnd 4 fourKeys (replicate 4 0) (replicate 4 0)
    = Some (fourStarts, fourEnds) ∧
  firstOffset fourKeys 5577 = Some 1 ∧
  rd fourStarts 1 = Some 1 ∧ rd fourStarts 2 = Some 0 ∧
  renewGridCellIndex [0; 1; 2; 3] 4 fourStarts (replicate (Z.to_nat 10648) (-1))
    fourKeys = Some (fourLookup 0) ∧
  renewGridCellIndex [0; 2; 1; 3] 4 fourStarts (replicate (Z.to_nat 10648) (-1))
    fourKeys = Some (fourLookup 1) ∧
  rd (fourLookup 0) 5577 = Some 0 ∧
  rd (fourLookup 1) 5577 = Some 1.
Proof. repeat apply conj; vm_compute; reflexivity. Qed.

(** ** The reset of the lookup *)

Lemma InitializeGridCellIndex_reset (gridCellIndex : list Z) (gridSideCount : Z) :
  Z.of_nat (length gridCellIndex) = gridSideCount * gridSideCount * gridSideCount →
  InitializeGridCellIndex gridCellIndex gridSideCount
  = Some (replicate (length gridCellIndex) (-1)).
Proof.
  intros Hlen. unfold InitializeGridCellIndex.
  set (M := gridSideCount * gridSideCount * gridSideCount) in *.
  rewrite (forM_ext _ _ (λ i a, v ← (λ _ : Z, Some (-1)) i; wr a i v))
    by (intros; done).
  destruct (forM_own_slot_total (λ _ : Z, Some (-1)) M gridCellIndex) as [a Ha];
    [by eexists | lia |].
  rewrite Ha. f_equal.
  apply forM_own_slot in Ha as (Hla & Hin & _).
  apply list_eq. intros i.
  destruct (decide (i < length gridCellIndex)%nat) as [Hlt | Hge].
  - rewrite lookup_replicate_2 by done. rewrite <- rd_nat.
    destruct (Hin (Z.of_nat i)) as (v & [= <-] & Hr); [lia | done].
  - rewrite !(proj2 (lookup_ge_None _ _)); [done | |]; rewrite ?length_replicate; lia.
Qed.

Lemma buildGrid_reset {F : Type} `{FloatOps F} (sched : list Z) (s : Sim F) :
  Z.of_nat (length (contents (gridCellIndex s)))
    = gridSideCount s * gridSideCount s * gridSideCount s →
  buildGrid sched s =
  ('(boidIndex, gridCellnumber) ←
     kernComputeIndices (numObjects s) (gridSideCount s) (gridMinimum s)
       (gridInverseCellWidth s) (contents (dev_pos s))
       (contents (devBoidIndex s)) (contents (devGridCellnumber s));
   '(gridCellnumber, boidIndex) ←
     sort_by_key (numObjects s) gridCellnumber boidIndex;
   '(starts, ends) ←
     kernIdentifyCellStartEnd (numObjects s) gridCellnumber
       (contents (dev_gridCellStartIndices s)) (contents (dev_gridCellEndIndices s));
   lookup ← renewGridCellIndex sched (numObjects s) starts
              (replicate (length (contents (gridCellIndex s))) (-1)) gridCellnumber;
   Some (boidIndex, gridCellnumber, starts, ends, lookup)).
Proof.
  intros Hlen. unfold buildGrid. cbv zeta.
  rewrite (InitializeGridCellIndex_reset _ _ Hlen).
  by destruct (kernComputeIndices _ _ _ _ _ _ _) as [[a b] |].
Qed.

Lemma run_bind_congr {A B : Type} (m m' : option A) (k : A → option B)
    (r : outcome B) :
  m = m' → run (m' ≫= k) = r → run (m ≫= k) = r.
Proof. by intros ->. Qed.

Lemma fourBoids_lookup_size :
  Z.of_nat (length (contents (gridCellIndex fourBoids)))
    = gridSideCount fourBoids * gridSideCount fourBoids * gridSideCount fourBoids.
Proof. vm_compute. reflexivity. Qed.

Lemma twoBoids_lookup_size :
  Z.of_nat (length (contents (gridCellIndex twoBoids)))
    = gridSideCount twoBoids * gridSideCount twoBoids * gridSideCount twoBoids.
Proof. vm_compute. reflexivity. Qed.

(** ** Brute force against the scattered grid *)

(** C2 (the code departs from the claim): one step from [fourBoids].  The
    boid 1 has two neighbours within the rule distances, the boids 2 and 3.
    The brute-force step gives it the velocity x = -0.08; the scattered-grid
    step gives x = -0.0767, because the range of its cell ends one slot too
    far and the boid 3 is counted there and again in its own cell.  The
    lookup entry of boid 1's own cell is never read for it, so the result
    is the same for every order of the writes of [renewGridCellIndex]. *)
Theorem scattered_grid_counts_a_neighbour_twice :
  ∃ (sN sS : Sim spec_float) (vN vS : vec3 spec_float),
    stepSimulationNaive (f32 1) fourBoids = Done sN ∧
    stepSimulationScatteredGrid [0; 1; 2; 3] (f32 1) fourBoids = Done sS ∧
    rd (contents (dev_vel2 sN)) 1 = Some vN ∧
    rd (contents (dev_vel2 sS)) 1 = Some vS ∧
    vx vN = S754_finite true 10737418 (-27) ∧
    vx vS = S754_finite true 10290026 (-27) ∧
    Fltb (Flit 3 1000) (SFabs (Fsub (vx vS) (vx vN))) = true ∧
    contents (devGridCellnumber sS) = fourKeys ∧
    contents (devBoidIndex sS) = [0; 1; 2; 3] ∧
    contents (dev_gridCellStartIndices sS) = fourStarts ∧
    contents (dev_gridCellEndIndices sS) = fourEnds ∧
    contents (gridCellIndex sS) = fourLookup 0 ∧
    (∀ head : Z,
       clampSpeed <$>
         newUpdateVelocity 4 1 1 (contents (dev_pos fourBoids))
           (contents (dev_vel1 fourBoids)) [0; 1; 2; 3] fourKeys fourStarts fourEnds
           (fourLookup head) 22 10 = Some vS).
Proof.
  eexists _, _, _, _.
  split; [vm_compute; reflexivity |].
  split.
  { unfold stepSimulationScatteredGrid. cbv zeta.
    refine (run_bind_congr _ _ _ _
              (buildGrid_reset [0; 1; 2; 3] fourBoids fourBoids_lookup_size) _).
    vm_compute. reflexivity. }
  split; [vm_compute; reflexivity |].
  split; [vm_compute; reflexivity |].
  repeat apply conj; vm_compute; reflexivity.
Qed.

(** The same with the two boids of cell 5577 sorted the other way round
    (the sort need not be stable): then it is boid 2 that sits in slot 1 and
    counts boid 3 twice, x = -0.29 for the -0.095 of the brute-force step. *)
Lemma scattered_grid_other_tie_order :
  vx <$> (kernUpdateVelocityBruteForce 4 (contents (dev_pos fourBoids))
            (contents (dev_vel1 fourBoids)) (contents (dev_vel2 fourBoids))
          ≫= λ vel2, rd vel2 2)
    = Some (S754_finite true 12750684 (-27)) ∧
  ∀ head : Z,
    vx <$> (clampSpeed <$>
      newUpdateVelocity 4 1 2 (contents (dev_pos fourBoids))
        (contents (dev_vel1 fourBoids)) [0; 2; 1; 3] fourKeys fourStarts fourEnds
        (fourLookup head) 22 10)
    = Some (S754_finite true 9730786 (-25)).
Proof. split; [| intros head]; vm_compute; reflexivity. Qed.

(** ** Teardown *)

Lemma threads_pos (N : Z) : 0 < N → ∃ l, threads N = 0 :: l.
Proof.
  intros HN. unfold threads, zrange.
  replace (N - 1 - 0 + 1) with N by lia.
  destruct (Z.to_nat N) as [| n] eqn:Hn; [lia |]. simpl. by eexists.
Qed.

Lemma step_never_exits {F : Type} `{FloatOps F} (st : strategy) (sched : list Z)
    (dt : F) (s : Sim F) (line : Z) (msg : string) :
  step st sched dt s ≠ Exited line msg.
Proof.
  destruct st; simpl;
    [unfold stepSimulationNaive | unfold stepSimulationScatteredGrid
     | unfold stepSimulationCoherentGrid];
    cbv zeta; by match goal with |- run ?m ≠ _ => destruct m end.
Qed.

(** C8, as the code has it: [endSimulation] releases the eight buffers and
    keeps no record of it, and no step function checks anything; a step
    called after teardown on one particle or more launches its first kernel
    on released memory, which is undefined behaviour.  No step function ever
    ends through [checkCUDAError], in any state. *)
Theorem step_after_teardown_is_undefined {F : Type} `{FloatOps F}
    (st : strategy) (sched : list Z) (dt : F) (s : Sim F) :
  0 < numObjects s →
  step st sched dt (endSimulation s) = Undefined ∧
  (∀ (s0 : Sim F) (line : Z) (msg : string),
     step st sched dt s0 ≠ Exited line msg).
Proof.
  intros HN. split; [| intros s0 line msg; apply step_never_exits].
  destruct (threads_pos _ HN) as [l Hl].
  destruct st; simpl.
  - unfold stepSimulationNaive, kernUpdateVelocityBruteForce. simpl.
    rewrite Hl. simpl. unfold computeVelocityChange.
    by destruct (0 >=? numObjects s).
  - unfold stepSimulationScatteredGrid, buildGrid, kernComputeIndices. simpl.
    rewrite Hl. done.
  - unfold stepSimulationCoherentGrid, buildGrid, kernComputeIndices. simpl.
    rewrite Hl. done.
Qed.

Lemma step_after_teardown_is_undefined_witness :
  0 < numObjects twoBoids ∧
  step Naive [] (f32 1) (endSimulation twoBoids) = Undefined ∧
  step Scattered [0; 1] (f32 1) (endSimulation twoBoids) = Undefined ∧
  step Coherent [0; 1] (f32 1) (endSimulation twoBoids) = Undefined.
Proof.
  split; [done |].
  split; [apply (step_after_teardown_is_undefined Naive [] (f32 1) twoBoids); done |].
  split; [apply (step_after_teardown_is_undefined Scattered [0; 1] (f32 1) twoBoids);
          done |].
  apply (step_after_teardown_is_undefined Coherent [0; 1] (f32 1) twoBoids); done.
Defined.

(** C8 as claimed fails: the step after teardown does not end in the
    diagnosed exit of [checkCUDAError]. *)
Lemma step_after_teardown_not_rejected :
  ¬ ∃ (line : Z) (msg : string),
      stepSimulationNaive (f32 1) (endSimulation twoBoids) = Exited line msg.
Proof. intros (line & msg & Hstep). vm_compute in Hstep. discriminate Hstep. Qed.

(** ** The grid of [initSimulation], over the reals *)

Lemma gridCellWidth_ideal :
  Fmul (Flit 2 1) (std_max (std_max rule1Distance rule2Distance) rule3Distance)
  = 10%R :> R.
Proof.
  unfold std_max, rule1Distance, rule2Distance, rule3Distance. ideal_ops.
  rewrite (proj2 (Rltb_false (5 / 1) (3 / 1))) by lra.
  rewrite (proj2 (Rltb_false (5 / 1) (5 / 1))) by lra. lra.
Qed.

Lemma halfSideCount_ideal : Ftrunc (Fdiv scene_scale 10%R) + 1 = 11.
Proof.
  rewrite scene_scale_ideal. ideal_ops. unfold Rtrunc.
  destruct (Rlt_dec (100 / 10) 0) as [Hneg | _]; [lra |].
  rewrite (Zfloor_eq 10); [done |]. simpl. lra.
Qed.

Lemma allocOrExit_Done (avail bytes : Z) (msg : string) (line avail' : Z) :
  allocOrExit avail bytes msg line = Done avail' → avail' = avail - bytes.
Proof.
  unfold allocOrExit, cudaMalloc. destruct (bytes <=? avail); simpl; congruence.
Qed.

Lemma Done_inj {A : Type} (a b : A) : Done a = Done b → a = b.
Proof. by intros [= ->]. Qed.

Lemma initSimulation_grid (rng : R → Z → vec3 R) (junkV : vec3 R) (junkI : Z)
    (avail N : Z) (s : Sim R) :
  initSimulation rng junkV junkI avail N = Done s →
  gridSideCount s = 22 ∧ gridCellCount s = 10648 ∧
  gridCellWidth s = 10%R ∧ gridInverseCellWidth s = (1 / 10)%R ∧
  gridMinimum s = Vec3 (-110)%R (-110)%R (-110)%R ∧
  length (contents (gridCellIndex s)) = Z.to_nat 10648.
Proof.
  unfold initSimulation. rewrite gridCellWidth_ideal, halfSideCount_ideal.
  intros Hinit.
  repeat (apply obind_Done in Hinit as (? & ? & Hinit)).
  apply Done_inj in Hinit. subst s.
  lazy beta iota delta [gridSideCount gridCellCount gridCellWidth
    gridInverseCellWidth gridMinimum gridCellIndex contents].
  split; [done |]. split; [done |]. split; [done |].
  split; [ideal_ops; lra |]. split; [ideal_ops; f_equal; lra |].
  rewrite length_replicate. done.
Qed.

Lemma cellCoord_ideal_bounds (c : R) :
  (-100 <= c <= 100)%R → 1 <= cellCoord (-110)%R (1 / 10)%R c <= 21.
Proof.
  intros Hc. unfold cellCoord. ideal_ops.
  set (x := ((c - -110) * (1 / 10))%R).
  assert (1 <= x <= 21)%R as Hx by (unfold x; lra).
  split.
  - apply Zfloor_lub. simpl. lra.
  - apply le_IZR. pose proof (Zfloor_bound x) as [Hlo _]. simpl in *. lra.
Qed.

Lemma gridIndex_ideal_in_range (p : vec3 R) :
  inDomain p →
  inGrid (cellCoord (-110)%R (1 / 10)%R (vx p)) (cellCoord (-110)%R (1 / 10)%R (vy p))
         (cellCoord (-110)%R (1 / 10)%R (vz p)) 22 ∧
  0 <= gridIndex3Dto1D (cellCoord (-110)%R (1 / 10)%R (vx p))
         (cellCoord (-110)%R (1 / 10)%R (vy p))
         (cellCoord (-110)%R (1 / 10)%R (vz p)) 22 < 10648.
Proof.
  unfold inDomain. rewrite scene_scale_ideal. intros (Hx & Hy & Hz).
  apply cellCoord_ideal_bounds in Hx, Hy, Hz.
  assert (inGrid (cellCoord (-110)%R (1 / 10)%R (vx p))
            (cellCoord (-110)%R (1 / 10)%R (vy p))
            (cellCoord (-110)%R (1 / 10)%R (vz p)) 22) as Hin
    by (unfold inGrid; lia).
  split; [done |]. rewrite (gridIndex3Dto1D_inside _ _ _ _ Hin).
  unfold encode1D. lia.
Qed.

(** ** Sorting *)

Lemma insert_by_key_perm (kv : Z * Z) (l : list (Z * Z)) :
  insert_by_key kv l ≡ₚ kv :: l.
Proof.
  induction l as [| kv' l IH]; [done |]. simpl.
  destruct (kv.1 <=? kv'.1); [done |]. rewrite IH. apply Permutation_swap.
Qed.

Lemma sort_pairs_perm (l : list (Z * Z)) : sort_pairs l ≡ₚ l.
Proof.
  induction l as [| kv l IH]; [done |]. simpl.
  rewrite insert_by_key_perm. by rewrite IH.
Qed.

Lemma sort_by_key_perm (N : Z) (keys values keys' values' : list Z) :
  sort_by_key N keys values = Some (keys', values') →
  length keys' = length keys ∧ length values' = length values ∧
  take (Z.to_nat N) keys' ≡ₚ take (Z.to_nat N) keys ∧
  take (Z.to_nat N) values' ≡ₚ take (Z.to_nat N) values.
Proof.
  unfold sort_by_key.
  destruct (Z.ltb_spec (Z.of_nat (length keys)) N); [done |].
  destruct (Z.ltb_spec (Z.of_nat (length values)) N); [done |].
  simpl. intros [= <- <-].
  set (n := Z.to_nat N).
  set (s := sort_pairs (zip (take n keys) (take n values))).
  assert (s ≡ₚ zip (take n keys) (take n values)) as Hs by apply sort_pairs_perm.
  assert (length (take n keys) = length (take n values)) as Hlen.
  { rewrite !length_take. destruct (decide (N < 0)); lia. }
  assert (s.*1 ≡ₚ take n keys) as H1.
  { rewrite Hs. rewrite fst_zip; [done | lia]. }
  assert (s.*2 ≡ₚ take n values) as H2.
  { rewrite Hs. rewrite snd_zip; [done | lia]. }
  assert (length (s.*1) = n) as Hl1.
  { rewrite H1, length_take. destruct (decide (N < 0)); lia. }
  assert (length (s.*2) = n) as Hl2.
  { rewrite H2, length_take. destruct (decide (N < 0)); lia. }
  repeat split.
  - rewrite length_app, Hl1, length_drop. destruct (decide (N < 0)); lia.
  - rewrite length_app, Hl2, length_drop. destruct (decide (N < 0)); lia.
  - by rewrite take_app_length' by done.
  - by rewrite take_app_length' by done.
Qed.

Lemma rd_elem_of_take {A : Type} (a : list A) (N i : Z) (x : A) :
  0 <= i < N → rd a i = Some x → x ∈ take (Z.to_nat N) a.
Proof.
  intros Hi Hx. rewrite rd_lookup in Hx by lia.
  apply list_elem_of_lookup. exists (Z.to_nat i).
  rewrite lookup_take_lt by lia. done.
Qed.

Lemma elem_of_take_rd {A : Type} (a : list A) (N : Z) (x : A) :
  x ∈ take (Z.to_nat N) a → ∃ i, 0 <= i < N ∧ rd a i = Some x.
Proof.
  intros (k & Hk)%list_elem_of_lookup.
  apply lookup_take_Some in Hk as [Hk Hlt].
  exists (Z.of_nat k). split; [lia |]. by rewrite rd_nat.
Qed.

Lemma renewGridCellIndex_total (sched : list Z) (N : Z)
    (starts lookup keys : list Z) :
  (∀ i, i ∈ sched → 0 <= i) →
  (∀ i, 0 <= i < N → is_Some (rd starts i)) →
  (∀ i, 0 <= i < N →
     ∃ c, rd keys i = Some c ∧ 0 <= c < Z.of_nat (length lookup)) →
  is_Some (renewGridCellIndex sched N starts lookup keys).
Proof.
  intros Hsched Hstarts Hkeys. unfold renewGridCellIndex.
  revert lookup Hkeys. induction sched as [| i sched IH]; intros lookup Hkeys;
    [by eexists |].
  simpl. destruct (Z.geb_spec i N) as [Hge | Hlt].
  - simpl. apply IH; [| done]. intros k Hk. apply Hsched. by right.
  - assert (0 <= i < N) as Hi by (split; [apply Hsched; by left | done]).
    destruct (Hkeys i Hi) as (c & -> & Hc). simpl.
    destruct (Hstarts i Hi) as [st ->]. simpl.
    rewrite wr_in_bounds by done. simpl.
    apply IH; [intros k Hk; apply Hsched; by right |].
    intros k Hk. rewrite length_insert. by apply Hkeys.
Qed.

(** C9: over the reals, with the grid [initSimulation] derives (22 cells a
    side, minimum corner -110, inverse cell width 1/10), a position in
    [-100, 100]^3 has its three cell coordinates in [0, 22); the indexer
    then stores a cell id in [0, 10648), never the sentinel -1, the sort
    keeps it so, and [renewGridCellIndex] writes the lookup at those ids
    only and does not leave it. *)
Theorem sentinel_never_stored
    (rng : R → Z → vec3 R) (junkV : vec3 R) (junkI avail N0 : Z) (s0 : Sim R)
    (N : Z) (pos : list (vec3 R))
    (indices gridIndices indices' gridIndices' keys values : list Z) :
  initSimulation rng junkV junkI avail N0 = Done s0 →
  (∀ i p, rd pos i = Some p → inDomain p) →
  kernComputeIndices N (gridSideCount s0) (gridMinimum s0)
    (gridInverseCellWidth s0) pos indices gridIndices
    = Some (indices', gridIndices') →
  sort_by_key N gridIndices' indices' = Some (keys, values) →
  (∀ i, 0 <= i < N →
     (∃ p, rd pos i = Some p ∧
        inGrid (cellCoord (vx (gridMinimum s0)) (gridInverseCellWidth s0) (vx p))
               (cellCoord (vy (gridMinimum s0)) (gridInverseCellWidth s0) (vy p))
               (cellCoord (vz (gridMinimum s0)) (gridInverseCellWidth s0) (vz p))
               (gridSideCount s0)) ∧
     (∃ c, rd gridIndices' i = Some c ∧ 0 <= c < gridCellCount s0) ∧
     (∃ c, rd keys i = Some c ∧ 0 <= c < gridCellCount s0)) ∧
  (∀ sched starts lookup,
     (∀ i, i ∈ sched → 0 <= i) →
     (∀ i, 0 <= i < N → is_Some (rd starts i)) →
     Z.of_nat (length lookup) = gridCellCount s0 →
     is_Some (renewGridCellIndex sched N starts lookup keys)).
Proof.
  intros (Hside & Hcount & _ & Hinv & Hmin & _)%initSimulation_grid Hdom Hidx Hsort.
  rewrite Hside, Hcount, Hinv, Hmin in *. cbn [vx vy vz] in *.
  apply kernComputeIndices_spec in Hidx as (_ & Hlen & Hin & _).
  apply sort_by_key_perm in Hsort as (Hlk & _ & Hperm & _).
  assert (∀ i, 0 <= i < N → ∃ c, rd gridIndices' i = Some c ∧ 0 <= c < 10648)
    as Hcells.
  { intros i Hi. destruct (Hin i Hi) as (p & Hp & _ & Hg).
    eexists. split; [exact Hg |].
    by apply gridIndex_ideal_in_range, (Hdom i). }
  assert (∀ i, 0 <= i < N → ∃ c, rd keys i = Some c ∧ 0 <= c < 10648) as Hkeys.
  { intros i Hi.
    destruct (rd_is_Some keys i) as [c Hc].
    { destruct (Hcells i Hi) as (c & Hc%rd_Some_bound & _). lia. }
    exists c. split; [done |].
    apply (rd_elem_of_take _ N) in Hc; [| done].
    rewrite Hperm in Hc. apply elem_of_take_rd in Hc as (j & Hj & Hrj).
    destruct (Hcells j Hj) as (c' & Hc' & Hrange). congruence. }
  split.
  - intros i Hi. split; [| split; [by apply Hcells | by apply Hkeys]].
    destruct (Hin i Hi) as (p & Hp & _). exists p. split; [done |].
    by apply gridIndex_ideal_in_range, (Hdom i).
  - intros sched starts lookup Hsched Hstarts Hlookup.
    apply renewGridCellIndex_total; [done .. |].
    intros i Hi. destruct (Hkeys i Hi) as (c & Hc & Hrange).
    exists c. split; [done | lia].
Qed.

Lemma sentinel_never_stored_witness :
  ∃ (s0 : Sim R) (indices' gridIndices' keys values : list Z) (c : Z),
    initSimulation (λ _ _, Vec3 0%R 0%R 0%R) (Vec3 0%R 0%R 0%R) 0 1000000 1
      = Done s0 ∧
    kernComputeIndices 1 (gridSideCount s0) (gridMinimum s0)
      (gridInverseCellWidth s0) [Vec3 0%R 0%R 0%R] [0] [0]
      = Some (indices', gridIndices') ∧
    sort_by_key 1 gridIndices' indices' = Some (keys, values) ∧
    rd keys 0 = Some c ∧ 0 <= c < gridCellCount s0.
Proof.
  do 6 eexists.
  split.
  { unfold initSimulation. rewrite gridCellWidth_ideal, halfSideCount_ideal.
    reflexivity. }
  split; [reflexivity |]. split; [reflexivity |].
  edestruct (sentinel_never_stored (λ _ _, Vec3 0%R 0%R 0%R) (Vec3 0%R 0%R 0%R)
               0 1000000 1)
    with (N := 1) (pos := [Vec3 0%R 0%R 0%R]) (indices := [0]) (gridIndices := [0])
    as [Hcells _].
  - unfold initSimulation. rewrite gridCellWidth_ideal, halfSideCount_ideal.
    reflexivity.
  - intros i p Hp. pose proof (rd_Some_bound _ _ _ Hp) as Hi. simpl in Hi.
    assert (i = 0) as -> by lia. injection Hp as <-.
    unfold inDomain. rewrite scene_scale_ideal. simpl. lra.
  - reflexivity.
  - reflexivity.
  - destruct (Hcells 0) as (_ & _ & c' & Hc' & Hrange); [lia |].
    injection Hc' as <-. split; [reflexivity | exact Hrange].
Defined.

(** The same at the faces of the domain in single precision: the corners
    (-100,-100,-100) and (100,100,100) fall in the cells (1,1,1) and
    (21,21,21). *)
Example indexer_at_domain_corners_b32 :
  kernComputeIndices 2 22 (v32 (-110) (-110) (-110)) (Flit 1 10)
    [v32 (-100) (-100) (-100); v32 100 100 100] [0; 0] [0; 0]
  = Some ([0; 1], [encode1D 1 1 1 22; encode1D 21 21 21 22]).
Proof. vm_compute. reflexivity. Qed.

(** ** The coherent grid against the scattered grid *)

Lemma contents_store {A : Type} (b : buffer A) (d : list A) :
  length d = length (contents b) → contents (store b d) = d.
Proof.
  destruct b; [done |]. simpl. intros Hd. by destruct d.
Qed.

Lemma threads_lookup (N : Z) (i : nat) :
  threads N !! i = if decide (i < Z.to_nat N)%nat then Some (Z.of_nat i) else None.
Proof.
  unfold threads, zrange. rewrite list_lookup_fmap.
  replace (Z.to_nat (N - 1 - 0 + 1)) with (Z.to_nat N) by lia.
  destruct (decide (i < Z.to_nat N)%nat) as [Hlt | Hge].
  - rewrite lookup_seq_lt by done. simpl. f_equal; lia.
  - rewrite lookup_seq_ge by lia. done.
Qed.

Lemma threads_length (N : Z) : length (threads N) = Z.to_nat N.
Proof.
  unfold threads, zrange. rewrite length_map, length_seq. lia.
Qed.

(** an array of [N] elements that holds [i] at [i] is [threads N] *)
Lemma identity_array (N : Z) (a : list Z) :
  length a = Z.to_nat N → (∀ i, 0 <= i < N → rd a i = Some i) → a = threads N.
Proof.
  intros Hlen Hid. apply list_eq. intros i. rewrite threads_lookup.
  destruct (decide (i < Z.to_nat N)%nat) as [Hlt | Hge].
  - rewrite <- rd_nat. apply Hid. lia.
  - apply lookup_ge_None. lia.
Qed.

Section Coherent.
Context {F : Type} `{FloatOps F}.

(** The sorted particle indices are a rearrangement of [0 .. N-1]. *)
Lemma buildGrid_boidIndex (sched : list Z) (s : Sim F)
    (boidIndex gridCellnumber starts ends lookup : list Z) :
  wellSized s →
  buildGrid sched s = Some (boidIndex, gridCellnumber, starts, ends, lookup) →
  boidIndex ≡ₚ threads (numObjects s).
Proof.
  intros (HN & _ & _ & _ & Hlg & Hlb & _) Hgrid. unfold buildGrid in Hgrid.
  bind_inv Hgrid. injection Hgrid as <- <- <- <- <-.
  match goal with
  | Hk : kernComputeIndices _ _ _ _ _ _ _ = Some (?a, ?g),
    Hs : sort_by_key _ ?g ?a = Some _ |- _ =>
      apply kernComputeIndices_spec in Hk as (Hla & Hlg' & Hin & _);
      apply sort_by_key_perm in Hs as (_ & Hlv & _ & Hperm);
      rewrite <- (identity_array (numObjects s) a)
  end.
  - rewrite !take_ge in Hperm by lia. done.
  - lia.
  - intros i Hi. by destruct (Hin i Hi) as (p & _ & Hr & _).
Qed.

Lemma CoherentUpDateVelocity_refines (N k : Z) (pos vel rpos rvel : list (vec3 F))
    (pai pgi starts ends lookup : list Z) (side width : Z) :
  (∀ i, rd rpos i = (b ← rd pai i; rd pos b)) →
  (∀ i, rd rvel i = (b ← rd pai i; rd vel b)) →
  CoherentUpDateVelocity N k rpos rvel pai pgi starts ends lookup side width =
  (b ← rd pai k;
   newUpdateVelocity N k b pos vel pai pgi starts ends lookup side width).
Proof.
  intros Hp Hv.
  assert (∀ (cur : vec3 F) (l : list Z) (t : tally F),
            forM l (λ n t, testPos ← rd rpos n; testVel ← rd rvel n;
                           Some (applyRules cur testPos testVel t)) t =
            forM l (λ n t, testBoidIndex ← rd pai n;
                           testPos ← rd pos testBoidIndex;
                           testVel ← rd vel testBoidIndex;
                           Some (applyRules cur testPos testVel t)) t) as Hcell.
  { intros cur l t. apply forM_ext. intros n t' _. rewrite Hp, Hv.
    destruct (rd pai n) as [b |]; [| done]. simpl.
    destruct (rd pos b); [| done]. done. }
  unfold CoherentUpDateVelocity, newUpdateVelocity. rewrite Hp, Hv.
  destruct (rd pai k) as [b |]; [| done]. simpl.
  destruct (rd pos b) as [cp |]; [| done]. simpl.
  destruct (rd vel b) as [cv |]; [| done]. simpl.
  destruct (rd pgi k) as [gridIndex |]; [| done]. simpl.
  destruct (idiv gridIndex (side * side)) as [gz |]; [| done]. simpl.
  destruct (idiv (gridIndex - gz * side * side) side) as [gy |]; [| done]. simpl.
  destruct (rd starts k) as [startIndex |]; [| done]. simpl.
  destruct (rd ends k) as [endIndex |]; [| done]. simpl.
  match goal with
  | |- forM ?l ?f ?t ≫= _ = forM ?l ?g ?t ≫= _ =>
      rewrite (forM_ext l f g t)
  end.
  2:{ intros i t _. destruct (negb (i =? k)); [| done]. rewrite Hp, Hv.
      destruct (rd pai i) as [b' |]; [| done]. simpl.
      destruct (rd pos b'); [| done]. done. }
  match goal with |- ?m ≫= _ = ?m ≫= _ => destruct m as [t1 |]; [| done] end.
  simpl.
  match goal with
  | |- forM ?l ?f ?t ≫= _ = forM ?l ?g ?t ≫= _ =>
      rewrite (forM_ext l f g t)
  end.
  2:{ intros j t _. apply forM_ext. intros y t' _. apply forM_ext. intros m t'' _.
      cbv zeta.
      destruct (negb (gridIndex3Dto1D j y m side =? -1)); [| done].
      destruct (negb (gridIndex3Dto1D j y m side =? gridIndex)); [| done].
      destruct (rd lookup (gridIndex3Dto1D j y m side)) as [sp |]; [| done]. simpl.
      destruct (negb (sp =? -1)); [| done].
      destruct (rd ends sp) as [ep |]; [| done]. simpl. apply Hcell. }
  done.
Qed.
End Coherent.

Section CoherentStep.
Context {F : Type} `{FloatOps F}.

Lemma stepSimulationScatteredGrid_Done (sched : list Z) (dt : F) (s sS : Sim F) :
  stepSimulationScatteredGrid sched dt s = Done sS →
  ∃ boidIndex gridCellnumber starts ends lookup vel2 pos vel1,
    buildGrid sched s = Some (boidIndex, gridCellnumber, starts, ends, lookup) ∧
    kernUpdateVelNeighborSearchScattered (numObjects s) starts ends
      boidIndex gridCellnumber lookup (gridSideCount s) (Ftrunc (gridCellWidth s))
      (contents (dev_pos s)) (contents (dev_vel1 s)) (contents (dev_vel2 s))
      = Some vel2 ∧
    kernUpdatePos (numObjects s) dt (contents (dev_pos s)) vel2 = Some pos ∧
    cudaMemcpy (contents (dev_vel1 s)) vel2 (numObjects s) = Some vel1 ∧
    sS = MkSim (numObjects s) (store (dev_pos s) pos) (store (dev_vel1 s) vel1)
           (store (dev_vel2 s) vel2)
           (store (devGridCellnumber s) gridCellnumber)
           (store (devBoidIndex s) boidIndex)
           (store (gridCellIndex s) lookup)
           (store (dev_gridCellStartIndices s) starts)
           (store (dev_gridCellEndIndices s) ends)
           (gridCellCount s) (gridSideCount s) (gridCellWidth s)
           (gridInverseCellWidth s) (gridMinimum s).
Proof.
  unfold stepSimulationScatteredGrid. cbv zeta. intros Hstep%run_Done.
  apply bind_Some in Hstep as ([[[[bi gcn] starts] ends] lookup] & Hgrid & Hstep).
  apply bind_Some in Hstep as (vel2 & Hk & Hstep).
  apply bind_Some in Hstep as (pos & Hp & Hstep).
  apply bind_Some in Hstep as (vel1 & Hc & [= <-]).
  by exists bi, gcn, starts, ends, lookup, vel2, pos, vel1.
Qed.

Lemma RearangeVelAndPos_gather (N : Z) (pai : list Z)
    (pos vel arrPos arrVel : list (vec3 F)) :
  (∀ k, 0 <= k < N →
     ∃ b, rd pai k = Some b ∧ is_Some (rd pos b) ∧ is_Some (rd vel b)) →
  length pai = Z.to_nat N → length arrPos = Z.to_nat N →
  length arrVel = Z.to_nat N →
  ∃ rpos rvel,
    RearangeVelAndPos N pai pos vel arrPos arrVel = Some (rpos, rvel) ∧
    length rpos = Z.to_nat N ∧ length rvel = Z.to_nat N ∧
    (∀ i, rd rpos i = (b ← rd pai i; rd pos b)) ∧
    (∀ i, rd rvel i = (b ← rd pai i; rd vel b)).
Proof.
  intros Hok Hlpai Hlp Hlv.
  set (val := λ k : Z, b ← rd pai k; v ← rd vel b; p ← rd pos b; Some (p, v)).
  assert (RearangeVelAndPos N pai pos vel arrPos arrVel =
          forM (threads N)
            (λ i '(a, b), xy ← val i; a ← wr a i xy.1; b ← wr b i xy.2; Some (a, b))
            (arrPos, arrVel)) as Hbody.
  { unfold RearangeVelAndPos. apply forM_ext. intros i [a b] _. unfold val.
    destruct (rd pai i) as [bi |]; [| done]. simpl.
    destruct (rd vel bi) as [v |]; [| done]. simpl.
    destruct (rd pos bi) as [p |]; [| done]. done. }
  destruct (forM_own_slot2_total val N arrPos arrVel) as [[rpos rvel] Hrun];
    [| lia | lia |].
  { intros k Hk. destruct (Hok k Hk) as (b & Hb & [p Hp] & [v Hv]).
    unfold val. rewrite Hb. simpl. rewrite Hv. simpl. rewrite Hp. by eexists. }
  exists rpos, rvel. rewrite Hbody. split; [done |].
  apply forM_own_slot2 in Hrun as (Hl1 & Hl2 & Hin & _).
  split; [lia |]. split; [lia |].
  assert (∀ i, ¬ (0 <= i < N) → rd pai i = None) as Hout.
  { intros i Hi. apply rd_None_out. lia. }
  split; intros i.
  - destruct (decide (0 <= i < N)) as [Hi | Hi].
    + destruct (Hin i Hi) as (p & v & Hval & Hrp & _). rewrite Hrp.
      unfold val in Hval. destruct (rd pai i) as [b |]; [| done]. simpl in *.
      destruct (rd vel b); [| done]. simpl in Hval.
      destruct (rd pos b); [| done]. by injection Hval as -> _.
    + rewrite (Hout i Hi). apply rd_None_out. lia.
  - destruct (decide (0 <= i < N)) as [Hi | Hi].
    + destruct (Hin i Hi) as (p & v & Hval & _ & Hrv). rewrite Hrv.
      unfold val in Hval. destruct (rd pai i) as [b |]; [| done]. simpl in *.
      destruct (rd vel b); [| done]. simpl in Hval.
      destruct (rd pos b); [| done]. by injection Hval as _ ->.
    + rewrite (Hout i Hi). apply rd_None_out. lia.
Qed.

Lemma kernUpdateVelNeighborSearchCoherent_total (N : Z)
    (starts ends pai pgi gci : list Z) (side width : Z)
    (pos vel1 vel2 : list (vec3 F)) :
  (∀ i, 0 <= i < N →
     is_Some (CoherentUpDateVelocity N i pos vel1 pai pgi starts ends gci
                side width)) →
  N <= Z.of_nat (length vel2) →
  is_Some (kernUpdateVelNeighborSearchCoherent N starts ends pai pgi gci side width
             pos vel1 vel2).
Proof.
  intros Hok Hlen. unfold kernUpdateVelNeighborSearchCoherent.
  rewrite (forM_ext _ _
    (λ i a, v ← clampSpeed <$>
                  CoherentUpDateVelocity N i pos vel1 pai pgi starts ends gci
                    side width;
            wr a i v)).
  2:{ intros i a _. by destruct (CoherentUpDateVelocity _ _ _ _ _ _ _ _ _ _ _). }
  apply forM_own_slot_total; [| done].
  intros i Hi. destruct (Hok i Hi) as [u ->]. by eexists.
Qed.
End CoherentStep.

(** C3, as the code has it: from a state with buffers of [N] elements, if
    the scattered-grid step returns, so does the coherent-grid step; both
    build the same sorted tables, and for every sorted slot [k], holding the
    particle [b = ParticleIndex[k]], the coherent kernel sees the same
    candidates in the same order and computes the same velocity.  The
    coherent step leaves position and velocity of that particle in slot
    [k] of [dev_pos], [dev_vel1] and [dev_vel2]: the buffers end in sorted
    order, where the scattered step keeps them under the index [b]. *)
Theorem coherent_step_keeps_sorted_order {F : Type} `{FloatOps F}
    (sched : list Z) (dt : F) (s sS : Sim F) :
  wellSized s →
  stepSimulationScatteredGrid sched dt s = Done sS →
  ∃ sC : Sim F,
    stepSimulationCoherentGrid sched dt s = Done sC ∧
    devBoidIndex sC = devBoidIndex sS ∧
    devGridCellnumber sC = devGridCellnumber sS ∧
    dev_gridCellStartIndices sC = dev_gridCellStartIndices sS ∧
    dev_gridCellEndIndices sC = dev_gridCellEndIndices sS ∧
    gridCellIndex sC = gridCellIndex sS ∧
    contents (devBoidIndex sS) ≡ₚ threads (numObjects s) ∧
    ∀ k, 0 <= k < numObjects s →
      ∃ (b : Z) (p v : vec3 F),
        rd (contents (devBoidIndex sS)) k = Some b ∧
        rd (contents (dev_pos sS)) b = Some p ∧
        rd (contents (dev_vel1 sS)) b = Some v ∧
        rd (contents (dev_vel2 sS)) b = Some v ∧
        rd (contents (dev_pos sC)) k = Some p ∧
        rd (contents (dev_vel1 sC)) k = Some v ∧
        rd (contents (dev_vel2 sC)) k = Some v.
Proof.
  intros Hwf Hstep.
  pose proof Hwf as (HN & Hlp & Hlv1 & Hlv2 & Hlg & Hlb & Hls & Hle).
  apply stepSimulationScatteredGrid_Done in Hstep
    as (bi & gcn & starts & ends & lookup & vel2S & posS & vel1S &
        Hgrid & Hks & Hps & Hcs & ->).
  pose proof (buildGrid_boidIndex _ _ _ _ _ _ _ Hwf Hgrid) as Hperm.
  assert (length bi = Z.to_nat (numObjects s)) as Hlbi
    by (by rewrite Hperm, threads_length).
  assert (∀ k b, rd bi k = Some b → 0 <= b < numObjects s) as Hrange.
  { intros k b Hb. apply elem_of_threads. rewrite <- Hperm.
    pose proof (rd_Some_bound _ _ _ Hb). rewrite rd_lookup in Hb by lia.
    by eapply list_elem_of_lookup_2. }
  assert (∀ k k' b, rd bi k = Some b → rd bi k' = Some b → k = k') as Hinj.
  { intros k k' b Hk Hk'.
    pose proof (rd_Some_bound _ _ _ Hk). pose proof (rd_Some_bound _ _ _ Hk').
    rewrite rd_lookup in Hk, Hk' by lia.
    assert (NoDup bi) as Hnd by (rewrite Hperm; apply NoDup_threads).
    pose proof (NoDup_lookup _ _ _ _ Hnd Hk Hk'). lia. }
  apply kernUpdateVelNeighborSearchScattered_spec in Hks as (HlS & HinS & _).
  apply kernUpdatePos_spec in Hps as (HlpS & HinP & _).
  apply cudaMemcpy_Some in Hcs as (_ & _ & ->).
  (* the rearranged buffers *)
  destruct (RearangeVelAndPos_gather (numObjects s) bi (contents (dev_pos s))
              (contents (dev_vel1 s))
              (replicate (Z.to_nat (numObjects s)) vzero)
              (replicate (Z.to_nat (numObjects s)) vzero))
    as (rpos & rvel & Hre & Hlrp & Hlrv & Hrp & Hrv);
    [| done | by rewrite length_replicate | by rewrite length_replicate |].
  { intros k Hk. destruct (HinS k Hk) as (b & u & Hb & _ & _).
    exists b. split; [done |]. pose proof (Hrange k b Hb).
    split; apply rd_is_Some; lia. }
  (* the coherent kernel computes, slot by slot, what the scattered one does *)
  assert (∀ k, 0 <= k < numObjects s →
            ∃ b u, rd bi k = Some b ∧
              CoherentUpDateVelocity (numObjects s) k rpos rvel bi gcn starts ends
                lookup (gridSideCount s) (Ftrunc (gridCellWidth s)) = Some u ∧
              rd vel2S b = Some (clampSpeed u)) as Hsame.
  { intros k Hk. destruct (HinS k Hk) as (b & u & Hb & _ & Hu & i' & u' & _ & Hb' & Hu' & Hr).
    exists b, u. split; [done |].
    rewrite (CoherentUpDateVelocity_refines _ _ _ _ _ _ _ _ _ _ _ _ _ Hrp Hrv).
    rewrite Hb. simpl. split; [done |].
    rewrite (Hinj _ _ _ Hb' Hb) in Hu'. congruence. }
  destruct (kernUpdateVelNeighborSearchCoherent_total (numObjects s) starts ends bi
              gcn lookup (gridSideCount s) (Ftrunc (gridCellWidth s)) rpos rvel
              (contents (dev_vel2 s))) as [vel2C Hkc]; [| lia |].
  { intros k Hk. destruct (Hsame k Hk) as (b & u & _ & -> & _). by eexists. }
  pose proof Hkc as (HlC & HinC & _)%kernUpdateVelNeighborSearchCoherent_spec.
  destruct (kernUpdatePos_total (numObjects s) dt rpos vel2C) as [rposC Hpc];
    [lia .. |].
  pose proof Hpc as (HlpC & HinPC & _)%kernUpdatePos_spec.
  eexists. split.
  { unfold stepSimulationCoherentGrid. cbv zeta. rewrite Hgrid. simpl.
    rewrite Hre. simpl. rewrite Hkc. simpl. rewrite Hpc. simpl.
    rewrite !cudaMemcpy_total by lia. simpl. reflexivity. }
  cbn [devBoidIndex devGridCellnumber dev_gridCellStartIndices
         dev_gridCellEndIndices gridCellIndex dev_pos dev_vel1 dev_vel2].
  do 5 (split; [done |]).
  assert (length bi = length (contents (devBoidIndex s))) as Hlbi' by lia.
  rewrite (contents_store (devBoidIndex s) bi Hlbi').
  split; [done |].
  rewrite !contents_store
    by (rewrite ?length_app, ?length_take, ?length_drop; lia).
  intros k Hk. destruct (Hsame k Hk) as (b & u & Hb & Hu & Hv2).
  pose proof (Hrange k b Hb) as Hbr.
  destruct (HinP b Hbr) as (p & v & Hp & Hv & Hposb).
  rewrite Hv2 in Hv. injection Hv as <-.
  exists b, (integrate dt p (clampSpeed u)), (clampSpeed u).
  split; [done |]. split; [done |].
  split; [by rewrite rd_take_app by lia |]. split; [done |].
  destruct (HinC k Hk) as (u' & Hu' & Hv2C).
  rewrite Hu in Hu'. injection Hu' as <-.
  split; [| split; [by rewrite rd_take_app by lia | done]].
  rewrite rd_take_app by lia.
  destruct (HinPC k Hk) as (p' & v' & Hp' & Hv' & ->).
  rewrite Hv2C in Hv'. injection Hv' as <-.
  rewrite Hrp, Hb in Hp'. simpl in Hp'. congruence.
Qed.

Lemma twoBoids_scattered_step :
  stepSimulationScatteredGrid [0; 1] (f32 1) twoBoids = Done twoBoidsScattered.
Proof.
  unfold stepSimulationScatteredGrid. cbv zeta.
  refine (run_bind_congr _ _ _ _
            (buildGrid_reset [0; 1] twoBoids twoBoids_lookup_size) _).
  vm_compute. reflexivity.
Qed.

Lemma twoBoids_coherent_step :
  stepSimulationCoherentGrid [0; 1] (f32 1) twoBoids = Done twoBoidsCoherent.
Proof.
  unfold stepSimulationCoherentGrid. cbv zeta.
  refine (run_bind_congr _ _ _ _
            (buildGrid_reset [0; 1] twoBoids twoBoids_lookup_size) _).
  vm_compute. reflexivity.
Qed.

Lemma twoBoids_wellSized : wellSized twoBoids.
Proof. unfold wellSized. simpl. repeat apply conj; (lia || reflexivity). Qed.

Lemma coherent_step_keeps_sorted_order_witness :
  wellSized twoBoids ∧
  stepSimulationScatteredGrid [0; 1] (f32 1) twoBoids = Done twoBoidsScattered ∧
  ∃ sC : Sim spec_float,
    stepSimulationCoherentGrid [0; 1] (f32 1) twoBoids = Done sC ∧
    ∀ k, 0 <= k < 2 →
      ∃ (b : Z) (p : vec3 spec_float),
        rd (contents (devBoidIndex twoBoidsScattered)) k = Some b ∧
        rd (contents (dev_pos twoBoidsScattered)) b = Some p ∧
        rd (contents (dev_pos sC)) k = Some p.
Proof.
  split; [exact twoBoids_wellSized |]. split; [exact twoBoids_scattered_step |].
  destruct (coherent_step_keeps_sorted_order [0; 1] (f32 1) twoBoids
              twoBoidsScattered twoBoids_wellSized twoBoids_scattered_step)
    as (sC & HsC & _ & _ & _ & _ & _ & _ & Hslots).
  exists sC. split; [exact HsC |].
  intros k Hk. destruct (Hslots k Hk) as (b & p & v & Hb & Hp & _ & _ & Hpc & _).
  exists b, p. split; [exact Hb |]. split; [exact Hp | exact Hpc].
Defined.

(** C3 as claimed fails: in [twoBoids] the particle with id 0 rests at
    (50,50,50) and lies in the higher cell.  After one scattered-grid step
    [dev_pos[0]] is still (50,50,50); after one coherent-grid step
    [dev_pos[0]] is (-50,-50,-50), the position of particle 1: the buffers
    are left in sorted order. *)
Lemma coherent_step_leaves_sorted_order :
  stepSimulationScatteredGrid [0; 1] (f32 1) twoBoids = Done twoBoidsScattered ∧
  stepSimulationCoherentGrid [0; 1] (f32 1) twoBoids = Done twoBoidsCoherent ∧
  rd (contents (dev_pos twoBoids)) 0 = Some (v32 50 50 50) ∧
  rd (contents (dev_pos twoBoidsScattered)) 0 = Some (v32 50 50 50) ∧
  rd (contents (dev_pos twoBoidsCoherent)) 0 = Some (v32 (-50) (-50) (-50)) ∧
  dev_pos twoBoidsCoherent ≠ dev_pos twoBoidsScattered.
Proof.
  split; [exact twoBoids_scattered_step |].
  split; [exact twoBoids_coherent_step |].
  split; [vm_compute; reflexivity |]. split; [vm_compute; reflexivity |].
  split; [vm_compute; reflexivity |]. vm_compute. discriminate.
Qed.

(** ** The speed cap after a step *)

Section Clamped.
Context {F : Type} `{FloatOps F}.

Lemma stepSimulationNaive_Done (dt : F) (s sN : Sim F) :
  stepSimulationNaive dt s = Done sN →
  ∃ vel2 pos vel1,
    kernUpdateVelocityBruteForce (numObjects s) (contents (dev_pos s))
      (contents (dev_vel1 s)) (contents (dev_vel2 s)) = Some vel2 ∧
    kernUpdatePos (numObjects s) dt (contents (dev_pos s)) vel2 = Some pos ∧
    cudaMemcpy (contents (dev_vel1 s)) vel2 (numObjects s) = Some vel1 ∧
    dev_vel2 sN = store (dev_vel2 s) vel2 ∧
    dev_vel1 sN = store (dev_vel1 s) vel1 ∧
    dev_pos sN = store (dev_pos s) pos.
Proof.
  unfold stepSimulationNaive. cbv zeta. intros Hstep%run_Done.
  apply bind_Some in Hstep as (vel2 & Hk & Hstep).
  apply bind_Some in Hstep as (pos & Hp & Hstep).
  apply bind_Some in Hstep as (vel1 & Hc & [= <-]).
  by exists vel2, pos, vel1.
Qed.


End Clamped.



(** ** The grid of [initSimulation] in single precision *)

Example initSimulation_grid_b32 :
  ∃ s : Sim spec_float,
    initSimulation (λ _ _, v32 0 0 0) (v32 0 0 0) 0 1000000 4 = Done s ∧
    gridSideCount s = gridSideCount fourBoids ∧
    gridCellCount s = gridCellCount fourBoids ∧
    gridCellWidth s = gridCellWidth fourBoids ∧
    gridInverseCellWidth s = gridInverseCellWidth fourBoids ∧
    gridMinimum s = gridMinimum fourBoids ∧
    length (contents (gridCellIndex s)) = length (contents (gridCellIndex fourBoids)).
Proof.
  eexists. split; [vm_compute; reflexivity |].
  repeat apply conj; vm_compute; reflexivity.
Qed.

(** ** Invariants of a launch *)

(** What holds of the state after the threads of [done] have run holds
    after all of them. *)
Lemma forM_ind {A S : Type} (P : list A → S → Prop) (l : list A)
    (body : A → S → option S) (s s' : S) :
  P [] s →
  (∀ done x s1 s2, x ∈ l → P done s1 → body x s1 = Some s2 → P (done ++ [x]) s2) →
  forM l body s = Some s' → P l s'.
Proof.
  intros H0 Hstep Hrun.
  enough (∀ done, P done s → (∀ x, x ∈ l → x ∈ l) → P (done ++ l) s') as Hgen
    by exact (Hgen [] H0 (λ _ Hx, Hx)).
  clear H0. revert s Hrun Hstep.
  induction l as [| x l IH]; intros s Hrun Hstep done Hd _.
  - injection Hrun as <-. by rewrite app_nil_r.
  - simpl in Hrun. destruct (body x s) as [s1 |] eqn:Hb; [| done]. simpl in Hrun.
    rewrite (assoc_L (++) done [x] l : done ++ x :: l = (done ++ [x]) ++ l).
    apply (IH s1 Hrun); [| | done].
    + intros d y t1 t2 Hy. apply Hstep. by right.
    + apply (Hstep done x s s1); [by left | done | done].
Qed.

(** A launch whose threads keep an invariant that lets each of them run
    returns. *)
Lemma forM_total {A S : Type} (Inv : S → Prop) (l : list A)
    (body : A → S → option S) (s : S) :
  Inv s →
  (∀ x s1, x ∈ l → Inv s1 → ∃ s2, body x s1 = Some s2 ∧ Inv s2) →
  ∃ s', forM l body s = Some s' ∧ Inv s'.
Proof.
  revert s. induction l as [| x l IH]; intros s Hs Hok; [by exists s |].
  destruct (Hok x s) as (s1 & Hb & Hs1); [by left | done |].
  simpl. rewrite Hb. simpl. apply IH; [done |].
  intros y t Hy. apply Hok. by right.
Qed.

(** A launch with a thread that faults in every state the others can leave
    faults. *)
Lemma forM_None {A S : Type} (Inv : S → Prop) (l : list A)
    (body : A → S → option S) (s : S) (x : A) :
  x ∈ l → Inv s →
  (∀ y s1 s2, Inv s1 → body y s1 = Some s2 → Inv s2) →
  (∀ s1, Inv s1 → body x s1 = None) →
  forM l body s = None.
Proof.
  intros Hx Hs Hinv Hfail. revert s Hs.
  induction l as [| y l IH]; intros s Hs; [by apply elem_of_nil in Hx |].
  simpl. destruct (body y s) as [s1 |] eqn:Hb; [| done]. simpl.
  apply elem_of_cons in Hx as [-> | Hx].
  - by rewrite (Hfail s Hs) in Hb.
  - apply IH; [done |]. by eapply Hinv.
Qed.

Lemma forM_fill {A : Type} (N : Z) (a : list A) (v : A) :
  forM (threads N) (λ i a, wr a i v) a =
    if N <=? Z.of_nat (length a)
    then Some (replicate (Z.to_nat N) v ++ drop (Z.to_nat N) a)
    else None.
Proof.
  destruct (Z.leb_spec N (Z.of_nat (length a))) as [Hle | Hgt].
  - rewrite (forM_ext _ _ (λ i a, w ← (λ _ : Z, Some v) i; wr a i w))
      by (intros; done).
    destruct (forM_own_slot_total (λ _ : Z, Some v) N a) as [a' Ha];
      [by eexists | done |].
    rewrite Ha. f_equal.
    apply forM_own_slot in Ha as (Hla & Hin & Hout).
    apply list_eq. intros i. rewrite <- !rd_nat.
    destruct (decide (Z.of_nat i < N)) as [Hlt | Hge].
    + destruct (Hin (Z.of_nat i)) as (w & [= <-] & Hr); [lia |].
      rewrite Hr, rd_nat, lookup_app_l by (rewrite length_replicate; lia).
      symmetry. apply lookup_replicate_2. lia.
    + rewrite Hout by lia. rewrite !rd_nat.
      rewrite lookup_app_r by (rewrite length_replicate; lia).
      rewrite length_replicate, lookup_drop. f_equal. lia.
  - apply (forM_None (λ a', length a' = length a) _ _ _ (Z.of_nat (length a))).
    + apply elem_of_threads. lia.
    + done.
    + intros y s1 s2 Hs1 Hw. apply wr_length in Hw. congruence.
    + intros s1 Hs1. unfold wr.
      destruct (Z.ltb_spec (Z.of_nat (length a)) (Z.of_nat (length s1))); [lia |].
      by rewrite andb_false_r.
Qed.

(** X1: [kernResetIntBuffer] sets the first [N] elements of the buffer to
    [value] and leaves the others as they were; when the buffer holds
    fewer than [N] elements the launch writes outside it. *)
Theorem kernResetIntBuffer_fills_prefix (N : Z) (intBuffer : list Z) (value : Z) :
  kernResetIntBuffer N intBuffer value =
    if N <=? Z.of_nat (length intBuffer)
    then Some (replicate (Z.to_nat N) value ++ drop (Z.to_nat N) intBuffer)
    else None.
Proof. apply forM_fill. Qed.

(** X2: [InitializeGridCellIndex] sets the first [gridSideCount^3] entries of
    the lookup to the empty marker -1 and leaves any later entry as it was;
    on a lookup with fewer entries it writes outside it. *)
Theorem InitializeGridCellIndex_resets_cells (gridCellIndex : list Z)
    (gridSideCount : Z) :
  let cells := gridSideCount * gridSideCount * gridSideCount in
  InitializeGridCellIndex gridCellIndex gridSideCount =
    if cells <=? Z.of_nat (length gridCellIndex)
    then Some (replicate (Z.to_nat cells) (-1) ++ drop (Z.to_nat cells) gridCellIndex)
    else None.
Proof. apply (forM_fill _ gridCellIndex (-1)). Qed.

(** ** The display buffers *)

(** four writes to the slots [k .. k + 3] *)
Lemma wr_block4 {A : Type} (a a4 : list A) (k : Z) (x0 x1 x2 x3 : A) :
  (a1 ← wr a (k + 0) x0; a2 ← wr a1 (k + 1) x1; a3 ← wr a2 (k + 2) x2;
   wr a3 (k + 3) x3) = Some a4 →
  length a4 = length a ∧ 0 <= k ∧ k + 3 < Z.of_nat (length a) ∧
  rd a4 (k + 0) = Some x0 ∧ rd a4 (k + 1) = Some x1 ∧
  rd a4 (k + 2) = Some x2 ∧ rd a4 (k + 3) = Some x3 ∧
  ∀ j, ¬ (k <= j <= k + 3) → rd a4 j = rd a j.
Proof.
  intros Hrun.
  apply bind_Some in Hrun as (a1 & H0 & Hrun).
  apply bind_Some in Hrun as (a2 & H1 & Hrun).
  apply bind_Some in Hrun as (a3 & H2 & H3).
  pose proof (wr_length _ _ _ _ H0). pose proof (wr_length _ _ _ _ H1).
  pose proof (wr_length _ _ _ _ H2). pose proof (wr_length _ _ _ _ H3).
  pose proof (proj1 (wr_Some _ _ _ _ H0)). pose proof (proj1 (wr_Some _ _ _ _ H3)).
  split; [congruence |]. split; [lia |]. split; [lia |].
  repeat split.
  - rewrite (rd_wr_ne _ _ _ _ _ H3), (rd_wr_ne _ _ _ _ _ H2),
      (rd_wr_ne _ _ _ _ _ H1) by lia. by eapply rd_wr_eq.
  - rewrite (rd_wr_ne _ _ _ _ _ H3), (rd_wr_ne _ _ _ _ _ H2) by lia.
    by eapply rd_wr_eq.
  - rewrite (rd_wr_ne _ _ _ _ _ H3) by lia. by eapply rd_wr_eq.
  - by eapply rd_wr_eq.
  - intros j Hj.
    rewrite (rd_wr_ne _ _ _ _ _ H3), (rd_wr_ne _ _ _ _ _ H2),
      (rd_wr_ne _ _ _ _ _ H1), (rd_wr_ne _ _ _ _ _ H0) by lia. done.
Qed.

Lemma wr_block4_total {A : Type} (a : list A) (k : Z) (x0 x1 x2 x3 : A) :
  0 <= k → k + 3 < Z.of_nat (length a) →
  is_Some (a1 ← wr a (k + 0) x0; a2 ← wr a1 (k + 1) x1; a3 ← wr a2 (k + 2) x2;
           wr a3 (k + 3) x3).
Proof.
  intros Hk Hlen.
  rewrite wr_in_bounds by lia. simpl.
  rewrite wr_in_bounds by (rewrite !length_insert; lia). simpl.
  rewrite wr_in_bounds by (rewrite !length_insert; lia). simpl.
  rewrite wr_in_bounds by (rewrite !length_insert; lia). by eexists.
Qed.

(** A launch whose thread [i] fills the block of four slots from [4 * i]
    with values read off a second array. *)
Lemma forM_blocks4 {A B : Type} (f0 f1 f2 f3 : B → A) (N : Z) (src : list B)
    (a a' : list A) :
  forM (threads N) (λ i a,
    p ← rd src i; a ← wr a (4 * i + 0) (f0 p);
    p ← rd src i; a ← wr a (4 * i + 1) (f1 p);
    p ← rd src i; a ← wr a (4 * i + 2) (f2 p);
    p ← rd src i; wr a (4 * i + 3) (f3 p)) a = Some a' →
  length a' = length a ∧
  (∀ i, 0 <= i < N →
     4 * i + 3 < Z.of_nat (length a) ∧
     ∃ p, rd src i = Some p ∧
       rd a' (4 * i + 0) = Some (f0 p) ∧ rd a' (4 * i + 1) = Some (f1 p) ∧
       rd a' (4 * i + 2) = Some (f2 p) ∧ rd a' (4 * i + 3) = Some (f3 p)) ∧
  (∀ j, ¬ (0 <= j < 4 * N) → rd a' j = rd a j).
Proof.
  intros Hrun.
  pose (P := λ (done : list Z) (a1 : list A),
    length a1 = length a ∧
    (∀ i, i ∈ done →
       4 * i + 3 < Z.of_nat (length a) ∧
       ∃ p, rd src i = Some p ∧
         rd a1 (4 * i + 0) = Some (f0 p) ∧ rd a1 (4 * i + 1) = Some (f1 p) ∧
         rd a1 (4 * i + 2) = Some (f2 p) ∧ rd a1 (4 * i + 3) = Some (f3 p)) ∧
    (∀ j, (∀ i, i ∈ done → ¬ (4 * i <= j <= 4 * i + 3)) → rd a1 j = rd a j)).
  assert (P (threads N) a') as (Hlen & Hin & Hout).
  { apply (forM_ind P _ _ _ _) in Hrun; [done | |].
    - split; [done |]. split; [| done]. intros i Hi. by apply elem_of_nil in Hi.
    - clear Hrun. intros done x s1 s2 Hx (Hl1 & Hin1 & Hout1) Hbody.
      destruct (rd src x) as [p |] eqn:Hp; [| done]. simpl in Hbody.
      apply wr_block4 in Hbody as (Hl2 & Hk & Hk3 & H0 & H1 & H2 & H3 & Hfr).
      split; [congruence |]. split.
      + intros i Hi. apply elem_of_app in Hi as [Hi | Hi].
        * destruct (Hin1 i Hi) as (Hb & q & Hq & G0 & G1 & G2 & G3).
          split; [done |]. exists q. split; [done |].
          destruct (decide (i = x)) as [-> | Hne].
          { rewrite Hp in Hq. injection Hq as <-. done. }
          rewrite !Hfr by lia. done.
        * apply list_elem_of_singleton in Hi as ->.
          split; [lia |]. by exists p.
      + intros j Hj. rewrite Hfr.
        * apply Hout1. intros i Hi. apply Hj, elem_of_app. by left.
        * apply Hj, elem_of_app. right. by apply list_elem_of_singleton. }
  split; [done |]. split.
  - intros i Hi. apply Hin. by apply elem_of_threads.
  - intros j Hj. apply Hout. intros i Hi%elem_of_threads. lia.
Qed.

Lemma forM_blocks4_total {A B : Type} (f0 f1 f2 f3 : B → A) (N : Z) (src : list B)
    (a : list A) :
  N <= Z.of_nat (length src) → 4 * N <= Z.of_nat (length a) →
  is_Some (forM (threads N) (λ i a,
    p ← rd src i; a ← wr a (4 * i + 0) (f0 p);
    p ← rd src i; a ← wr a (4 * i + 1) (f1 p);
    p ← rd src i; a ← wr a (4 * i + 2) (f2 p);
    p ← rd src i; wr a (4 * i + 3) (f3 p)) a).
Proof.
  intros Hsrc Ha.
  destruct (forM_total (λ a1 : list A, length a1 = length a) (threads N)
    (λ i a,
      p ← rd src i; a ← wr a (4 * i + 0) (f0 p);
      p ← rd src i; a ← wr a (4 * i + 1) (f1 p);
      p ← rd src i; a ← wr a (4 * i + 2) (f2 p);
      p ← rd src i; wr a (4 * i + 3) (f3 p)) a) as (a' & Hrun & _);
    [done | | by eexists].
  intros i s1 Hi%elem_of_threads Hl1.
  destruct (rd_is_Some src i) as [p Hp]; [lia |].
  cbv beta. rewrite Hp. simpl.
  destruct (wr_block4_total s1 (4 * i) (f0 p) (f1 p) (f2 p) (f3 p)) as [s2 Hs2];
    [lia | lia |].
  exists s2. split; [done |]. apply wr_block4 in Hs2. destruct Hs2 as [? _]. congruence.
Qed.

Section DisplayKernels.
Context {F : Type} `{FloatOps F}.

Lemma kernCopyPositionsToVBO_body (N : Z) (pos : list (vec3 F)) (vbo : list F)
    (s_scale : F) :
  kernCopyPositionsToVBO N pos vbo s_scale =
  forM (threads N) (λ i a,
    p ← rd pos i; a ← wr a (4 * i + 0) (Fmul (vx p) (Fdiv (Fneg (Flit 1 1)) s_scale));
    p ← rd pos i; a ← wr a (4 * i + 1) (Fmul (vy p) (Fdiv (Fneg (Flit 1 1)) s_scale));
    p ← rd pos i; a ← wr a (4 * i + 2) (Fmul (vz p) (Fdiv (Fneg (Flit 1 1)) s_scale));
    p ← rd pos i; wr a (4 * i + 3) ((λ _, Flit 1 1) p)) vbo.
Proof.
  unfold kernCopyPositionsToVBO. cbv zeta. apply forM_ext. intros i a _.
  by destruct (rd pos i).
Qed.

Lemma kernCopyVelocitiesToVBO_body (N : Z) (vel : list (vec3 F)) (vbo : list F)
    (s_scale : F) :
  kernCopyVelocitiesToVBO N vel vbo s_scale =
  forM (threads N) (λ i a,
    v ← rd vel i; a ← wr a (4 * i + 0) (Fadd (vx v) (Flit 3 10));
    v ← rd vel i; a ← wr a (4 * i + 1) (Fadd (vy v) (Flit 3 10));
    v ← rd vel i; a ← wr a (4 * i + 2) (Fadd (vz v) (Flit 3 10));
    v ← rd vel i; wr a (4 * i + 3) ((λ _, Flit 1 1) v)) vbo.
Proof.
  unfold kernCopyVelocitiesToVBO. apply forM_ext. intros i a _.
  by destruct (rd vel i).
Qed.

(** X3: [kernCopyPositionsToVBO] gives boid [i] the four floats from
    [4 * i]: its coordinates times [-1 / s_scale], then [1]; it leaves the
    floats from [4 * N] on as they were, and it stays inside its arrays
    exactly when [pos] holds [N] boids and [vbo] holds [4 * N] floats. *)
Theorem kernCopyPositionsToVBO_layout (N : Z) (pos : list (vec3 F)) (vbo : list F)
    (s_scale : F) :
  (∀ vbo',
     kernCopyPositionsToVBO N pos vbo s_scale = Some vbo' →
     length vbo' = length vbo ∧
     (∀ i, 0 <= i < N →
        ∃ p, rd pos i = Some p ∧
          rd vbo' (4 * i + 0) = Some (Fmul (vx p) (Fdiv (Fneg (Flit 1 1)) s_scale)) ∧
          rd vbo' (4 * i + 1) = Some (Fmul (vy p) (Fdiv (Fneg (Flit 1 1)) s_scale)) ∧
          rd vbo' (4 * i + 2) = Some (Fmul (vz p) (Fdiv (Fneg (Flit 1 1)) s_scale)) ∧
          rd vbo' (4 * i + 3) = Some (Flit 1 1)) ∧
     (∀ j, ¬ (0 <= j < 4 * N) → rd vbo' j = rd vbo j)) ∧
  (0 < N →
     is_Some (kernCopyPositionsToVBO N pos vbo s_scale) ↔
     N <= Z.of_nat (length pos) ∧ 4 * N <= Z.of_nat (length vbo)).
Proof.
  rewrite kernCopyPositionsToVBO_body. split.
  - intros vbo' Hrun. apply forM_blocks4 in Hrun as (Hlen & Hin & Hout).
    split; [done |]. split; [| done].
    intros i Hi. by destruct (Hin i Hi) as [_ ?].
  - intros HN. split.
    + intros [vbo' Hrun]. apply forM_blocks4 in Hrun as (Hlen & Hin & Hout).
      destruct (Hin (N - 1)) as (Hb & p & Hp & _); [lia |].
      apply rd_Some_bound in Hp. lia.
    + intros [Hp Hv]. by apply forM_blocks4_total.
Qed.

(** X4: [kernCopyVelocitiesToVBO] gives boid [i] the four floats from
    [4 * i]: its velocity components plus [0.3], then [1]; it leaves the
    floats from [4 * N] on as they were, and it stays inside its arrays
    exactly when [vel] holds [N] boids and [vbo] holds [4 * N] floats. *)
Theorem kernCopyVelocitiesToVBO_layout (N : Z) (vel : list (vec3 F)) (vbo : list F)
    (s_scale : F) :
  (∀ vbo',
     kernCopyVelocitiesToVBO N vel vbo s_scale = Some vbo' →
     length vbo' = length vbo ∧
     (∀ i, 0 <= i < N →
        ∃ v, rd vel i = Some v ∧
          rd vbo' (4 * i + 0) = Some (Fadd (vx v) (Flit 3 10)) ∧
          rd vbo' (4 * i + 1) = Some (Fadd (vy v) (Flit 3 10)) ∧
          rd vbo' (4 * i + 2) = Some (Fadd (vz v) (Flit 3 10)) ∧
          rd vbo' (4 * i + 3) = Some (Flit 1 1)) ∧
     (∀ j, ¬ (0 <= j < 4 * N) → rd vbo' j = rd vbo j)) ∧
  (0 < N →
     is_Some (kernCopyVelocitiesToVBO N vel vbo s_scale) ↔
     N <= Z.of_nat (length vel) ∧ 4 * N <= Z.of_nat (length vbo)).
Proof.
  rewrite kernCopyVelocitiesToVBO_body. split.
  - intros vbo' Hrun. apply forM_blocks4 in Hrun as (Hlen & Hin & Hout).
    split; [done |]. split; [| done].
    intros i Hi. by destruct (Hin i Hi) as [_ ?].
  - intros HN. split.
    + intros [vbo' Hrun]. apply forM_blocks4 in Hrun as (Hlen & Hin & Hout).
      destruct (Hin (N - 1)) as (Hb & p & Hp & _); [lia |].
      apply rd_Some_bound in Hp. lia.
    + intros [Hp Hv]. by apply forM_blocks4_total.
Qed.

End DisplayKernels.

(** *** What the renderer receives, over the reals *)






(** ** Initialisation *)

Lemma allocOrExit_eq (avail bytes : Z) (msg : string) (line : Z) :
  allocOrExit avail bytes msg line =
    if bytes <=? avail then Done (avail - bytes) else Exited line msg.
Proof. unfold allocOrExit, cudaMalloc. by destruct (bytes <=? avail). Qed.

Section Initialisation.
Context {F : Type} `{FloatOps F}.

Lemma kernGenerateRandomPosArray_spec (rng : F → Z → vec3 F) (time N : Z)
    (arr : list (vec3 F)) (scale : F) :
  0 <= N <= Z.of_nat (length arr) →
  ∃ arr',
    kernGenerateRandomPosArray rng time N arr scale = Some arr' ∧
    length arr' = length arr ∧
    ∀ i, 0 <= i < N →
      rd arr' i = Some (Vec3 (Fmul scale (vx (rng (Fof_int time) i)))
                             (Fmul scale (vy (rng (Fof_int time) i)))
                             (Fmul scale (vz (rng (Fof_int time) i)))).
Proof.
  intros HN. unfold kernGenerateRandomPosArray.
  pose (val := λ i : Z,
    Some (Vec3 (Fmul scale (vx (rng (Fof_int time) i)))
               (Fmul scale (vy (rng (Fof_int time) i)))
               (Fmul scale (vz (rng (Fof_int time) i))))).
  rewrite (forM_ext _ _ (λ i a, v ← val i; wr a i v)) by (intros; done).
  destruct (forM_own_slot_total val N arr) as [arr' Ha]; [by eexists | lia |].
  exists arr'. split; [done |].
  apply forM_own_slot in Ha as (Hlen & Hin & _). split; [done |].
  intros i Hi. destruct (Hin i Hi) as (v & [= <-] & Hr). done.
Qed.

(** what a call of [initSimulation] that returns leaves behind *)
Lemma initSimulation_Done (rng : F → Z → vec3 F) (junkV : vec3 F) (junkI : Z)
    (avail N : Z) (s : Sim F) :
  0 <= N →
  initSimulation rng junkV junkI avail N = Done s →
  numObjects s = N ∧ wellSized s ∧
  gridCellCount s = gridSideCount s * gridSideCount s * gridSideCount s ∧
  length (contents (gridCellIndex s)) = Z.to_nat (gridCellCount s) ∧
  ∀ i, 0 <= i < N →
    rd (contents (dev_pos s)) i =
      Some (Vec3 (Fmul scene_scale (vx (rng (Fof_int 1) i)))
                 (Fmul scene_scale (vy (rng (Fof_int 1) i)))
                 (Fmul scene_scale (vz (rng (Fof_int 1) i)))).
Proof.
  intros HN. unfold initSimulation.
  destruct (kernGenerateRandomPosArray_spec rng 1 N
              (replicate (Z.to_nat N) junkV) scene_scale) as (pos & -> & Hlen & Hpos);
    [rewrite length_replicate; lia |].
  rewrite length_replicate in Hlen.
  intros Hinit.
  repeat (apply obind_Done in Hinit as (? & ? & Hinit)).
  apply Done_inj in Hinit. subst s.
  match goal with Hr : run _ = Done _ |- _ =>
    simpl in Hr; apply Done_inj in Hr; subst end.
  lazy beta iota delta [numObjects gridSideCount gridCellCount gridCellIndex
    dev_pos contents].
  split; [done |].
  split.
  { unfold wellSized.
    lazy beta iota delta [numObjects dev_pos dev_vel1 dev_vel2 devGridCellnumber
      devBoidIndex dev_gridCellStartIndices dev_gridCellEndIndices contents].
    rewrite !length_replicate. repeat apply conj; done. }
  split; [done |]. split; [by rewrite length_replicate |].
  exact Hpos.
Qed.
End Initialisation.

(** ** The cell range table, thread by thread *)

Lemma identifyCellStartEnd_stores (N : Z) (g : list Z) (index : Z)
    (starts ends : list Z) :
  identifyCellStartEnd N g index (starts, ends) =
  (xy ← (b ← storedStart g index; e ← storedEnd N g index; Some (b, e));
   starts ← wr starts index xy.1; ends ← wr ends index xy.2;
   Some (starts, ends)).
Proof.
  unfold identifyCellStartEnd, storedStart, storedEnd.
  destruct (Z.eqb_spec index 0) as [-> | Hne0]; cbn [negb andb].
  - simpl (0 =? 0 - 1). cbn [mbind option_bind].
    destruct (rd g 0) as [a |]; cbn [mbind option_bind];
      [| by destruct (wr starts 0 0)].
    destruct (rd g (0 + 1)) as [b |]; cbn [mbind option_bind];
      [| by destruct (wr starts 0 0)].
    destruct (negb (a =? b)); cbn [mbind option_bind fst snd].
    + by destruct (wr starts 0 0).
    + destruct (whileUp g (length g) 0) as [p |]; cbn [mbind option_bind fst snd];
        by destruct (wr starts 0 0).
  - destruct (Z.eqb_spec index (N - 1)) as [-> | HneN]; cbn [mbind option_bind].
    + destruct (rd g (N - 1 - 1)) as [a |]; cbn [mbind option_bind];
        [| by destruct (wr ends (N - 1) (N - 1))].
      destruct (rd g (N - 1)) as [b |]; cbn [mbind option_bind];
        [| by destruct (wr ends (N - 1) (N - 1))].
      destruct (negb (a =? b)); cbn [mbind option_bind fst snd].
      * destruct (wr ends (N - 1) (N - 1)); cbn [mbind option_bind];
          by destruct (wr starts (N - 1) (N - 1)).
      * destruct (whileDown g (length g) (N - 1)) as [k |];
          cbn [mbind option_bind fst snd];
          [| by destruct (wr ends (N - 1) (N - 1))].
        destruct (wr ends (N - 1) (N - 1)); cbn [mbind option_bind];
          by destruct (wr starts (N - 1) (k - 1)).
    + destruct (rd g (index - 1)) as [a |]; cbn [mbind option_bind]; [| done].
      destruct (rd g index) as [b |]; cbn [mbind option_bind]; [| done].
      destruct (negb (a =? b)); cbn [mbind option_bind fst snd].
      * destruct (rd g (index + 1)) as [c |]; cbn [mbind option_bind];
          [| by destruct (wr starts index index)].
        destruct (negb (b =? c)); cbn [mbind option_bind fst snd]; [done |].
        destruct (whileUp g (length g) index) as [p |];
          cbn [mbind option_bind fst snd]; [done |].
        by destruct (wr starts index index).
      * destruct (whileDown g (length g) index) as [k |];
          cbn [mbind option_bind fst snd]; [| done].
        destruct (rd g (index + 1)) as [c |]; cbn [mbind option_bind];
          [| by destruct (wr starts index (k - 1))].
        destruct (negb (b =? c)); cbn [mbind option_bind fst snd]; [done |].
        destruct (whileUp g (length g) index) as [p |];
          cbn [mbind option_bind fst snd]; [done |].
        by destruct (wr starts index (k - 1)).
Qed.

Lemma storedStart_Some (g : list Z) (index b : Z) :
  storedStart g index = Some b →
  (b = index ∧ (index = 0 ∨ ∃ a c, rd g (index - 1) = Some a ∧
                                   rd g index = Some c ∧ a ≠ c)) ∨
  (∃ c c', rd g (index - 1) = Some c ∧ rd g index = Some c ∧ index ≠ 0 ∧
     0 <= b < index - 1 ∧ rd g b = Some c' ∧ c' ≠ c ∧
     ∀ j, b < j <= index → rd g j = Some c).
Proof.
  unfold storedStart. destruct (Z.eqb_spec index 0) as [-> | Hne].
  { intros [= <-]. left. split; [done | by left]. }
  destruct (rd g (index - 1)) as [a |] eqn:Ha; [| done]. cbn [mbind option_bind].
  destruct (rd g index) as [c |] eqn:Hc; [| done]. cbn [mbind option_bind].
  destruct (Z.eqb_spec a c) as [-> | Hac]; cbn [negb].
  - destruct (whileDown g (length g) index) as [q |] eqn:Hq; [| done].
    intros [= <-]. right.
    apply whileDown_Some in Hq as (Hle & a' & b' & Hq1 & Hq & Hne' & Hall).
    assert (b' = c) as ->.
    { pose proof (Hall index ltac:(lia)) as Hi. congruence. }
    assert (q ≠ index) as Hqi by (intros ->; congruence).
    pose proof (rd_Some_bound _ _ _ Hq1).
    exists c, a'. split; [done |]. split; [done |]. split; [done |].
    split; [lia |]. split; [done |]. split; [done |].
    intros j Hj. apply Hall. lia.
  - intros [= <-]. left. split; [done |]. right. by exists a, c.
Qed.

Lemma storedEnd_Some (N : Z) (g : list Z) (index e : Z) :
  storedEnd N g index = Some e →
  (e = index ∧ ((index ≠ 0 ∧ index = N - 1) ∨
                ∃ c b, rd g index = Some c ∧ rd g (index + 1) = Some b ∧ c ≠ b)) ∨
  (∃ c c', rd g index = Some c ∧ rd g (index + 1) = Some c ∧
     (index = 0 ∨ index ≠ N - 1) ∧
     index + 1 < e < Z.of_nat (length g) ∧ rd g e = Some c' ∧ c' ≠ c ∧
     ∀ j, index <= j < e → rd g j = Some c).
Proof.
  unfold storedEnd.
  destruct (Z.eqb_spec index 0) as [-> | Hne]; cbn [negb andb].
  - destruct (rd g 0) as [c |] eqn:Hc; [| done]. cbn [mbind option_bind].
    destruct (rd g (0 + 1)) as [b |] eqn:Hb; [| done]. cbn [mbind option_bind].
    destruct (Z.eqb_spec c b) as [-> | Hcb]; cbn [negb].
    + destruct (whileUp g (length g) 0) as [p |] eqn:Hp; [| done].
      intros [= <-]. right.
      apply whileUp_Some in Hp as (Hle & a' & b' & Hp & Hp1 & Hne' & Hall).
      assert (a' = b) as ->.
      { pose proof (Hall 0 ltac:(lia)) as Hi. congruence. }
      assert (p ≠ 0) as Hp0 by (intros ->; congruence).
      pose proof (rd_Some_bound _ _ _ Hp1).
      exists b, b'. split; [done |]. split; [done |]. split; [by left |].
      split; [lia |]. split; [done |]. split; [congruence |].
      intros j Hj. apply Hall. lia.
    + intros [= <-]. left. split; [done |]. right. by exists c, b.
  - destruct (Z.eqb_spec index (N - 1)) as [-> | HneN].
    { intros [= <-]. left. split; [done |]. by left. }
    destruct (rd g index) as [c |] eqn:Hc; [| done]. cbn [mbind option_bind].
    destruct (rd g (index + 1)) as [b |] eqn:Hb; [| done]. cbn [mbind option_bind].
    destruct (Z.eqb_spec c b) as [-> | Hcb]; cbn [negb].
    + destruct (whileUp g (length g) index) as [p |] eqn:Hp; [| done].
      intros [= <-]. right.
      apply whileUp_Some in Hp as (Hle & a' & b' & Hp & Hp1 & Hne' & Hall).
      assert (a' = b) as ->.
      { pose proof (Hall index ltac:(lia)) as Hi. congruence. }
      assert (p ≠ index) as Hp0 by (intros ->; congruence).
      pose proof (rd_Some_bound _ _ _ Hp1).
      exists b, b'. split; [done |]. split; [done |]. split; [by right |].
      split; [lia |]. split; [done |]. split; [congruence |].
      intros j Hj. apply Hall. lia.
    + intros [= <-]. left. split; [done |]. right. by exists c, b.
Qed.

(** The downward scan stops inside the array when the first two keys
    differ, the upward scan when the last two do. *)
Lemma whileDown_total (g : list Z) (fuel : nat) (k : Z) :
  rd g 0 ≠ rd g 1 → 1 <= k < Z.of_nat (length g) → k <= Z.of_nat fuel →
  ∃ q, whileDown g fuel k = Some q.
Proof.
  intros H01. revert k. induction fuel as [| fuel IH]; intros k Hk Hf; [lia |].
  simpl.
  destruct (rd_is_Some g (k - 1)) as [a Ha]; [lia |].
  destruct (rd_is_Some g k) as [b Hb]; [lia |].
  rewrite Ha, Hb. cbn [mbind option_bind].
  destruct (Z.eqb_spec a b) as [-> | Hab]; [| by eexists].
  assert (k ≠ 1) as Hk1.
  { intros ->. apply H01. replace (1 - 1) with 0 in Ha by lia. congruence. }
  apply IH; lia.
Qed.

Lemma whileUp_total (g : list Z) (fuel : nat) (i : Z) :
  rd g (Z.of_nat (length g) - 2) ≠ rd g (Z.of_nat (length g) - 1) →
  0 <= i <= Z.of_nat (length g) - 2 → Z.of_nat (length g) - 2 - i <= Z.of_nat fuel →
  ∃ p, whileUp g fuel i = Some p.
Proof.
  intros Hlast. revert i. induction fuel as [| fuel IH]; intros i Hi Hf.
  - simpl.
    destruct (rd_is_Some g i) as [a Ha]; [lia |].
    destruct (rd_is_Some g (i + 1)) as [b Hb]; [lia |].
    rewrite Ha, Hb. cbn [mbind option_bind].
    destruct (Z.eqb_spec a b) as [-> | Hab]; [| by eexists].
    exfalso. apply Hlast. replace (Z.of_nat (length g) - 2) with i by lia.
    replace (Z.of_nat (length g) - 1) with (i + 1) by lia. congruence.
  - simpl.
    destruct (rd_is_Some g i) as [a Ha]; [lia |].
    destruct (rd_is_Some g (i + 1)) as [b Hb]; [lia |].
    rewrite Ha, Hb. cbn [mbind option_bind].
    destruct (Z.eqb_spec a b) as [-> | Hab]; [| by eexists].
    assert (i ≠ Z.of_nat (length g) - 2) as Hne.
    { intros ->. apply Hlast.
      replace (Z.of_nat (length g) - 1) with (Z.of_nat (length g) - 2 + 1) by lia.
      congruence. }
    apply IH; lia.
Qed.

Lemma whileDown_first_run (g : list Z) (fuel : nat) :
  rd g 0 = rd g 1 → whileDown g fuel 1 = None.
Proof.
  intros H01.
  assert (∀ f, whileDown g f 0 = None) as Hout by (by intros []).
  destruct fuel as [| fuel]; simpl; change (1 - 1) with 0.
  - destruct (rd g 0) as [a |]; [| done]. rewrite <- H01.
    cbn [mbind option_bind]. by rewrite Z.eqb_refl.
  - destruct (rd g 0) as [a |]; [| done]. rewrite <- H01.
    cbn [mbind option_bind]. rewrite Z.eqb_refl. apply Hout.
Qed.

Lemma whileUp_last_run (g : list Z) (fuel : nat) :
  rd g (Z.of_nat (length g) - 2) = rd g (Z.of_nat (length g) - 1) →
  whileUp g fuel (Z.of_nat (length g) - 2) = None.
Proof.
  intros Hlast. set (n := Z.of_nat (length g)) in *.
  assert (rd g (n - 2 + 1 + 1) = None) as Hout.
  { apply rd_None_out. right. lia. }
  replace (n - 1) with (n - 2 + 1) in Hlast by lia.
  destruct fuel as [| fuel]; simpl.
  - destruct (rd g (n - 2)) as [a |]; [| done]. rewrite <- Hlast.
    cbn [mbind option_bind]. by rewrite Z.eqb_refl.
  - destruct (rd g (n - 2)) as [a |]; [| done]. rewrite <- Hlast.
    cbn [mbind option_bind]. rewrite Z.eqb_refl.
    destruct fuel; simpl; rewrite Hout; by destruct (rd g (n - 2 + 1)).
Qed.

(** ** The cell range table, as a whole *)

Lemma kernIdentifyCellStartEnd_stores (N : Z) (g starts ends : list Z) :
  kernIdentifyCellStartEnd N g starts ends =
  forM (threads N)
    (λ i '(a, b),
       xy ← (b ← storedStart g i; e ← storedEnd N g i; Some (b, e));
       a ← wr a i xy.1; b ← wr b i xy.2; Some (a, b))
    (starts, ends).
Proof.
  unfold kernIdentifyCellStartEnd. apply forM_ext. intros i [a b] _.
  apply identifyCellStartEnd_stores.
Qed.

Lemma kernIdentifyCellStartEnd_Some (N : Z) (g starts ends starts' ends' : list Z) :
  kernIdentifyCellStartEnd N g starts ends = Some (starts', ends') →
  length starts' = length starts ∧ length ends' = length ends ∧
  (∀ i, 0 <= i < N →
     ∃ b e, storedStart g i = Some b ∧ storedEnd N g i = Some e ∧
            rd starts' i = Some b ∧ rd ends' i = Some e) ∧
  (∀ j, ¬ (0 <= j < N) → rd starts' j = rd starts j ∧ rd ends' j = rd ends j).
Proof.
  rewrite kernIdentifyCellStartEnd_stores.
  intros (Hls & Hle & Hin & Hout)%forM_own_slot2.
  split; [done |]. split; [done |]. split; [| done].
  intros i Hi. destruct (Hin i Hi) as (b & e & Hval & Hb & He).
  apply bind_Some in Hval as (b' & Hsb & Hval).
  apply bind_Some in Hval as (e' & Hse & [= -> ->]).
  by exists b, e.
Qed.

Lemma kernIdentifyCellStartEnd_is_Some (N : Z) (g starts ends : list Z) :
  (∀ i, 0 <= i < N → is_Some (storedStart g i) ∧ is_Some (storedEnd N g i)) →
  N <= Z.of_nat (length starts) → N <= Z.of_nat (length ends) →
  is_Some (kernIdentifyCellStartEnd N g starts ends).
Proof.
  intros Hval Hs He. rewrite kernIdentifyCellStartEnd_stores.
  apply forM_own_slot2_total; [| done | done].
  intros i Hi. destruct (Hval i Hi) as [[b ->] [e ->]]. by eexists.
Qed.

(** X7: what [kernIdentifyCellStartEnd] stores when it returns, for any
    keys.  A position whose left neighbour holds another key (or that is
    position 0) stores itself as start; a position whose right neighbour
    holds another key (or that is position [N - 1]) stores itself as end.
    A position with an equal key to its left stores as start the position
    before the first of its run of equal keys, and one with an equal key to
    its right stores as end the position after the last of its run: both
    hold another key.  Entries from [N] on are left as they were. *)
Theorem cell_range_table_values (N : Z) (g starts ends starts' ends' : list Z) :
  kernIdentifyCellStartEnd N g starts ends = Some (starts', ends') →
  length starts' = length starts ∧ length ends' = length ends ∧
  (∀ j, ¬ (0 <= j < N) → rd starts' j = rd starts j ∧ rd ends' j = rd ends j) ∧
  ∀ i, 0 <= i < N →
    ∃ c b e, rd g i = Some c ∧ rd starts' i = Some b ∧ rd ends' i = Some e ∧
      ((i = 0 ∨ rd g (i - 1) ≠ Some c) → b = i) ∧
      (i ≠ 0 → rd g (i - 1) = Some c →
         0 <= b < i - 1 ∧ (∃ c', rd g b = Some c' ∧ c' ≠ c) ∧
         ∀ j, b < j <= i → rd g j = Some c) ∧
      (((i ≠ 0 ∧ i = N - 1) ∨ rd g (i + 1) ≠ Some c) → e = i) ∧
      ((i = 0 ∨ i ≠ N - 1) → rd g (i + 1) = Some c →
         i + 1 < e < Z.of_nat (length g) ∧ (∃ c', rd g e = Some c' ∧ c' ≠ c) ∧
         ∀ j, i <= j < e → rd g j = Some c).
Proof.
  intros (Hls & Hle & Hin & Hout)%kernIdentifyCellStartEnd_Some.
  split; [done |]. split; [done |]. split; [done |].
  assert (∀ i, 0 <= i < N → ∃ c, rd g i = Some c) as Hkey.
  { intros i Hi. destruct (Hin i Hi) as (b & e & Hb & He & _).
    apply storedStart_Some in Hb. apply storedEnd_Some in He.
    destruct Hb as [[_ [-> | (a & c & _ & Hc & _)]] | (c & c' & _ & Hc & _)];
      [| by exists c ..].
    destruct He as [[_ [[? _] | (c & b' & Hc & _)]] | (c & c' & Hc & _)];
      [done | by exists c ..]. }
  intros i Hi. destruct (Hkey i Hi) as [c Hc].
  destruct (Hin i Hi) as (b & e & Hb & He & Hrb & Hre).
  exists c, b, e. split; [done |]. split; [done |]. split; [done |].
  apply storedStart_Some in Hb. apply storedEnd_Some in He.
  split; [| split; [| split]].
  - intros Hfirst.
    destruct Hb as [[-> _] | (c1 & c1' & Hl & Hc1 & Hne & _)]; [done |].
    destruct Hfirst as [-> | Hl']; [done |]. congruence.
  - intros Hne Hl.
    destruct Hb as [[-> [-> | (a & c1 & Ha & Hc1 & Hac)]] |
                    (c1 & c1' & Hl1 & Hc1 & _ & Hrange & Hb' & Hcc & Hall)];
      [done | congruence |].
    assert (c1 = c) as -> by congruence.
    split; [done |]. split; [by exists c1' | done].
  - intros Hlast.
    destruct He as [[-> _] | (c1 & c1' & Hc1 & Hr & Hor & _)]; [done |].
    destruct Hlast as [[? ->] | Hr']; [| congruence].
    by destruct Hor.
  - intros Hne Hr.
    destruct He as [[-> [[? ->] | (c1 & b1 & Hc1 & Hb1 & Hcb)]] |
                    (c1 & c1' & Hc1 & Hr1 & _ & Hrange & He' & Hcc & Hall)];
      [by destruct Hne | congruence |].
    assert (c1 = c) as -> by congruence.
    split; [done |]. split; [by exists c1' | done].
Qed.

Lemma cell_range_table_values_witness :
  kernIdentifyCellStartEnd 4 [0; 2; 2; 5] (replicate 4 (-9)) (replicate 4 (-9))
    = Some ([0; 1; 0; 3], [0; 3; 2; 3]) ∧
  ∃ c b e, rd [0; 2; 2; 5] 1 = Some c ∧ rd [0; 1; 0; 3] 1 = Some b ∧
    rd [0; 3; 2; 3] 1 = Some e ∧ b = 1 ∧ e = 3 ∧
    (∃ c', rd [0; 2; 2; 5] e = Some c' ∧ c' ≠ c).
Proof.
  split; [vm_compute; reflexivity |].
  destruct (cell_range_table_values 4 [0; 2; 2; 5] (replicate 4 (-9))
              (replicate 4 (-9)) [0; 1; 0; 3] [0; 3; 2; 3])
    as (_ & _ & _ & Hin); [vm_compute; reflexivity |].
  destruct (Hin 1) as (c & b & e & Hc & Hb & He & Hb1 & _ & _ & He2); [lia |].
  exists c, b, e. split; [exact Hc |]. split; [exact Hb |]. split; [exact He |].
  injection Hc as <-. injection Hb as <-. injection He as <-.
  split; [reflexivity |]. split; [reflexivity |].
  destruct He2 as (_ & Hc' & _); [right; lia | reflexivity | exact Hc'].
Defined.

Lemma kernIdentifyCellStartEnd_defined (N : Z) (g starts ends : list Z) :
  0 < N → Z.of_nat (length g) = N →
  N <= Z.of_nat (length starts) → N <= Z.of_nat (length ends) →
  is_Some (kernIdentifyCellStartEnd N g starts ends) ↔
  2 <= N ∧ rd g 0 ≠ rd g 1 ∧ rd g (N - 2) ≠ rd g (N - 1).
Proof.
  intros HN Hg Hs He. split.
  - intros [[starts' ends'] Hrun].
    apply kernIdentifyCellStartEnd_Some in Hrun as (_ & _ & Hin & _).
    assert (2 <= N) as HN2.
    { destruct (decide (2 <= N)) as [| Hlt]; [done |]. exfalso.
      assert (N = 1) as -> by lia.
      destruct (Hin 0) as (b & e & _ & Hse & _); [lia |].
      unfold storedEnd in Hse. change (0 =? 0) with true in Hse.
      cbn [negb andb] in Hse. change (0 + 1) with 1 in Hse.
      rewrite (rd_None_out g 1) in Hse by lia.
      by destruct (rd g 0). }
    split; [done |]. split.
    + intros H01. destruct (Hin 1) as (b & e & Hsb & _); [lia |].
      unfold storedStart in Hsb. change (1 =? 0) with false in Hsb.
      cbv iota in Hsb. change (1 - 1) with 0 in Hsb.
      rewrite <- H01 in Hsb. destruct (rd g 0) as [a |] eqn:Ha; [| done].
      cbn [mbind option_bind] in Hsb. rewrite Z.eqb_refl in Hsb. cbn [negb] in Hsb.
      rewrite whileDown_first_run in Hsb; [done | congruence].
    + intros Hlast. destruct (Hin (N - 2)) as (b & e & _ & Hse & _); [lia |].
      unfold storedEnd in Hse.
      destruct (Z.eqb_spec (N - 2) (N - 1)) as [? | _]; [lia |].
      rewrite andb_false_r in Hse.
      replace (N - 2 + 1) with (N - 1) in Hse by lia.
      rewrite <- Hlast in Hse. destruct (rd g (N - 2)) as [a |] eqn:Ha; [| done].
      cbn [mbind option_bind] in Hse. rewrite Z.eqb_refl in Hse. cbn [negb] in Hse.
      rewrite <- Hg in Hse at 1.
      rewrite whileUp_last_run in Hse; [done |]. rewrite Hg. congruence.
  - intros (HN2 & H01 & Hlast).
    apply kernIdentifyCellStartEnd_is_Some; [| done | done].
    intros i Hi. split.
    + unfold storedStart. destruct (Z.eqb_spec i 0); [by eexists |].
      destruct (rd_is_Some g (i - 1)) as [a ->]; [lia |].
      destruct (rd_is_Some g i) as [b ->]; [lia |]. cbn [mbind option_bind].
      destruct (negb (a =? b)); [by eexists |].
      destruct (whileDown_total g (length g) i) as [q ->]; [done | lia | lia |].
      by eexists.
    + unfold storedEnd.
      destruct (negb (i =? 0) && (i =? N - 1)) eqn:Hbr; [by eexists |].
      assert (i ≠ N - 1) as HiN.
      { intros ->. destruct (Z.eqb_spec (N - 1) 0); [lia |].
        by rewrite Z.eqb_refl in Hbr. }
      destruct (rd_is_Some g i) as [a ->]; [lia |].
      destruct (rd_is_Some g (i + 1)) as [b ->]; [lia |]. cbn [mbind option_bind].
      destruct (negb (a =? b)); [by eexists |].
      destruct (whileUp_total g (length g) i) as [p ->];
        [by rewrite Hg | lia | lia |].
      by eexists.
Qed.

(** X8: when [kernIdentifyCellStartEnd] stays inside the key array.  On an
    array of exactly [N] keys it does if and only if there are two keys at
    least, the first two differ and the last two differ: otherwise a scan
    runs past an end of the array (with one key, thread 0 reads the key
    after it). *)
Theorem cell_range_table_defined_iff (N : Z) (g starts ends : list Z) :
  0 < N → Z.of_nat (length g) = N →
  N <= Z.of_nat (length starts) → N <= Z.of_nat (length ends) →
  is_Some (kernIdentifyCellStartEnd N g starts ends) ↔
  2 <= N ∧ rd g 0 ≠ rd g 1 ∧ rd g (N - 2) ≠ rd g (N - 1).
Proof. apply kernIdentifyCellStartEnd_defined. Qed.

Lemma cell_range_table_defined_iff_witness :
  is_Some (kernIdentifyCellStartEnd 4 [0; 2; 2; 5] (replicate 4 0) (replicate 4 0)) ↔
  2 <= 4 ∧ rd [0; 2; 2; 5] 0 ≠ rd [0; 2; 2; 5] 1 ∧
  rd [0; 2; 2; 5] (4 - 2) ≠ rd [0; 2; 2; 5] (4 - 1).
Proof.
  apply (cell_range_table_defined_iff 4 [0; 2; 2; 5] (replicate 4 0) (replicate 4 0));
    simpl; lia.
Defined.

(** ** The cell head lookup, in general *)

Lemma renewGridCellIndex_cons (i : Z) (sched : list Z) (N : Z)
    (starts lookup keys : list Z) :
  renewGridCellIndex (i :: sched) N starts lookup keys =
  (lookup ← renewGridCellIndex [i] N starts lookup keys;
   renewGridCellIndex sched N starts lookup keys).
Proof.
  unfold renewGridCellIndex. simpl.
  destruct (i >=? N); [done |].
  destruct (rd keys i) as [c |]; [| done]. simpl.
  destruct (rd starts i) as [v |]; [| done]. simpl.
  by destruct (wr lookup c v).
Qed.

Lemma renewGridCellIndex_one (i N : Z) (starts lookup keys : list Z) :
  renewGridCellIndex [i] N starts lookup keys =
  if i >=? N then Some lookup else
  c ← rd keys i; v ← rd starts i; wr lookup c v.
Proof.
  unfold renewGridCellIndex. simpl.
  destruct (i >=? N); [done |].
  destruct (rd keys i) as [c |]; [| done]. simpl.
  destruct (rd starts i) as [v |]; [| done]. simpl.
  by destruct (wr lookup c v).
Qed.

Lemma wr_decide {A : Type} (a : list A) (i : Z) (x : A) :
  wr a i x = if decide (0 <= i < Z.of_nat (length a))
             then Some (<[Z.to_nat i := x]> a) else None.
Proof.
  unfold wr. destruct (Z.leb_spec 0 i), (Z.ltb_spec i (Z.of_nat (length a)));
    simpl; case_decide; (done || lia).
Qed.

Lemma wr_wr_comm {A : Type} (a : list A) (i j : Z) (x y : A) :
  (i = j → x = y) →
  (a ← wr a i x; wr a j y) = (a ← wr a j y; wr a i x).
Proof.
  intros Hxy. rewrite (wr_decide a i), (wr_decide a j).
  destruct (decide (0 <= i < Z.of_nat (length a))) as [Hi | Hi],
           (decide (0 <= j < Z.of_nat (length a))) as [Hj | Hj];
    cbn [mbind option_bind]; rewrite ?wr_decide, ?length_insert;
    repeat case_decide; try done; try lia.
  f_equal. destruct (decide (i = j)) as [-> | Hne].
  - by rewrite (Hxy eq_refl).
  - apply list_insert_insert_ne. lia.
Qed.

Lemma renewGridCellIndex_swap (x y N : Z) (starts lookup keys : list Z) :
  (∀ i j, 0 <= i < N → 0 <= j < N → rd keys i = rd keys j →
     rd starts i = rd starts j) →
  (l ← renewGridCellIndex [x] N starts lookup keys;
   renewGridCellIndex [y] N starts l keys) =
  (l ← renewGridCellIndex [y] N starts lookup keys;
   renewGridCellIndex [x] N starts l keys).
Proof.
  intros Hsame.
  assert (∀ l, renewGridCellIndex [x] N starts l keys =
    if x >=? N then Some l else c ← rd keys x; v ← rd starts x; wr l c v) as Hx
    by (intros; apply renewGridCellIndex_one).
  assert (∀ l, renewGridCellIndex [y] N starts l keys =
    if y >=? N then Some l else c ← rd keys y; v ← rd starts y; wr l c v) as Hy
    by (intros; apply renewGridCellIndex_one).
  rewrite (Hx lookup), (Hy lookup).
  destruct (Z.geb_spec x N) as [HxN | HxN].
  { cbn [mbind option_bind]. rewrite Hy.
    destruct (if y >=? N then _ else _) as [l |]; cbn [mbind option_bind]; [| done].
    rewrite Hx. by destruct (Z.geb_spec x N); [| lia]. }
  destruct (Z.geb_spec y N) as [HyN | HyN].
  { cbn [mbind option_bind]. rewrite Hx. destruct (Z.geb_spec x N); [lia |].
    destruct (c ← rd keys x; v ← rd starts x; wr lookup c v) as [l |];
      cbn [mbind option_bind]; [| done].
    rewrite Hy. by destruct (Z.geb_spec y N); [| lia]. }
  destruct (rd keys x) as [cx |] eqn:Hcx.
  2:{ cbn [mbind option_bind].
      destruct (c ← rd keys y; v ← rd starts y; wr lookup c v) as [l |];
        cbn [mbind option_bind]; [| done].
      rewrite Hx, ?Hcx. by destruct (x >=? N). }
  destruct (rd keys y) as [cy |] eqn:Hcy.
  2:{ cbn [mbind option_bind].
      destruct (rd starts x ≫= _) as [l |]; cbn [mbind option_bind]; [| done].
      rewrite Hy, ?Hcy. by destruct (y >=? N). }
  destruct (rd starts x) as [vx |] eqn:Hvx.
  2:{ cbn [mbind option_bind].
      destruct (rd starts y ≫= _) as [l |]; cbn [mbind option_bind]; [| done].
      rewrite Hx, ?Hcx, ?Hvx. by destruct (x >=? N). }
  destruct (rd starts y) as [vy |] eqn:Hvy.
  2:{ cbn [mbind option_bind].
      destruct (wr lookup cx vx) as [l |]; cbn [mbind option_bind]; [| done].
      rewrite Hy, ?Hcy, ?Hvy. by destruct (y >=? N). }
  cbn [mbind option_bind].
  transitivity (a ← wr lookup cx vx; wr a cy vy).
  { destruct (wr lookup cx vx) as [l |]; cbn [mbind option_bind]; [| done].
    rewrite Hy, ?Hcy, ?Hvy. by destruct (Z.geb_spec y N); [lia |]. }
  rewrite wr_wr_comm.
  { destruct (wr lookup cy vy) as [l |]; cbn [mbind option_bind]; [| done].
    rewrite Hx, ?Hcx, ?Hvx. by destruct (Z.geb_spec x N); [lia |]. }
  intros ->.
  pose proof (rd_Some_bound _ _ _ Hcx). pose proof (rd_Some_bound _ _ _ Hcy).
  assert (rd starts x = rd starts y) as Heq
    by (apply Hsame; [lia | lia | congruence]).
  congruence.
Qed.

Lemma renewGridCellIndex_cons2 (x y : Z) (sched : list Z) (N : Z)
    (starts lookup keys : list Z) :
  renewGridCellIndex (x :: y :: sched) N starts lookup keys =
  (lookup ← (lookup ← renewGridCellIndex [x] N starts lookup keys;
             renewGridCellIndex [y] N starts lookup keys);
   renewGridCellIndex sched N starts lookup keys).
Proof.
  rewrite (renewGridCellIndex_cons x (y :: sched)).
  destruct (renewGridCellIndex [x] N starts lookup keys) as [l1 |]; simpl; [| done].
  apply renewGridCellIndex_cons.
Qed.

(** X9: when all the sorted positions of a cell hold the same start value,
    the lookup [renewGridCellIndex] builds, and whether it is built at all,
    does not depend on the order in which the writes of the threads
    land. *)
Theorem cell_heads_order_independent (N : Z) (starts keys : list Z)
    (sched1 sched2 : list Z) (gridCellIndex : list Z) :
  (∀ i j, 0 <= i < N → 0 <= j < N → rd keys i = rd keys j →
     rd starts i = rd starts j) →
  sched1 ≡ₚ sched2 →
  renewGridCellIndex sched1 N starts gridCellIndex keys =
  renewGridCellIndex sched2 N starts gridCellIndex keys.
Proof.
  intros Hsame Hperm. revert gridCellIndex.
  induction Hperm as [| x l1 l2 _ IH | x y l | l1 l2 l3 _ IH1 _ IH2];
    intros lookup.
  - done.
  - rewrite (renewGridCellIndex_cons x l1), (renewGridCellIndex_cons x l2).
    destruct (renewGridCellIndex [x] N starts lookup keys); simpl; [apply IH | done].
  - rewrite (renewGridCellIndex_cons2 y x l), (renewGridCellIndex_cons2 x y l).
    by rewrite (renewGridCellIndex_swap y x N starts lookup keys Hsame).
  - by rewrite IH1, IH2.
Qed.

Lemma cell_heads_order_independent_witness :
  renewGridCellIndex [0; 1; 2] 3 [0; 0; 2] (replicate 8 (-1)) [3; 3; 5] =
  renewGridCellIndex [2; 1; 0] 3 [0; 0; 2] (replicate 8 (-1)) [3; 3; 5].
Proof.
  apply (cell_heads_order_independent 3 [0; 0; 2] [3; 3; 5] [0; 1; 2] [2; 1; 0]).
  - intros i j Hi Hj.
    assert (i = 0 ∨ i = 1 ∨ i = 2) as [-> | [-> | ->]] by lia;
    assert (j = 0 ∨ j = 1 ∨ j = 2) as [-> | [-> | ->]] by lia;
      vm_compute; congruence.
  - apply (Permutation_rev [0; 1; 2]).
Defined.

Lemma renewGridCellIndex_written (sched : list Z) (N : Z)
    (starts gridCellIndex keys lookup : list Z) :
  renewGridCellIndex sched N starts gridCellIndex keys = Some lookup →
  length lookup = length gridCellIndex ∧
  (∀ c, (∀ i, i ∈ sched → i < N → rd keys i ≠ Some c) →
        rd lookup c = rd gridCellIndex c) ∧
  (∀ i, i ∈ sched → i < N →
     ∃ c, rd keys i = Some c ∧ 0 <= c < Z.of_nat (length gridCellIndex) ∧
       ∃ i' v, i' ∈ sched ∧ 0 <= i' < N ∧ rd keys i' = Some c ∧
               rd starts i' = Some v ∧ rd lookup c = Some v).
Proof.
  intros Hrun.
  pose (P := λ (done : list Z) (l : list Z),
    length l = length gridCellIndex ∧
    (∀ c, (∀ i, i ∈ done → i < N → rd keys i ≠ Some c) →
          rd l c = rd gridCellIndex c) ∧
    (∀ i, i ∈ done → i < N →
       ∃ c, rd keys i = Some c ∧ 0 <= c < Z.of_nat (length gridCellIndex) ∧
         ∃ i' v, i' ∈ done ∧ 0 <= i' < N ∧ rd keys i' = Some c ∧
                 rd starts i' = Some v ∧ rd l c = Some v)).
  assert (P sched lookup) as HP; [| exact HP].
  unfold renewGridCellIndex in Hrun.
  apply (forM_ind P) in Hrun; [done | |].
  - split; [done |]. split; [done |]. intros i Hi. by apply elem_of_nil in Hi.
  - clear Hrun. intros done x l1 l2 Hx (Hlen & Hkeep & Hwr) Hbody.
    destruct (Z.geb_spec x N) as [HxN | HxN].
    + injection Hbody as <-. split; [done |]. split.
      * intros c Hc. apply Hkeep. intros i Hi. apply Hc, elem_of_app. by left.
      * intros i [Hi | Hi%list_elem_of_singleton]%elem_of_app HiN; [| lia].
        destruct (Hwr i Hi HiN) as (c & Hc & Hcb & i' & v & Hi' & ?).
        exists c. split; [done |]. split; [done |]. exists i', v.
        split; [apply elem_of_app; by left | done].
    + apply bind_Some in Hbody as (cx & Hcx & Hbody).
      apply bind_Some in Hbody as (vx & Hvx & Hw).
      pose proof (wr_length _ _ _ _ Hw) as Hl2.
      pose proof (proj1 (wr_Some _ _ _ _ Hw)) as Hcb.
      pose proof (rd_Some_bound _ _ _ Hcx) as Hxb.
      split; [congruence |]. split.
      * intros c Hc. rewrite (rd_wr_ne _ _ _ _ _ Hw).
        -- apply Hkeep. intros i Hi. apply Hc, elem_of_app. by left.
        -- intros ->. apply (Hc x); [| done | done].
           apply elem_of_app. right. by apply list_elem_of_singleton.
      * assert (∃ i' v, i' ∈ done ++ [x] ∧ 0 <= i' < N ∧ rd keys i' = Some cx ∧
                  rd starts i' = Some v ∧ rd l2 cx = Some v) as Hcx'.
        { exists x, vx. split; [apply elem_of_app; right;
                                by apply list_elem_of_singleton |].
          split; [lia |]. split; [done |]. split; [done |]. by eapply rd_wr_eq. }
        intros i [Hi | Hi%list_elem_of_singleton]%elem_of_app HiN.
        -- destruct (Hwr i Hi HiN) as (c & Hc & Hcb' & i' & v & Hi' & Hr).
           exists c. split; [done |]. split; [done |].
           destruct (decide (c = cx)) as [-> | Hne]; [done |].
           exists i', v. split; [apply elem_of_app; by left |].
           destruct Hr as (? & ? & ? & Hr).
           split; [done |]. split; [done |]. split; [done |].
           by rewrite (rd_wr_ne _ _ _ _ _ Hw).
        -- subst i. exists cx. split; [done |]. split; [lia | done].
Qed.

(** X10: after [renewGridCellIndex], a lookup entry whose cell is the key
    of no thread that ran is as it was; the entry of the key of a thread
    that ran holds the start value of one of the threads with that key; the
    lookup keeps its size. *)
Theorem cell_heads_written (sched : list Z) (N : Z)
    (starts gridCellIndex keys lookup : list Z) :
  renewGridCellIndex sched N starts gridCellIndex keys = Some lookup →
  length lookup = length gridCellIndex ∧
  (∀ c, (∀ i, i ∈ sched → i < N → rd keys i ≠ Some c) →
        rd lookup c = rd gridCellIndex c) ∧
  (∀ i, i ∈ sched → i < N →
     ∃ c, rd keys i = Some c ∧ 0 <= c < Z.of_nat (length gridCellIndex) ∧
       ∃ i' v, i' ∈ sched ∧ 0 <= i' < N ∧ rd keys i' = Some c ∧
               rd starts i' = Some v ∧ rd lookup c = Some v).
Proof. apply renewGridCellIndex_written. Qed.

Lemma cell_heads_written_witness :
  renewGridCellIndex [0; 1; 2] 3 [0; 0; 2] (replicate 8 (-1)) [3; 3; 5]
    = Some [-1; -1; -1; 0; -1; 2; -1; -1] ∧
  rd [-1; -1; -1; 0; -1; 2; -1; -1] 4 = rd (replicate 8 (-1)) 4.
Proof.
  split; [vm_compute; reflexivity |].
  destruct (cell_heads_written [0; 1; 2] 3 [0; 0; 2] (replicate 8 (-1)) [3; 3; 5]
              [-1; -1; -1; 0; -1; 2; -1; -1]) as (_ & Hkeep & _);
    [vm_compute; reflexivity |].
  apply Hkeep. intros i Hi _.
  apply elem_of_cons in Hi as [-> | Hi]; [vm_compute; congruence |].
  apply elem_of_cons in Hi as [-> | Hi]; [vm_compute; congruence |].
  apply elem_of_cons in Hi as [-> | Hi]; [vm_compute; congruence |].
  by apply elem_of_nil in Hi.
Defined.

(** ** The sort stage *)

Lemma insert_by_key_Sorted (kv : Z * Z) (l : list (Z * Z)) :
  Sorted (λ a b : Z * Z, a.1 <= b.1) l →
  Sorted (λ a b : Z * Z, a.1 <= b.1) (insert_by_key kv l).
Proof.
  induction l as [| kv' l IH]; intros Hs; simpl.
  - by repeat constructor.
  - destruct (Z.leb_spec kv.1 kv'.1) as [Hle | Hgt].
    + constructor; [done |]. by constructor.
    + apply Sorted_inv in Hs as [Hs Hhd]. constructor; [by apply IH |].
      destruct l as [| kv'' l]; simpl.
      * constructor. lia.
      * destruct (Z.leb_spec kv.1 kv''.1); constructor; [lia |].
        by apply HdRel_inv in Hhd.
Qed.

Lemma sort_pairs_Sorted (l : list (Z * Z)) :
  Sorted (λ a b : Z * Z, a.1 <= b.1) (sort_pairs l).
Proof.
  induction l as [| kv l IH]; simpl; [constructor |].
  by apply insert_by_key_Sorted.
Qed.

Lemma Sorted_adjacent {A : Type} (R : A → A → Prop) (l : list A) (k : nat) (a b : A) :
  Sorted R l → l !! k = Some a → l !! S k = Some b → R a b.
Proof.
  intros Hs. revert k. induction Hs as [| x l Hs IH Hhd]; intros k Ha Hb; [done |].
  destruct k as [| k]; simpl in *.
  - injection Ha as ->. destruct Hhd as [| y l' Hxy]; [done |].
    simpl in Hb. by injection Hb as ->.
  - by eapply IH.
Qed.

(** what [sort_by_key] returns: the first [N] keys in ascending order, each
    still beside the value it came with *)
Lemma sort_by_key_sorted (N : Z) (keys values keys' values' : list Z) (k : Z) :
  sort_by_key N keys values = Some (keys', values') →
  0 <= k → k + 1 < N →
  ∃ c c', rd keys' k = Some c ∧ rd keys' (k + 1) = Some c' ∧ c <= c'.
Proof.
  unfold sort_by_key.
  destruct (Z.ltb_spec (Z.of_nat (length keys)) N); [done |].
  destruct (Z.ltb_spec (Z.of_nat (length values)) N); [done |].
  simpl. intros [= <- <-] Hk Hk1.
  set (n := Z.to_nat N).
  set (s := sort_pairs (zip (take n keys) (take n values))).
  assert (length s = n) as Hls.
  { unfold s. rewrite (Permutation_length (sort_pairs_perm _)).
    rewrite length_zip, !length_take. lia. }
  destruct (lookup_lt_is_Some_2 s (Z.to_nat k)) as [a Ha]; [lia |].
  destruct (lookup_lt_is_Some_2 s (S (Z.to_nat k))) as [b Hb]; [lia |].
  exists a.1, b.1.
  rewrite !rd_lookup by lia.
  rewrite !lookup_app_l by (rewrite length_fmap; lia).
  rewrite !list_lookup_fmap.
  replace (Z.to_nat (k + 1)) with (S (Z.to_nat k)) by lia.
  rewrite Ha, Hb. split; [done |]. split; [done |].
  exact (Sorted_adjacent _ _ _ _ _ (sort_pairs_Sorted _) Ha Hb).
Qed.

Lemma sort_by_key_pairs (N : Z) (keys values keys' values' : list Z) (k : Z) :
  sort_by_key N keys values = Some (keys', values') →
  0 <= k < N →
  ∃ j c v, 0 <= j < N ∧ rd keys j = Some c ∧ rd values j = Some v ∧
           rd keys' k = Some c ∧ rd values' k = Some v.
Proof.
  unfold sort_by_key.
  destruct (Z.ltb_spec (Z.of_nat (length keys)) N); [done |].
  destruct (Z.ltb_spec (Z.of_nat (length values)) N); [done |].
  simpl. intros [= <- <-] Hk.
  set (n := Z.to_nat N).
  set (s := sort_pairs (zip (take n keys) (take n values))).
  assert (s ≡ₚ zip (take n keys) (take n values)) as Hs by apply sort_pairs_perm.
  assert (length s = n) as Hls.
  { rewrite (Permutation_length Hs), length_zip, !length_take. lia. }
  destruct (lookup_lt_is_Some_2 s (Z.to_nat k)) as [[c v] Ha]; [lia |].
  assert ((c, v) ∈ zip (take n keys) (take n values)) as Hin.
  { rewrite <- Hs. by eapply list_elem_of_lookup_2. }
  apply list_elem_of_lookup in Hin as (j & Hj).
  apply lookup_zip_with_Some in Hj as (c' & v' & [= <- <-] & Hc & Hv).
  apply lookup_take_Some in Hc as [Hc Hjn].
  apply lookup_take_Some in Hv as [Hv _].
  exists (Z.of_nat j), c, v. split; [lia |].
  rewrite !rd_nat. split; [done |]. split; [done |].
  rewrite !rd_lookup by lia.
  rewrite !lookup_app_l by (rewrite length_fmap; lia).
  rewrite !list_lookup_fmap, Ha. done.
Qed.

(** ** The tables a grid step builds *)

Lemma cudaMemcpy_length {A : Type} (dst src out : list A) (N : Z) :
  cudaMemcpy dst src N = Some out → length out = length dst.
Proof.
  intros (Hd & Hs & ->)%cudaMemcpy_Some.
  rewrite length_app, length_take, length_drop. lia.
Qed.

Lemma length_contents_store {A : Type} (b : buffer A) (d : list A) :
  length d = length (contents b) →
  length (contents (store b d)) = length (contents b).
Proof. intros Hd. by rewrite contents_store. Qed.

Lemma renewGridCellIndex_length (sched : list Z) (N : Z)
    (starts lookup keys lookup' : list Z) :
  renewGridCellIndex sched N starts lookup keys = Some lookup' →
  length lookup' = length lookup.
Proof.
  unfold renewGridCellIndex. intros Hrun.
  apply (forM_ind (λ _ l, length l = length lookup)) in Hrun; [done | done |].
  intros _ x l1 l2 _ Hl1 Hbody. destruct (x >=? N); [congruence |].
  apply bind_Some in Hbody as (c & _ & Hbody).
  apply bind_Some in Hbody as (v & _ & Hw). apply wr_length in Hw. congruence.
Qed.

Lemma InitializeGridCellIndex_Some (gridCellIndex lookup : list Z)
    (gridSideCount : Z) :
  InitializeGridCellIndex gridCellIndex gridSideCount = Some lookup →
  length lookup = length gridCellIndex ∧
  ∀ c, 0 <= c < gridSideCount * gridSideCount * gridSideCount →
       rd lookup c = Some (-1).
Proof.
  unfold InitializeGridCellIndex. rewrite forM_fill.
  set (M := gridSideCount * gridSideCount * gridSideCount).
  destruct (Z.leb_spec M (Z.of_nat (length gridCellIndex))); [| done].
  intros [= <-]. split.
  - rewrite length_app, length_replicate, length_drop. lia.
  - intros c Hc. rewrite rd_lookup by lia.
    rewrite lookup_app_l by (rewrite length_replicate; lia).
    apply lookup_replicate_2. lia.
Qed.

Section GridTables.
Context {F : Type} `{FloatOps F}.

(** the five launches of [buildGrid], one by one *)
Lemma buildGrid_Some (sched : list Z) (s : Sim F)
    (boidIndex gridCellnumber starts ends lookup : list Z) :
  buildGrid sched s = Some (boidIndex, gridCellnumber, starts, ends, lookup) →
  ∃ indices gridIndices lookup0,
    kernComputeIndices (numObjects s) (gridSideCount s) (gridMinimum s)
      (gridInverseCellWidth s) (contents (dev_pos s))
      (contents (devBoidIndex s)) (contents (devGridCellnumber s))
      = Some (indices, gridIndices) ∧
    InitializeGridCellIndex (contents (gridCellIndex s)) (gridSideCount s)
      = Some lookup0 ∧
    sort_by_key (numObjects s) gridIndices indices = Some (gridCellnumber, boidIndex) ∧
    kernIdentifyCellStartEnd (numObjects s) gridCellnumber
      (contents (dev_gridCellStartIndices s)) (contents (dev_gridCellEndIndices s))
      = Some (starts, ends) ∧
    renewGridCellIndex sched (numObjects s) starts lookup0 gridCellnumber
      = Some lookup.
Proof.
  unfold buildGrid. cbv zeta. intros Hgrid.
  apply bind_Some in Hgrid as ([indices gridIndices] & Hidx & Hgrid).
  apply bind_Some in Hgrid as (lookup0 & Hinit & Hgrid).
  apply bind_Some in Hgrid as ([gcn bi] & Hsort & Hgrid).
  apply bind_Some in Hgrid as ([st en] & Hrange & Hgrid).
  apply bind_Some in Hgrid as (lk & Hheads & [= <- <- <- <- <-]).
  by exists indices, gridIndices, lookup0.
Qed.

Lemma buildGrid_lengths (sched : list Z) (s : Sim F)
    (boidIndex gridCellnumber starts ends lookup : list Z) :
  buildGrid sched s = Some (boidIndex, gridCellnumber, starts, ends, lookup) →
  length boidIndex = length (contents (devBoidIndex s)) ∧
  length gridCellnumber = length (contents (devGridCellnumber s)) ∧
  length starts = length (contents (dev_gridCellStartIndices s)) ∧
  length ends = length (contents (dev_gridCellEndIndices s)) ∧
  length lookup = length (contents (gridCellIndex s)).
Proof.
  intros (indices & gridIndices & lookup0 & Hidx & Hinit & Hsort & Hrange & Hheads)
    %buildGrid_Some.
  apply kernComputeIndices_spec in Hidx as (Hli & Hlg & _).
  apply InitializeGridCellIndex_Some in Hinit as (Hl0 & _).
  apply sort_by_key_perm in Hsort as (Hlk & Hlv & _).
  apply kernIdentifyCellStartEnd_Some in Hrange as (Hls & Hle & _).
  apply renewGridCellIndex_length in Hheads.
  repeat split; congruence.
Qed.

(** what a step that returns leaves in the state *)
Lemma step_Done (st : strategy) (sched : list Z) (dt : F) (s s' : Sim F) :
  step st sched dt s = Done s' →
  numObjects s' = numObjects s ∧
  gridCellCount s' = gridCellCount s ∧ gridSideCount s' = gridSideCount s ∧
  gridCellWidth s' = gridCellWidth s ∧
  gridInverseCellWidth s' = gridInverseCellWidth s ∧
  gridMinimum s' = gridMinimum s ∧
  (∃ pos vel1 vel2,
     dev_pos s' = store (dev_pos s) pos ∧
     dev_vel1 s' = store (dev_vel1 s) vel1 ∧
     dev_vel2 s' = store (dev_vel2 s) vel2 ∧
     length pos = length (contents (dev_pos s)) ∧
     length vel2 = length (contents (dev_vel2 s)) ∧
     cudaMemcpy (contents (dev_vel1 s)) vel2 (numObjects s) = Some vel1) ∧
  match st with
  | Naive =>
      devBoidIndex s' = devBoidIndex s ∧
      devGridCellnumber s' = devGridCellnumber s ∧
      dev_gridCellStartIndices s' = dev_gridCellStartIndices s ∧
      dev_gridCellEndIndices s' = dev_gridCellEndIndices s ∧
      gridCellIndex s' = gridCellIndex s
  | _ =>
      ∃ boidIndex gridCellnumber starts ends lookup,
        buildGrid sched s = Some (boidIndex, gridCellnumber, starts, ends, lookup) ∧
        devBoidIndex s' = store (devBoidIndex s) boidIndex ∧
        devGridCellnumber s' = store (devGridCellnumber s) gridCellnumber ∧
        dev_gridCellStartIndices s' = store (dev_gridCellStartIndices s) starts ∧
        dev_gridCellEndIndices s' = store (dev_gridCellEndIndices s) ends ∧
        gridCellIndex s' = store (gridCellIndex s) lookup
  end.
Proof.
  destruct st; simpl; intros Hstep%run_Done.
  - apply bind_Some in Hstep as (vel2 & Hk & Hstep).
    apply bind_Some in Hstep as (pos & Hp & Hstep).
    apply bind_Some in Hstep as (vel1 & Hc & [= <-]). simpl.
    repeat (split; [done |]). split; [| done].
    exists pos, vel1, vel2. repeat (split; [done |]).
    apply kernUpdateVelocityBruteForce_spec in Hk as (Hl2 & _).
    apply kernUpdatePos_spec in Hp as (Hlp & _). done.
  - apply bind_Some in Hstep as ([[[[bi gcn] starts] ends] lookup] & Hgrid & Hstep).
    apply bind_Some in Hstep as (vel2 & Hk & Hstep).
    apply bind_Some in Hstep as (pos & Hp & Hstep).
    apply bind_Some in Hstep as (vel1 & Hc & [= <-]). simpl.
    repeat (split; [done |]). split.
    + exists pos, vel1, vel2. repeat (split; [done |]).
      apply kernUpdateVelNeighborSearchScattered_spec in Hk as (Hl2 & _).
      apply kernUpdatePos_spec in Hp as (Hlp & _). done.
    + by exists bi, gcn, starts, ends, lookup.
  - apply bind_Some in Hstep as ([[[[bi gcn] starts] ends] lookup] & Hgrid & Hstep).
    apply bind_Some in Hstep as ([rpos rvel] & Hre & Hstep).
    apply bind_Some in Hstep as (vel2 & Hk & Hstep).
    apply bind_Some in Hstep as (rpos' & Hp & Hstep).
    apply bind_Some in Hstep as (vel1 & Hc1 & Hstep).
    apply bind_Some in Hstep as (pos & Hc2 & [= <-]). simpl.
    repeat (split; [done |]). split.
    + exists pos, vel1, vel2. repeat (split; [done |]).
      apply kernUpdateVelNeighborSearchCoherent_spec in Hk as (Hl2 & _).
      apply cudaMemcpy_length in Hc2. done.
    + by exists bi, gcn, starts, ends, lookup.
Qed.

Lemma step_wellSized (st : strategy) (sched : list Z) (dt : F) (s s' : Sim F) :
  wellSized s → step st sched dt s = Done s' →
  wellSized s' ∧
  length (contents (gridCellIndex s')) = length (contents (gridCellIndex s)).
Proof.
  intros (HN & Hp & Hv1 & Hv2 & Hg & Hb & Hs & He) Hstep.
  apply step_Done in Hstep
    as (HN' & _ & _ & _ & _ & _ & (pos & vel1 & vel2 & Ep & E1 & E2 & Hlp & Hl2 & Hc)
        & Htab).
  apply cudaMemcpy_length in Hc.
  unfold wellSized. rewrite HN', Ep, E1, E2.
  rewrite !length_contents_store by done.
  destruct st.
  - destruct Htab as (-> & -> & -> & -> & ->). done.
  - destruct Htab as (bi & gcn & starts & ends & lookup & Hgrid & -> & -> & -> & -> & ->).
    apply buildGrid_lengths in Hgrid as (? & ? & ? & ? & ?).
    rewrite !length_contents_store by done. done.
  - destruct Htab as (bi & gcn & starts & ends & lookup & Hgrid & -> & -> & -> & -> & ->).
    apply buildGrid_lengths in Hgrid as (? & ? & ? & ? & ?).
    rewrite !length_contents_store by done. done.
Qed.
End GridTables.

(** ** Runs *)

Lemma simulate_Done {F : Type} `{FloatOps F}
    (calls : list (strategy * list Z * F)) (s s' : Sim F) :
  wellSized s → simulate calls s = Done s' → wellSized s' ∧ sameShape s s'.
Proof.
  revert s. induction calls as [| [[st sched] dt] calls IH]; intros s Hwf Hrun.
  - injection Hrun as <-. split; [done |]. by repeat split.
  - simpl in Hrun. apply obind_Done in Hrun as (s1 & Hstep & Hrun).
    destruct (step_wellSized _ _ _ _ _ Hwf Hstep) as [Hwf1 Hlk].
    apply step_Done in Hstep as (? & ? & ? & ? & ? & ? & _).
    destruct (IH s1 Hwf1 Hrun) as (Hwf' & ? & ? & ? & ? & ? & ? & ?).
    split; [done |]. repeat split; congruence.
Qed.

(** X11: every run of steps, of any strategies, from a state whose eight
    buffers hold [N] elements ends in such a state, with the same [N], the
    same grid parameters and a lookup of the same size. *)
Theorem run_keeps_buffer_sizes {F : Type} `{FloatOps F}
    (calls : list (strategy * list Z * F)) (s s' : Sim F) :
  wellSized s → simulate calls s = Done s' → wellSized s' ∧ sameShape s s'.
Proof. apply simulate_Done. Qed.

Lemma run_keeps_buffer_sizes_witness :
  wellSized twoBoids ∧
  simulate [(Scattered, [0; 1], f32 1)] twoBoids = Done twoBoidsScattered ∧
  wellSized twoBoidsScattered ∧ sameShape twoBoids twoBoidsScattered.
Proof.
  assert (simulate [(Scattered, [0; 1], f32 1)] twoBoids = Done twoBoidsScattered)
    as Hrun.
  { cbn [simulate step]. by rewrite twoBoids_scattered_step. }
  split; [exact twoBoids_wellSized |]. split; [exact Hrun |].
  exact (run_keeps_buffer_sizes _ _ _ twoBoids_wellSized Hrun).
Defined.

(** X12: the velocity buffers are not swapped: each step ends by copying
    [dev_vel2] over [dev_vel1], so that after a step of any strategy the
    two buffers hold the same velocities. *)
Theorem velocity_buffers_agree_after_step {F : Type} `{FloatOps F}
    (st : strategy) (sched : list Z) (dt : F) (s s' : Sim F) :
  wellSized s → step st sched dt s = Done s' →
  contents (dev_vel1 s') = contents (dev_vel2 s').
Proof.
  intros (HN & _ & Hv1 & Hv2 & _) Hstep.
  apply step_Done in Hstep
    as (_ & _ & _ & _ & _ & _ & (pos & vel1 & vel2 & _ & -> & -> & _ & Hl2 & Hc) & _).
  pose proof (cudaMemcpy_length _ _ _ _ Hc) as Hl1.
  rewrite !contents_store by done.
  apply cudaMemcpy_Some in Hc as (_ & _ & ->).
  rewrite take_ge by lia. rewrite drop_ge by lia. apply app_nil_r.
Qed.

Lemma velocity_buffers_agree_after_step_witness :
  wellSized twoBoids ∧
  step Scattered [0; 1] (f32 1) twoBoids = Done twoBoidsScattered ∧
  contents (dev_vel1 twoBoidsScattered) = contents (dev_vel2 twoBoidsScattered).
Proof.
  split; [exact twoBoids_wellSized |]. split; [exact twoBoids_scattered_step |].
  exact (velocity_buffers_agree_after_step Scattered [0; 1] (f32 1) twoBoids _
           twoBoids_wellSized twoBoids_scattered_step).
Defined.

(** X13: with one boid at least, [stepSimulationNaive] returns if and only
    if [dev_pos], [dev_vel1] and [dev_vel2] hold [N] elements each at
    least; when it does not return, its behaviour is undefined (it never
    exits with a message). *)
Theorem naive_step_defined_iff {F : Type} `{FloatOps F} (dt : F) (s : Sim F) :
  0 < numObjects s →
  ((∃ s', stepSimulationNaive dt s = Done s') ↔
   numObjects s <= Z.of_nat (length (contents (dev_pos s))) ∧
   numObjects s <= Z.of_nat (length (contents (dev_vel1 s))) ∧
   numObjects s <= Z.of_nat (length (contents (dev_vel2 s)))) ∧
  ((¬ ∃ s', stepSimulationNaive dt s = Done s') ↔
   stepSimulationNaive dt s = Undefined).
Proof.
  intros HN. split.
  - split.
    + intros [s' Hstep].
      apply stepSimulationNaive_Done in Hstep
        as (vel2 & pos & vel1 & Hk & _ & _).
      apply kernUpdateVelocityBruteForce_spec in Hk as (Hl2 & Hin & _).
      destruct (Hin (numObjects s - 1)) as (u & Hu & Hr); [lia |].
      apply rd_Some_bound in Hr.
      unfold computeVelocityChange in Hu.
      destruct (numObjects s - 1 >=? numObjects s); [done |].
      apply bind_Some in Hu as (p & Hp%rd_Some_bound & Hu).
      apply bind_Some in Hu as (v & Hv%rd_Some_bound & _).
      lia.
    + intros (Hp & Hv1 & Hv2). by apply stepSimulationNaive_total.
  - unfold stepSimulationNaive. cbv zeta.
    destruct (_ ≫= _) as [s' |]; simpl.
    + split; [intros Hno; exfalso; apply Hno; by eexists | done].
    + split; [done | by intros _ [s' ?]].
Qed.

Lemma naive_step_defined_iff_witness :
  0 < numObjects twoBoids ∧
  ((∃ s', stepSimulationNaive (f32 1) twoBoids = Done s') ↔
   numObjects twoBoids <= Z.of_nat (length (contents (dev_pos twoBoids))) ∧
   numObjects twoBoids <= Z.of_nat (length (contents (dev_vel1 twoBoids))) ∧
   numObjects twoBoids <= Z.of_nat (length (contents (dev_vel2 twoBoids)))).
Proof.
  assert (0 < numObjects twoBoids) as HN by (simpl; lia).
  split; [exact HN |].
  exact (proj1 (naive_step_defined_iff (f32 1) twoBoids HN)).
Defined.

(** X14: after an [initSimulation] that returned, any number of brute-force
    steps, with any time steps, returns, and leaves buffers of [N]
    elements. *)
Theorem naive_run_defined_after_initialisation {F : Type} `{FloatOps F}
    (rng : F → Z → vec3 F) (junkV : vec3 F) (junkI avail N : Z) (s0 : Sim F)
    (dts : list F) :
  0 < N →
  initSimulation rng junkV junkI avail N = Done s0 →
  ∃ s', simulate (naiveCalls dts) s0 = Done s' ∧ wellSized s' ∧ numObjects s' = N.
Proof.
  intros HN Hinit.
  apply initSimulation_Done in Hinit as (HN0 & Hwf & _); [| lia].
  rewrite <- HN0. clear HN HN0. revert s0 Hwf.
  induction dts as [| dt dts IH]; intros s Hwf; [by exists s |].
  destruct (stepSimulationNaive_total dt s) as [s1 Hstep].
  { destruct Hwf as (? & ? & _). lia. }
  { destruct Hwf as (? & _ & ? & _). lia. }
  { destruct Hwf as (? & _ & _ & ? & _). lia. }
  destruct (step_wellSized Naive [] dt s s1 Hwf Hstep) as [Hwf1 _].
  destruct (IH s1 Hwf1) as (s' & Hrun & Hwf' & HN').
  exists s'. split; [| split; [done |]].
  - simpl. change (step Naive [] dt s) with (stepSimulationNaive dt s).
    by rewrite Hstep.
  - rewrite HN'. by apply (step_Done Naive [] dt s s1) in Hstep as (? & _).
Qed.

Lemma naive_run_defined_after_initialisation_witness :
  ∃ s0 s' : Sim R,
    initSimulation (λ _ _, Vec3 0%R 0%R 0%R) (Vec3 0%R 0%R 0%R) 0 1000000 1
      = Done s0 ∧
    simulate (naiveCalls [1%R; 1%R]) s0 = Done s' ∧ wellSized s' ∧ numObjects s' = 1.
Proof.
  assert (∃ s0 : Sim R,
    initSimulation (λ _ _, Vec3 0%R 0%R 0%R) (Vec3 0%R 0%R 0%R) 0 1000000 1
      = Done s0) as [s0 Hinit].
  { eexists. unfold initSimulation. rewrite gridCellWidth_ideal, halfSideCount_ideal.
    reflexivity. }
  destruct (naive_run_defined_after_initialisation _ _ _ _ 1 s0 [1%R; 1%R]
              ltac:(lia) Hinit) as (s' & Hrun).
  by exists s0, s'.
Defined.

(** X15: with exactly one boid, a step of either grid strategy has
    undefined behaviour: thread 0 of [kernIdentifyCellStartEnd] compares
    its key with the key at position 1, past the end of the array. *)
Theorem grid_step_single_boid_undefined {F : Type} `{FloatOps F}
    (st : strategy) (sched : list Z) (dt : F) (s : Sim F) :
  st ≠ Naive → wellSized s → numObjects s = 1 →
  step st sched dt s = Undefined.
Proof.
  intros Hst (_ & _ & _ & _ & Hg & _) HN.
  assert (buildGrid sched s = None) as Hnone.
  { destruct (buildGrid sched s) as [[[[[bi gcn] starts] ends] lookup] |] eqn:Hgrid;
      [| done].
    exfalso.
    apply buildGrid_Some in Hgrid
      as (indices & gridIndices & lookup0 & Hidx & _ & Hsort & Hrange & _).
    apply kernComputeIndices_spec in Hidx as (_ & Hlg & _).
    apply sort_by_key_perm in Hsort as (Hlk & _).
    apply kernIdentifyCellStartEnd_Some in Hrange as (_ & _ & Hin & _).
    destruct (Hin 0) as (b & e & _ & He & _); [lia |].
    unfold storedEnd in He. change (0 =? 0) with true in He.
    cbn [negb andb] in He. change (0 + 1) with 1 in He.
    rewrite (rd_None_out gcn 1) in He by (rewrite Hlk, Hlg, Hg, HN; simpl; lia).
    by destruct (rd gcn 0). }
  destruct st; [done | |]; simpl.
  - unfold stepSimulationScatteredGrid. cbv zeta. by rewrite Hnone.
  - unfold stepSimulationCoherentGrid. cbv zeta. by rewrite Hnone.
Qed.

Lemma grid_step_single_boid_undefined_witness :
  wellSized oneBoid ∧ numObjects oneBoid = 1 ∧
  step Scattered [0] (f32 1) oneBoid = Undefined ∧
  step Coherent [0] (f32 1) oneBoid = Undefined.
Proof.
  assert (wellSized oneBoid) as Hwf.
  { unfold wellSized. simpl. repeat apply conj; (lia || reflexivity). }
  split; [exact Hwf |]. split; [reflexivity |]. split.
  - by apply (grid_step_single_boid_undefined Scattered [0] (f32 1) oneBoid).
  - by apply (grid_step_single_boid_undefined Coherent [0] (f32 1) oneBoid).
Defined.

(** X16: after a step of either grid strategy, the lookup entry of every
    cell of the grid that holds no boid is the empty marker -1. *)
Theorem empty_cells_keep_sentinel {F : Type} `{FloatOps F}
    (st : strategy) (sched : list Z) (dt : F) (s s' : Sim F) (c : Z) :
  st ≠ Naive → step st sched dt s = Done s' →
  0 <= c < gridSideCount s * gridSideCount s * gridSideCount s →
  (∀ k, 0 <= k < numObjects s → rd (contents (devGridCellnumber s')) k ≠ Some c) →
  rd (contents (gridCellIndex s')) c = Some (-1).
Proof.
  intros Hst Hstep Hc Hempty.
  apply step_Done in Hstep as (_ & _ & _ & _ & _ & _ & _ & Htab).
  destruct st; [done | |];
    destruct Htab as (bi & gcn & starts & ends & lookup & Hgrid & _ & Eg & _ & _ & El);
    rewrite Eg in Hempty; rewrite El;
    pose proof (buildGrid_lengths _ _ _ _ _ _ _ Hgrid) as (_ & Hlg & _ & _ & Hll);
    rewrite contents_store in Hempty by done; rewrite contents_store by done;
    apply buildGrid_Some in Hgrid
      as (indices & gridIndices & lookup0 & _ & Hinit & _ & _ & Hheads);
    apply InitializeGridCellIndex_Some in Hinit as (_ & Hreset);
    apply renewGridCellIndex_written in Hheads as (_ & Hkeep & _);
    (rewrite Hkeep; [by apply Hreset |]);
    intros i _ HiN; (destruct (decide (0 <= i)) as [Hi | Hi];
      [apply Hempty; lia | by rewrite rd_None_out by lia]).
Qed.

Lemma empty_cells_keep_sentinel_witness :
  step Scattered [0; 1] (f32 1) twoBoids = Done twoBoidsScattered ∧
  rd (contents (gridCellIndex twoBoidsScattered)) 0 = Some (-1).
Proof.
  split; [exact twoBoids_scattered_step |].
  apply (empty_cells_keep_sentinel Scattered [0; 1] (f32 1) twoBoids
           twoBoidsScattered 0); [done | exact twoBoids_scattered_step | | ].
  - vm_compute. split; congruence.
  - intros k Hk. assert (k = 0 ∨ k = 1) as [-> | ->] by (simpl in Hk; lia);
      vm_compute; congruence.
Defined.

(** ** Initialisation, in single precision and over the reals *)

Lemma gridCellWidth_b32 :
  Fmul (Flit 2 1) (std_max (std_max rule1Distance rule2Distance) rule3Distance)
  = f32 10.
Proof. vm_compute. reflexivity. Qed.

Lemma halfSideCount_b32 : Ftrunc (Fdiv scene_scale (f32 10)) + 1 = 11.
Proof. vm_compute. reflexivity. Qed.

(** X18: in single precision, [initSimulation] on a device with [avail]
    free bytes never has undefined behaviour; it returns when [avail]
    covers the eight buffers ([52 * N] bytes and 42592 for the lookup), and
    otherwise exits at the check after the first allocation that does not
    fit, with the line and the message of that check. *)
Theorem initSimulation_reports_first_failed_allocation
    (rng : spec_float → Z → vec3 spec_float) (junkV : vec3 spec_float)
    (junkI avail N : Z) :
  0 < N →
  match initSimulation rng junkV junkI avail N with
  | Done s => 52 * N + 42592 <= avail
  | Exited line msg =>
      (avail < 12 * N ∧
       line = 161 ∧ msg = "cudaMalloc dev_pos failed!"%string) ∨
      (12 * N <= avail < 24 * N ∧
       line = 164 ∧ msg = "cudaMalloc dev_vel1 failed!"%string) ∨
      (24 * N <= avail < 36 * N ∧
       line = 167 ∧ msg = "cudaMalloc dev_vel2 failed!"%string) ∨
      (36 * N <= avail < 40 * N ∧
       line = 194 ∧ msg = "cudaMalloc devGridCellnumber failed!"%string) ∨
      (40 * N <= avail < 44 * N ∧
       line = 197 ∧ msg = "cudaMalloc devBoidIndex failed!"%string) ∨
      (44 * N <= avail < 48 * N ∧
       line = 200 ∧ msg = "cudaMalloc gridStartIndecies failed!"%string) ∨
      (48 * N <= avail < 52 * N ∧
       line = 203 ∧ msg = "cudaMalloc gridEndIndecies failed!"%string) ∨
      (52 * N <= avail < 52 * N + 42592 ∧
       line = 206 ∧ msg = "cudaMalloc gridCellIndex failed!"%string)
  | Undefined => False
  end.
Proof.
  intros HN. unfold initSimulation.
  rewrite gridCellWidth_b32, halfSideCount_b32.
  destruct (kernGenerateRandomPosArray_spec rng 1 N
              (replicate (Z.to_nat N) junkV) scene_scale) as (pos & -> & _);
    [rewrite length_replicate; lia |].
  rewrite allocOrExit_eq.
  destruct (Z.leb_spec (N * 12) avail); cbn [obind]; [| left; split; [lia | by split]].
  rewrite allocOrExit_eq.
  destruct (Z.leb_spec (N * 12) (avail - N * 12)); cbn [obind];
    [| right; left; split; [lia | by split]].
  rewrite allocOrExit_eq.
  destruct (Z.leb_spec (N * 12) (avail - N * 12 - N * 12)); cbn [obind run];
    [| do 2 right; left; split; [lia | by split]].
  rewrite allocOrExit_eq.
  destruct (Z.leb_spec (N * 4) (avail - N * 12 - N * 12 - N * 12)); cbn [obind];
    [| do 3 right; left; split; [lia | by split]].
  rewrite allocOrExit_eq.
  destruct (Z.leb_spec (N * 4) (avail - N * 12 - N * 12 - N * 12 - N * 4));
    cbn [obind]; [| do 4 right; left; split; [lia | by split]].
  rewrite allocOrExit_eq.
  destruct (Z.leb_spec (N * 4) (avail - N * 12 - N * 12 - N * 12 - N * 4 - N * 4));
    cbn [obind]; [| do 5 right; left; split; [lia | by split]].
  rewrite allocOrExit_eq.
  destruct (Z.leb_spec (N * 4)
              (avail - N * 12 - N * 12 - N * 12 - N * 4 - N * 4 - N * 4));
    cbn [obind]; [| do 6 right; left; split; [lia | by split]].
  rewrite allocOrExit_eq.
  destruct (Z.leb_spec (2 * 11 * (2 * 11) * (2 * 11) * 4)
              (avail - N * 12 - N * 12 - N * 12 - N * 4 - N * 4 - N * 4 - N * 4));
    cbn [obind]; [lia | do 7 right; split; [lia | by split]].
Qed.

Lemma initSimulation_reports_first_failed_allocation_witness :
  initSimulation (λ _ _, v32 0 0 0) (v32 0 0 0) 0 100 4
    = Exited 167 "cudaMalloc dev_vel2 failed!"%string ∧
  24 * 4 <= 100 < 36 * 4.
Proof.
  pose proof (initSimulation_reports_first_failed_allocation
                (λ _ _, v32 0 0 0) (v32 0 0 0) 0 100 4 ltac:(lia)) as Hw.
  destruct (initSimulation (λ _ _, v32 0 0 0) (v32 0 0 0) 0 100 4)
    as [s | line msg |]; [lia | | destruct Hw].
  destruct Hw as [(? & _) | [(? & _) | [(? & -> & ->) | Hw]]]; [lia | lia | |].
  - split; [reflexivity | lia].
  - destruct Hw as [(? & _) | [(? & _) | [(? & _) | [(? & _) | (? & _)]]]]; lia.
Defined.



(** ** Cell ids and cell coordinates *)

(** X20: for cell coordinates inside the grid, [gridIndex3Dto1D] gives an
    id in [0, side^3), and the decoding at the head of [newUpdateVelocity]
    and of [CoherentUpDateVelocity] (two integer divisions and two
    subtractions) gives the three coordinates back. *)
Theorem cell_id_round_trip (x y z side : Z) :
  inGrid x y z side →
  0 <= gridIndex3Dto1D x y z side < side * side * side ∧
  ∃ gridIdx3Z gridIdx3Y,
    idiv (gridIndex3Dto1D x y z side) (side * side) = Some gridIdx3Z ∧
    idiv (gridIndex3Dto1D x y z side - gridIdx3Z * side * side) side
      = Some gridIdx3Y ∧
    gridIdx3Z = z ∧ gridIdx3Y = y ∧
    gridIndex3Dto1D x y z side - gridIdx3Z * side * side - gridIdx3Y * side = x.
Proof.
  intros (Hx & Hy & Hz). rewrite gridIndex3Dto1D_inside by done.
  unfold encode1D, idiv.
  assert (0 < side) as Hs by lia.
  assert (x + y * side + z * side ^ 2 = x + y * side + z * (side * side)) as ->
    by (f_equal; lia).
  assert ((x + y * side + z * (side * side)) ÷ (side * side) = z) as Hqz.
  { rewrite Z.quot_div_nonneg by nia.
    symmetry. apply (Z.div_unique_pos _ _ z (x + y * side)); nia. }
  split; [nia |].
  exists z, y.
  destruct (Z.eqb_spec (side * side) 0) as [? | _]; [nia |].
  destruct (Z.eqb_spec side 0) as [? | _]; [lia |].
  rewrite Hqz. split; [done |]. split.
  - f_equal. replace (x + y * side + z * (side * side) - z * side * side)
      with (x + y * side) by lia.
    rewrite Z.quot_div_nonneg by nia.
    symmetry. apply (Z.div_unique_pos _ _ y x); nia.
  - split; [done |]. split; [done |]. lia.
Qed.

Lemma cell_id_round_trip_witness :
  gridIndex3Dto1D 12 11 11 22 = 5578 ∧
  idiv 5578 (22 * 22) = Some 11 ∧ idiv (5578 - 11 * 22 * 22) 22 = Some 11 ∧
  5578 - 11 * 22 * 22 - 11 * 22 = 12.
Proof.
  destruct (cell_id_round_trip 12 11 11 22) as (_ & gz & gy & Hz & Hy & -> & -> & Hx);
    [unfold inGrid; lia |].
  split; [reflexivity |]. split; [exact Hz |]. split; [exact Hy | exact Hx].
Defined.

(** ** A boid with no other boid in reach, over the reals *)

Lemma forM_const {A S : Type} (l : list A) (body : A → S → option S) (s : S) :
  (∀ x, x ∈ l → body x s = Some s) → forM l body s = Some s.
Proof.
  induction l as [| x l IH]; intros Hb; [done |].
  simpl. rewrite Hb by left. simpl. apply IH. intros y Hy. apply Hb. by right.
Qed.





(** ** When a grid step stays inside its arrays *)

Lemma gridIndex3Dto1D_range (x y z side : Z) :
  gridIndex3Dto1D x y z side = -1 ∨
  0 <= gridIndex3Dto1D x y z side < side * side * side.
Proof.
  destruct (decide (inGrid x y z side)) as [Hin | Hout].
  - right. rewrite gridIndex3Dto1D_inside by done.
    destruct Hin as (? & ? & ?). unfold encode1D. nia.
  - left. by apply gridIndex3Dto1D_outside.
Qed.

Section GridSearchTotal.
Context {F : Type} `{FloatOps F}.

Lemma newUpdateVelocity_total (N index b : Z) (pos vel : list (vec3 F))
    (pai pgi starts ends lookup : list Z) (side width : Z) :
  tablesInRange N pai starts ends lookup side →
  0 <= index < N → 0 <= b < N →
  N <= Z.of_nat (length pos) → N <= Z.of_nat (length vel) →
  side ≠ 0 → is_Some (rd pgi index) →
  is_Some (newUpdateVelocity N index b pos vel pai pgi starts ends lookup
             side width).
Proof.
  intros (Hpai & Hrange & Hlookup) Hi Hb Hp Hv Hside [g Hg].
  unfold newUpdateVelocity.
  destruct (rd_is_Some pos b) as [p ->]; [lia |].
  destruct (rd_is_Some vel b) as [v ->]; [lia |].
  rewrite Hg. cbn [mbind option_bind].
  unfold idiv. destruct (Z.eqb_spec (side * side) 0) as [? | _]; [nia |].
  destruct (Z.eqb_spec side 0) as [? | _]; [done |]. cbn [mbind option_bind].
  destruct (Hrange index Hi) as (a & e & -> & -> & Ha & He).
  cbn [mbind option_bind].
  assert (∀ n, 0 <= n < N →
            ∃ b' q w, rd pai n = Some b' ∧ rd pos b' = Some q ∧ rd vel b' = Some w)
    as Hcand.
  { intros n Hn. destruct (Hpai n Hn) as (b' & Hb' & Hb'N).
    destruct (rd_is_Some pos b') as [q Hq]; [lia |].
    destruct (rd_is_Some vel b') as [w Hw]; [lia |].
    by exists b', q, w. }
  match goal with |- is_Some (forM ?l ?body ?s ≫= _) =>
    destruct (forM_is_Some l body s) as [t1 ->] end.
  { intros n t Hn%elem_of_zrange. destruct (negb (n =? index)); [| by eexists].
    destruct (Hcand n) as (b' & q & w & -> & Hq & Hw); [lia |].
    cbn [mbind option_bind]. rewrite Hq. cbn [mbind option_bind]. rewrite Hw.
    by eexists. }
  cbn [mbind option_bind].
  match goal with |- is_Some (forM ?l ?body ?s ≫= _) =>
    destruct (forM_is_Some l body s) as [t2 ->]; [| by eexists] end.
  intros j t _. apply forM_is_Some. intros k t' _. apply forM_is_Some.
  intros m t'' _. cbv zeta.
  destruct (gridIndex3Dto1D_range j k m side) as [-> | Hc]; [by eexists |].
  destruct (negb (_ =? -1)); [| by eexists].
  destruct (negb (_ =? _)); [| by eexists].
  destruct (Hlookup _ Hc) as (h & -> & Hh). cbn [mbind option_bind].
  destruct (Z.eqb_spec h (-1)) as [-> | Hne]; cbn [negb]; [by eexists |].
  destruct Hh as [? | Hh]; [done |].
  destruct (Hrange h Hh) as (a' & e' & _ & -> & _ & He').
  cbn [mbind option_bind]. apply forM_is_Some.
  intros n t3 Hn%elem_of_zrange.
  destruct (Hcand n) as (b' & q & w & -> & Hq & Hw); [lia |].
  cbn [mbind option_bind]. rewrite Hq. cbn [mbind option_bind]. rewrite Hw.
  by eexists.
Qed.

Lemma kernUpdateVelNeighborSearchScattered_total (N : Z)
    (starts ends pai pgi lookup : list Z) (side width : Z)
    (pos vel1 vel2 : list (vec3 F)) :
  tablesInRange N pai starts ends lookup side →
  N <= Z.of_nat (length pos) → N <= Z.of_nat (length vel1) →
  N <= Z.of_nat (length vel2) → N <= Z.of_nat (length pgi) → side ≠ 0 →
  is_Some (kernUpdateVelNeighborSearchScattered N starts ends pai pgi lookup
             side width pos vel1 vel2).
Proof.
  intros Htab Hp Hv1 Hv2 Hg Hside. unfold kernUpdateVelNeighborSearchScattered.
  destruct (forM_total (λ a : list (vec3 F), length a = length vel2) (threads N)
    (λ index vel2,
       boidIndex ← rd pai index;
       updatedVel ← newUpdateVelocity N index boidIndex pos vel1 pai pgi
                      starts ends lookup side width;
       wr vel2 boidIndex (clampSpeed updatedVel)) vel2) as (a & -> & _);
    [done | | by eexists].
  intros i a Hi%elem_of_threads Hla.
  destruct Htab as (Hpai & Hrest).
  destruct (Hpai i Hi) as (b & -> & Hb). cbn [mbind option_bind].
  destruct (newUpdateVelocity_total N i b pos vel1 pai pgi starts ends lookup
              side width) as [u ->]; try done.
  { apply rd_is_Some. lia. }
  cbn [mbind option_bind]. rewrite wr_in_bounds by lia.
  eexists. split; [done |]. by rewrite length_insert.
Qed.
End GridSearchTotal.

Lemma sort_by_key_monotone (N : Z) (keys values keys' values' : list Z) (k k' : Z) :
  sort_by_key N keys values = Some (keys', values') →
  0 <= k <= k' → k' < N →
  ∃ c c', rd keys' k = Some c ∧ rd keys' k' = Some c' ∧ c <= c'.
Proof.
  intros Hsort Hk Hk'.
  assert (∀ d : nat, k + Z.of_nat d < N →
            ∃ c c', rd keys' k = Some c ∧ rd keys' (k + Z.of_nat d) = Some c' ∧
                    c <= c') as Hgen.
  { induction d as [| d IH]; intros Hd.
    - destruct (sort_by_key_pairs _ _ _ _ _ k Hsort) as (_ & c & _ & _ & _ & _ & Hc & _);
        [lia |].
      exists c, c. rewrite Z.add_0_r. by repeat split.
    - destruct IH as (c & c1 & Hc & Hc1 & Hle); [lia |].
      destruct (sort_by_key_sorted _ _ _ _ _ (k + Z.of_nat d) Hsort)
        as (c1' & c2 & Hc1' & Hc2 & Hle'); [lia | lia |].
      exists c, c2. split; [done |].
      replace (k + Z.of_nat (S d)) with (k + Z.of_nat d + 1) by lia.
      split; [done |]. assert (c1 = c1') by congruence. lia. }
  destruct (Hgen (Z.to_nat (k' - k))) as (c & c' & Hc & Hc' & Hle); [lia |].
  replace (k + Z.of_nat (Z.to_nat (k' - k))) with k' in Hc' by lia.
  by exists c, c'.
Qed.

Section GridStages.
Context {F : Type} `{FloatOps F}.

(** the sorted arrays of a grid step, as the indexer and the sort leave
    them *)
Lemma sorted_arrays (s : Sim F) (indices gridIndices gcn bi : list Z) :
  wellSized s →
  kernComputeIndices (numObjects s) (gridSideCount s) (gridMinimum s)
    (gridInverseCellWidth s) (contents (dev_pos s))
    (contents (devBoidIndex s)) (contents (devGridCellnumber s))
    = Some (indices, gridIndices) →
  sort_by_key (numObjects s) gridIndices indices = Some (gcn, bi) →
  bi ≡ₚ threads (numObjects s) ∧
  Z.of_nat (length gcn) = numObjects s ∧
  (∀ k, 0 <= k < numObjects s →
     ∃ b p, rd bi k = Some b ∧ 0 <= b < numObjects s ∧
            rd (contents (dev_pos s)) b = Some p ∧ rd gcn k = Some (cellOf s p)) ∧
  (∀ k k', 0 <= k <= k' → k' < numObjects s →
     ∃ c c', rd gcn k = Some c ∧ rd gcn k' = Some c' ∧ c <= c').
Proof.
  intros (HN & _ & _ & _ & Hlg & Hlb & _) Hidx Hsort.
  pose proof Hidx as (Hli & Hlgi & Hin & _)%kernComputeIndices_spec.
  pose proof Hsort as (Hlk & Hlv & _ & Hperm)%sort_by_key_perm.
  split.
  { rewrite <- (identity_array (numObjects s) indices).
    - rewrite !take_ge in Hperm by lia. done.
    - lia.
    - intros i Hi. by destruct (Hin i Hi) as (p & _ & Hr & _). }
  split; [lia |]. split.
  - intros k Hk.
    destruct (sort_by_key_pairs _ _ _ _ _ k Hsort Hk)
      as (j & c & v & Hj & Hc & Hv & Hck & Hvk).
    destruct (Hin j Hj) as (p & Hp & Hij & Hgj).
    rewrite Hij in Hv. injection Hv as <-. rewrite Hgj in Hc. injection Hc as <-.
    by exists j, p.
  - intros k k' Hk Hk'. by eapply sort_by_key_monotone.
Qed.

(** The first two sorted keys differ and the last two differ exactly when
    one boid is alone in the lowest occupied cell and one in the highest. *)
Lemma sorted_ends_alone (s : Sim F) (gcn bi : list Z) :
  wellSized s → 2 <= numObjects s →
  bi ≡ₚ threads (numObjects s) →
  (∀ k, 0 <= k < numObjects s →
     ∃ b p, rd bi k = Some b ∧ 0 <= b < numObjects s ∧
            rd (contents (dev_pos s)) b = Some p ∧ rd gcn k = Some (cellOf s p)) →
  (∀ k k', 0 <= k <= k' → k' < numObjects s →
     ∃ c c', rd gcn k = Some c ∧ rd gcn k' = Some c' ∧ c <= c') →
  (rd gcn 0 ≠ rd gcn 1 ∧ rd gcn (numObjects s - 2) ≠ rd gcn (numObjects s - 1)) ↔
  (∃ lo, aloneAtEnd true s lo) ∧ (∃ hi, aloneAtEnd false s hi).
Proof.
  intros Hwf HN Hperm Hcell Hmono. set (N := numObjects s) in *.
  assert (∀ k k' b, rd bi k = Some b → rd bi k' = Some b → k = k') as Hinj.
  { intros k k' b Hk Hk'.
    pose proof (rd_Some_bound _ _ _ Hk). pose proof (rd_Some_bound _ _ _ Hk').
    rewrite rd_lookup in Hk, Hk' by lia.
    assert (NoDup bi) as Hnd by (rewrite Hperm; apply NoDup_threads).
    pose proof (NoDup_lookup _ _ _ _ Hnd Hk Hk'). lia. }
  assert (∀ j, 0 <= j < N → ∃ k, 0 <= k < N ∧ rd bi k = Some j) as Hsurj.
  { intros j Hj.
    assert (j ∈ bi) as (k & Hk)%list_elem_of_lookup
      by (rewrite Hperm; by apply elem_of_threads).
    pose proof (lookup_lt_Some _ _ _ Hk) as Hlt.
    rewrite Hperm, threads_length in Hlt.
    exists (Z.of_nat k). split; [lia |]. by rewrite rd_nat. }
  assert (∀ j q, 0 <= j < N → rd (contents (dev_pos s)) j = Some q →
            ∃ k, 0 <= k < N ∧ rd bi k = Some j ∧ rd gcn k = Some (cellOf s q))
    as Hplace.
  { intros j q Hj Hq. destruct (Hsurj j Hj) as (k & Hk & Hbk).
    exists k. split; [done |]. split; [done |].
    destruct (Hcell k Hk) as (b & p & Hb & _ & Hp & Hg). congruence. }
  split.
  - intros [H01 Hlast]. split.
    + destruct (Hcell 0) as (b0 & p0 & Hb0 & Hb0N & Hp0 & Hg0); [lia |].
      exists b0. split; [done |]. exists p0. split; [done |].
      intros j q Hj Hne Hq.
      destruct (Hplace j q Hj Hq) as (k & Hk & Hbk & Hgk).
      assert (k ≠ 0) as Hk0 by (intros ->; congruence).
      destruct (Hmono 0 1) as (c0 & c1 & Hc0 & Hc1 & Hle01); [lia | lia |].
      destruct (Hmono 1 k) as (c1' & ck & Hc1' & Hck & Hle1k); [lia | lia |].
      assert (c0 ≠ c1) by congruence.
      assert (c1' = c1) by congruence.
      assert (c0 = cellOf s p0) by congruence.
      assert (ck = cellOf s q) by congruence. lia.
    + destruct (Hcell (N - 1)) as (b0 & p0 & Hb0 & Hb0N & Hp0 & Hg0); [lia |].
      exists b0. split; [done |]. exists p0. split; [done |].
      intros j q Hj Hne Hq.
      destruct (Hplace j q Hj Hq) as (k & Hk & Hbk & Hgk).
      assert (k ≠ N - 1) as Hk0 by (intros ->; congruence).
      destruct (Hmono (N - 2) (N - 1)) as (c0 & c1 & Hc0 & Hc1 & Hle01);
        [lia | lia |].
      destruct (Hmono k (N - 2)) as (ck & c0' & Hck & Hc0' & Hlek); [lia | lia |].
      assert (c0 ≠ c1) by congruence.
      assert (c0' = c0) by congruence.
      assert (c1 = cellOf s p0) by congruence.
      assert (ck = cellOf s q) by congruence. lia.
  - intros [(lo & Hlo & plo & Hplo & Hlow) (hi & Hhi & phi & Hphi & Hhigh)]. split.
    + destruct (Hcell 0) as (b0 & p0 & Hb0 & Hb0N & Hp0 & Hg0); [lia |].
      destruct (Hcell 1) as (b1 & p1 & Hb1 & Hb1N & Hp1 & Hg1); [lia |].
      assert (b0 ≠ b1) as Hb01.
      { intros ->. pose proof (Hinj _ _ _ Hb0 Hb1). lia. }
      rewrite Hg0, Hg1. intros [= Heq].
      destruct (decide (b0 = lo)) as [-> | Hne0].
      * assert (p0 = plo) as -> by congruence.
        pose proof (Hlow b1 p1 Hb1N ltac:(done) Hp1) as Hlt. simpl in Hlt. lia.
      * pose proof (Hlow b0 p0 Hb0N Hne0 Hp0) as Hlt. simpl in Hlt.
        destruct (Hplace lo plo Hlo Hplo) as (k & Hk & _ & Hgk).
        destruct (Hmono 0 k) as (c0 & ck & Hc0 & Hck & Hle); [lia | lia |].
        assert (c0 = cellOf s p0) by congruence.
        assert (ck = cellOf s plo) by congruence. lia.
    + destruct (Hcell (N - 2)) as (b0 & p0 & Hb0 & Hb0N & Hp0 & Hg0); [lia |].
      destruct (Hcell (N - 1)) as (b1 & p1 & Hb1 & Hb1N & Hp1 & Hg1); [lia |].
      assert (b0 ≠ b1) as Hb01.
      { intros ->. pose proof (Hinj _ _ _ Hb0 Hb1). lia. }
      rewrite Hg0, Hg1. intros [= Heq].
      destruct (decide (b1 = hi)) as [-> | Hne1].
      * assert (p1 = phi) as -> by congruence.
        pose proof (Hhigh b0 p0 Hb0N ltac:(done) Hp0) as Hlt. simpl in Hlt. lia.
      * pose proof (Hhigh b1 p1 Hb1N Hne1 Hp1) as Hlt. simpl in Hlt.
        destruct (Hplace hi phi Hhi Hphi) as (k & Hk & _ & Hgk).
        destruct (Hmono k (N - 1)) as (ck & c1 & Hck & Hc1 & Hle); [lia | lia |].
        assert (c1 = cellOf s p1) by congruence.
        assert (ck = cellOf s phi) by congruence. lia.
Qed.
End GridStages.

Lemma range_table_in_range (N : Z) (gcn starts0 ends0 starts ends : list Z) :
  kernIdentifyCellStartEnd N gcn starts0 ends0 = Some (starts, ends) →
  Z.of_nat (length gcn) = N →
  ∀ k, 0 <= k < N →
    ∃ a e, rd starts k = Some a ∧ rd ends k = Some e ∧ 0 <= a < N ∧ 0 <= e < N.
Proof.
  intros (_ & _ & Hin & _)%kernIdentifyCellStartEnd_Some Hlen k Hk.
  destruct (Hin k Hk) as (a & e & Ha & He & Hra & Hre).
  exists a, e. split; [done |]. split; [done |].
  apply storedStart_Some in Ha. apply storedEnd_Some in He. split.
  - destruct Ha as [[-> _] | (_ & _ & _ & _ & _ & ? & _)]; lia.
  - destruct He as [[-> _] | (_ & _ & _ & _ & _ & ? & _)]; lia.
Qed.

Lemma lookup_in_range (sched : list Z) (N side : Z)
    (lookup00 lookup0 lookup starts gcn : list Z) :
  InitializeGridCellIndex lookup00 side = Some lookup0 →
  renewGridCellIndex sched N starts lookup0 gcn = Some lookup →
  (∀ k, 0 <= k < N → ∃ a, rd starts k = Some a ∧ 0 <= a < N) →
  ∀ c, 0 <= c < side * side * side →
    ∃ h, rd lookup c = Some h ∧ (h = -1 ∨ 0 <= h < N).
Proof.
  intros (_ & Hreset)%InitializeGridCellIndex_Some
         (_ & Hkeep & Hwr)%renewGridCellIndex_written Hstarts c Hc.
  destruct (decide (Exists (λ i, i < N ∧ rd gcn i = Some c) sched)) as [Hex | Hno].
  - apply Exists_exists in Hex as (i & Hi & HiN & Hci).
    destruct (Hwr i Hi HiN) as (c' & Hc' & _ & i' & v & _ & Hi' & _ & Hv & Hr).
    assert (c' = c) as -> by congruence.
    exists v. split; [done |]. right.
    destruct (Hstarts i' Hi') as (a & Ha & HaN). congruence.
  - exists (-1). split; [| by left]. rewrite Hkeep; [by apply Hreset |].
    intros i Hi HiN Hci. apply Hno, Exists_exists. by exists i.
Qed.

Section GridStepDefined.
Context {F : Type} `{FloatOps F}.

(** the tables of a grid step that got as far as building them *)
Lemma buildGrid_tables (sched : list Z) (s : Sim F)
    (bi gcn starts ends lookup : list Z) :
  wellSized s →
  buildGrid sched s = Some (bi, gcn, starts, ends, lookup) →
  tablesInRange (numObjects s) bi starts ends lookup (gridSideCount s) ∧
  Z.of_nat (length gcn) = numObjects s ∧
  Z.of_nat (length bi) = numObjects s ∧
  ((∃ lo, aloneAtEnd true s lo) ∧ (∃ hi, aloneAtEnd false s hi) ∨
   numObjects s < 2).
Proof.
  intros Hwf Hgrid.
  pose proof (buildGrid_lengths _ _ _ _ _ _ _ Hgrid) as (Hlb & _).
  apply buildGrid_Some in Hgrid
    as (indices & gridIndices & lookup0 & Hidx & Hinit & Hsort & Hrange & Hheads).
  destruct (sorted_arrays s _ _ _ _ Hwf Hidx Hsort) as (Hperm & Hlg & Hcell & Hmono).
  pose proof (range_table_in_range _ _ _ _ _ _ Hrange Hlg) as Hse.
  split; [split; [| split] |].
  - intros k Hk. destruct (Hcell k Hk) as (b & p & Hb & HbN & _). by exists b.
  - intros k Hk. destruct (Hse k Hk) as (a & e & Ha & He & ? & ?).
    exists a, e. repeat split; (done || lia).
  - eapply lookup_in_range; [done | done |].
    intros k Hk. destruct (Hse k Hk) as (a & e & Ha & _ & ? & _). by exists a.
  - split; [done |]. split.
    { destruct Hwf as (_ & _ & _ & _ & _ & Hb & _). lia. }
    destruct (decide (numObjects s < 2)) as [| HN]; [by right | left].
    apply (sorted_ends_alone s gcn bi); [done | lia | done | done | done |].
    assert (is_Some (kernIdentifyCellStartEnd (numObjects s) gcn
                       (contents (dev_gridCellStartIndices s))
                       (contents (dev_gridCellEndIndices s)))) as Hsome
      by (by eexists).
    destruct Hwf as (_ & _ & _ & _ & _ & _ & Hs & He).
    apply kernIdentifyCellStartEnd_defined in Hsome as (_ & ? & ?);
      [done | lia | done | lia | lia].
Qed.

(** the tables get built when a boid is alone at either end of the sorted
    order and every boid is in the grid *)
Lemma buildGrid_total (sched : list Z) (s : Sim F) :
  wellSized s → 2 <= numObjects s →
  gridSideCount s * gridSideCount s * gridSideCount s
    <= Z.of_nat (length (contents (gridCellIndex s))) →
  (∀ i, i ∈ sched → 0 <= i) →
  (∀ i p, rd (contents (dev_pos s)) i = Some p → cellOf s p ≠ -1) →
  (∃ lo, aloneAtEnd true s lo) → (∃ hi, aloneAtEnd false s hi) →
  is_Some (buildGrid sched s).
Proof.
  intros Hwf HN Hlk Hsched Hgrid Hlo Hhi.
  pose proof Hwf as (_ & Hlp & _ & _ & Hlg & Hlb & Hls & Hle).
  unfold buildGrid. cbv zeta.
  destruct (kernComputeIndices_total (numObjects s) (gridSideCount s)
              (gridMinimum s) (gridInverseCellWidth s) (contents (dev_pos s))
              (contents (devBoidIndex s)) (contents (devGridCellnumber s)))
    as [[indices gridIndices] Hidx]; [lia .. |].
  rewrite Hidx. cbn [mbind option_bind].
  pose proof Hidx as (Hli & Hlgi & Hin & _)%kernComputeIndices_spec.
  unfold InitializeGridCellIndex at 1. rewrite forM_fill.
  destruct (Z.leb_spec (gridSideCount s * gridSideCount s * gridSideCount s)
              (Z.of_nat (length (contents (gridCellIndex s))))); [| lia].
  cbn [mbind option_bind].
  destruct (sort_by_key (numObjects s) gridIndices indices) as [[gcn bi] |] eqn:Hsort.
  2:{ unfold sort_by_key in Hsort.
      destruct (Z.ltb_spec (Z.of_nat (length gridIndices)) (numObjects s)); [lia |].
      destruct (Z.ltb_spec (Z.of_nat (length indices)) (numObjects s)); [lia |].
      done. }
  cbn [mbind option_bind].
  destruct (sorted_arrays s _ _ _ _ Hwf Hidx Hsort) as (Hperm & Hlgcn & Hcell & Hmono).
  destruct (kernIdentifyCellStartEnd (numObjects s) gcn
              (contents (dev_gridCellStartIndices s))
              (contents (dev_gridCellEndIndices s))) as [[starts ends] |] eqn:Hrange.
  2:{ exfalso.
      assert (is_Some (kernIdentifyCellStartEnd (numObjects s) gcn
                (contents (dev_gridCellStartIndices s))
                (contents (dev_gridCellEndIndices s)))) as [x Hx]; [| congruence].
      apply kernIdentifyCellStartEnd_defined; [lia | done | lia | lia |].
      split; [done |].
      by apply (sorted_ends_alone s gcn bi). }
  cbn [mbind option_bind].
  pose proof (range_table_in_range _ _ _ _ _ _ Hrange Hlgcn) as Hse.
  match goal with |- is_Some (?m ≫= _) => assert (is_Some m) as [lookup ->] end;
    [| by eexists].
  apply renewGridCellIndex_total; [done | |].
  - intros i Hi. destruct (Hse i Hi) as (a & _ & -> & _). by eexists.
  - intros i Hi. destruct (Hcell i Hi) as (b & p & _ & _ & Hp & Hc).
    eexists. split; [exact Hc |].
    rewrite length_app, length_replicate, length_drop.
    pose proof (Hgrid b p Hp) as Hne.
    destruct (gridIndex3Dto1D_range
                (cellCoord (vx (gridMinimum s)) (gridInverseCellWidth s) (vx p))
                (cellCoord (vy (gridMinimum s)) (gridInverseCellWidth s) (vy p))
                (cellCoord (vz (gridMinimum s)) (gridInverseCellWidth s) (vz p))
                (gridSideCount s)) as [Hout | Hin']; [done |].
    unfold cellOf. lia.
Qed.
End GridStepDefined.

Section GridStepDefinedIff.
Context {F : Type} `{FloatOps F}.

Lemma grid_step_total (st : strategy) (sched : list Z) (dt : F) (s : Sim F)
    (bi gcn starts ends lookup : list Z) :
  wellSized s →
  buildGrid sched s = Some (bi, gcn, starts, ends, lookup) →
  tablesInRange (numObjects s) bi starts ends lookup (gridSideCount s) →
  Z.of_nat (length gcn) = numObjects s →
  Z.of_nat (length bi) = numObjects s →
  gridSideCount s ≠ 0 →
  ∃ s', step st sched dt s = Done s'.
Proof.
  intros Hwf Hgrid Htab Hlg Hlb Hside.
  pose proof Hwf as (HN & Hlp & Hlv1 & Hlv2 & _).
  destruct st.
  - apply stepSimulationNaive_total; lia.
  - simpl. unfold stepSimulationScatteredGrid. cbv zeta. rewrite Hgrid.
    cbn [mbind option_bind].
    destruct (kernUpdateVelNeighborSearchScattered_total (numObjects s) starts ends
                bi gcn lookup (gridSideCount s) (Ftrunc (gridCellWidth s))
                (contents (dev_pos s)) (contents (dev_vel1 s))
                (contents (dev_vel2 s))) as [vel2 Hk]; [done | lia .. | done |].
    rewrite Hk. cbn [mbind option_bind].
    apply kernUpdateVelNeighborSearchScattered_spec in Hk as (Hl2 & _).
    destruct (kernUpdatePos_total (numObjects s) dt (contents (dev_pos s)) vel2)
      as [pos ->]; [lia .. |]. cbn [mbind option_bind].
    rewrite cudaMemcpy_total by lia. cbn [mbind option_bind run]. by eexists.
  - simpl. unfold stepSimulationCoherentGrid. cbv zeta. rewrite Hgrid.
    cbn [mbind option_bind].
    pose proof Htab as (Hpai & _).
    destruct (RearangeVelAndPos_gather (numObjects s) bi (contents (dev_pos s))
                (contents (dev_vel1 s))
                (replicate (Z.to_nat (numObjects s)) vzero)
                (replicate (Z.to_nat (numObjects s)) vzero))
      as (rpos & rvel & Hre & Hlrp & Hlrv & Hrp & Hrv);
      [| lia | by rewrite length_replicate | by rewrite length_replicate |].
    { intros k Hk. destruct (Hpai k Hk) as (b & Hb & HbN).
      exists b. split; [done |]. split; apply rd_is_Some; lia. }
    rewrite Hre. cbn [mbind option_bind].
    destruct (kernUpdateVelNeighborSearchCoherent_total (numObjects s) starts ends bi
                gcn lookup (gridSideCount s) (Ftrunc (gridCellWidth s)) rpos rvel
                (contents (dev_vel2 s))) as [vel2 Hk]; [| lia |].
    { intros k Hk.
      rewrite (CoherentUpDateVelocity_refines _ _ _ _ _ _ _ _ _ _ _ _ _ Hrp Hrv).
      destruct (Hpai k Hk) as (b & -> & HbN). cbn [mbind option_bind].
      apply newUpdateVelocity_total; try done; try lia.
      apply rd_is_Some. lia. }
    rewrite Hk. cbn [mbind option_bind].
    apply kernUpdateVelNeighborSearchCoherent_spec in Hk as (Hl2 & _).
    destruct (kernUpdatePos_total (numObjects s) dt rpos vel2) as [rpos' Hp];
      [lia .. |].
    rewrite Hp. cbn [mbind option_bind].
    apply kernUpdatePos_spec in Hp as (Hlp' & _).
    rewrite !cudaMemcpy_total by lia. cbn [mbind option_bind run]. by eexists.
Qed.

(** X22: when a step of a grid strategy has defined behaviour.  From a
    state with buffers of [N] elements, two boids at least, all inside the
    grid, and a lookup of [gridSideCount^3] entries at least, the step of
    either grid strategy returns if and only if one boid is alone in the
    occupied cell with the lowest id and one boid is alone in the occupied
    cell with the highest id.  Otherwise a scan of
    [kernIdentifyCellStartEnd] leaves the key array. *)
Theorem grid_step_defined_iff (st : strategy) (sched : list Z) (dt : F) (s : Sim F) :
  st ≠ Naive → wellSized s → 2 <= numObjects s →
  gridSideCount s * gridSideCount s * gridSideCount s
    <= Z.of_nat (length (contents (gridCellIndex s))) →
  (∀ i, i ∈ sched → 0 <= i) →
  (∀ i p, rd (contents (dev_pos s)) i = Some p → cellOf s p ≠ -1) →
  (∃ s', step st sched dt s = Done s') ↔
  (∃ lo, aloneAtEnd true s lo) ∧ (∃ hi, aloneAtEnd false s hi).
Proof.
  intros Hst Hwf HN Hlk Hsched Hin. split.
  - intros [s' Hstep].
    apply step_Done in Hstep as (_ & _ & _ & _ & _ & _ & _ & Htab).
    assert (is_Some (buildGrid sched s)) as [[[[[bi gcn] starts] ends] lookup] Hgrid].
    { destruct st; [done | |];
        destruct Htab as (bi & gcn & starts & ends & lookup & -> & _); by eexists. }
    destruct (buildGrid_tables _ _ _ _ _ _ _ Hwf Hgrid) as (_ & _ & _ & [Halone | ?]);
      [done | lia].
  - intros [Hlo Hhi].
    destruct (buildGrid_total sched s) as [[[[[bi gcn] starts] ends] lookup] Hgrid];
      try done.
    destruct (buildGrid_tables _ _ _ _ _ _ _ Hwf Hgrid) as (Htab & Hlg & Hlb & _).
    apply (grid_step_total st sched dt s bi gcn starts ends lookup); try done.
    destruct Hlo as (lo & _ & p & Hp & _). pose proof (Hin lo p Hp) as Hne.
    unfold cellOf in Hne. intros Hside. apply Hne. rewrite Hside.
    unfold gridIndex3Dto1D.
    destruct (Z.geb_spec
                (cellCoord (vx (gridMinimum s)) (gridInverseCellWidth s) (vx p)) 0),
             (Z.ltb_spec
                (cellCoord (vx (gridMinimum s)) (gridInverseCellWidth s) (vx p)) 0);
      (done || lia).
Qed.
End GridStepDefinedIff.

Lemma grid_step_defined_iff_witness :
  (∃ s', step Scattered [0; 1] (f32 1) twoBoids = Done s') ↔
  (∃ lo, aloneAtEnd true twoBoids lo) ∧ (∃ hi, aloneAtEnd false twoBoids hi).
Proof.
  apply (grid_step_defined_iff Scattered [0; 1] (f32 1) twoBoids).
  - done.
  - exact twoBoids_wellSized.
  - simpl. lia.
  - vm_compute. congruence.
  - intros i Hi. apply elem_of_cons in Hi as [-> | Hi]; [lia |].
    apply elem_of_cons in Hi as [-> | Hi]; [lia |]. by apply elem_of_nil in Hi.
  - intros i p Hp. pose proof (rd_Some_bound _ _ _ Hp) as Hi. simpl in Hi.
    assert (i = 0 ∨ i = 1) as [-> | ->] by lia; injection Hp as <-;
      vm_compute; congruence.
Defined.

(** ** The rule tests of the brute force and of the grid search *)

Section Rules.
Context {F : Type} `{FloatOps F}.

(** the fields of the tally after the three tests on one candidate *)
Lemma applyRules_fields (p q w : vec3 F) (t : tally F) :
  perceivedCenter (applyRules p q w t) =
    (if Fltb (glm_length (vsub q p)) rule1Distance
     then vadd (perceivedCenter t) q else perceivedCenter t) ∧
  count1 (applyRules p q w t) =
    (if Fltb (glm_length (vsub q p)) rule1Distance
     then count1 t + 1 else count1 t) ∧
  vectorC (applyRules p q w t) =
    (if Fltb (glm_length (vsub q p)) rule2Distance
     then if Fltb (glm_length (vsub q p)) (Flit 100 1)
          then vsub (vectorC t) (vsub q p) else vectorC t
     else vectorC t) ∧
  perceivedVelocity (applyRules p q w t) =
    (if Fltb (glm_length (vsub q p)) rule3Distance
     then vadd (perceivedVelocity t) w else perceivedVelocity t) ∧
  count3 (applyRules p q w t) =
    (if Fltb (glm_length (vsub q p)) rule3Distance
     then count3 t + 1 else count3 t).
Proof.
  unfold applyRules.
  destruct (Fltb (glm_length (vsub q p)) rule1Distance),
           (Fltb (glm_length (vsub q p)) rule2Distance),
           (Fltb (glm_length (vsub q p)) (Flit 100 1)),
           (Fltb (glm_length (vsub q p)) rule3Distance); done.
Qed.

(** The three loops of [computeVelocityChange] over the candidates [l]
    gather what one loop of [applyRules] over [l] gathers. *)
Lemma three_loops_one_loop (i : Z) (pos vel : list (vec3 F)) (p : vec3 F)
    (l : list Z) (t : tally F) :
  (∀ j, j ∈ l → is_Some (rd pos j) ∧ is_Some (rd vel j)) →
  ∃ t',
    forM l (λ j t,
      if negb (j =? i) then
        q ← rd pos j; w ← rd vel j; Some (applyRules p q w t)
      else Some t) t = Some t' ∧
    forM l (λ j '(perceivedCenter, count1),
      if negb (j =? i) then
        testPos1 ← rd pos j;
        if Fltb (BoidDistanceCalculation testPos1 p) rule1Distance
        then Some (vadd perceivedCenter testPos1, count1 + 1)
        else Some (perceivedCenter, count1)
      else Some (perceivedCenter, count1)) (perceivedCenter t, count1 t)
    = Some (perceivedCenter t', count1 t') ∧
    forM l (λ j cVector,
      if negb (j =? i) then
        testPos2 ← rd pos j;
        if Fltb (BoidDistanceCalculation testPos2 p) rule2Distance
        then
          if Fltb (BoidDistanceCalculation testPos2 p) (Flit 100 1)
          then Some (vsub cVector (vsub testPos2 p))
          else Some cVector
        else Some cVector
      else Some cVector) (vectorC t) = Some (vectorC t') ∧
    forM l (λ k '(perceivedVelocity, count2),
      if negb (k =? i) then
        testPos3 ← rd pos k;
        testVel3 ← rd vel k;
        if Fltb (BoidDistanceCalculation testPos3 p) rule3Distance
        then Some (vadd perceivedVelocity testVel3, count2 + 1)
        else Some (perceivedVelocity, count2)
      else Some (perceivedVelocity, count2)) (perceivedVelocity t, count3 t)
    = Some (perceivedVelocity t', count3 t').
Proof.
  revert t. induction l as [| j l IH]; intros t Hrd; [by exists t |].
  destruct (Hrd j) as [[q Hq] [w Hw]]; [by left |].
  assert (∀ k, k ∈ l → is_Some (rd pos k) ∧ is_Some (rd vel k)) as Hrd'
    by (intros k Hk; apply Hrd; by right).
  cbn [forM]. destruct (Z.eqb_spec j i) as [-> | Hne]; cbn [negb mbind option_bind].
  { apply IH, Hrd'. }
  rewrite Hq, Hw. cbn [mbind option_bind].
  destruct (IH (applyRules p q w t) Hrd') as (t' & Hf & H1 & H2 & H3).
  exists t'. split; [done |].
  destruct (applyRules_fields p q w t) as (Epc & Ec1 & Ecv & Epv & Ec3).
  rewrite Epc, Ec1 in H1. rewrite Ecv in H2. rewrite Epv, Ec3 in H3.
  unfold BoidDistanceCalculation.
  split; [| split].
  - destruct (Fltb (glm_length (vsub q p)) rule1Distance); exact H1.
  - destruct (Fltb (glm_length (vsub q p)) rule2Distance);
      [destruct (Fltb (glm_length (vsub q p)) (Flit 100 1)) |]; exact H2.
  - destruct (Fltb (glm_length (vsub q p)) rule3Distance); exact H3.
Qed.

Lemma computeVelocityChange_one_loop (N i : Z) (pos vel : list (vec3 F)) :
  0 <= i < N → N <= Z.of_nat (length pos) → N <= Z.of_nat (length vel) →
  computeVelocityChange N i pos vel =
  (p ← rd pos i; v ← rd vel i;
   t ← forM (zrange 0 (N - 1)) (λ j t,
         if negb (j =? i) then
           q ← rd pos j; w ← rd vel j; Some (applyRules p q w t)
         else Some t) tally0;
   Some (finalSpeed p v t)).
Proof.
  intros Hi Hp Hv. unfold computeVelocityChange.
  destruct (Z.geb_spec i N); [lia |].
  destruct (rd_is_Some pos i) as [p ->]; [lia |].
  destruct (rd_is_Some vel i) as [v ->]; [lia |]. cbn [mbind option_bind].
  destruct (three_loops_one_loop i pos vel p (zrange 0 (N - 1)) tally0)
    as (t & -> & H1 & H2 & H3).
  { intros j Hj%elem_of_zrange. split; apply rd_is_Some; lia. }
  cbn [tally0 perceivedCenter count1 vectorC perceivedVelocity count3] in H1, H2, H3.
  rewrite H1. cbn [mbind option_bind]. rewrite H2. cbn [mbind option_bind].
  rewrite H3. cbn [mbind option_bind]. unfold finalSpeed.
  by destruct (count1 t =? 0).
Qed.

(** X23: for any float arithmetic, [newUpdateVelocity] run with the identity
    as particle index table, the range [0, N-1] for its own cell and a
    lookup that shows every cell empty returns what
    [computeVelocityChange] returns: both apply the same rule tests to the
    same candidates in the same order. *)
Theorem single_range_search_is_brute_force (N index : Z) (pos vel : list (vec3 F))
    (pai pgi starts ends lookup : list Z) (side width : Z) :
  0 <= index < N → N <= Z.of_nat (length pos) → N <= Z.of_nat (length vel) →
  side ≠ 0 → is_Some (rd pgi index) →
  (∀ k, 0 <= k < N → rd pai k = Some k) →
  rd starts index = Some 0 → rd ends index = Some (N - 1) →
  (∀ c, 0 <= c < side * side * side → rd lookup c = Some (-1)) →
  newUpdateVelocity N index index pos vel pai pgi starts ends lookup side width
  = computeVelocityChange N index pos vel.
Proof.
  intros Hi Hp Hv Hside [g Hg] Hpai Hstart Hend Hlookup.
  rewrite computeVelocityChange_one_loop by done.
  unfold newUpdateVelocity.
  destruct (rd_is_Some pos index) as [p ->]; [lia |].
  destruct (rd_is_Some vel index) as [v ->]; [lia |].
  rewrite Hg. cbn [mbind option_bind].
  unfold idiv. destruct (Z.eqb_spec (side * side) 0) as [? | _]; [nia |].
  destruct (Z.eqb_spec side 0) as [? | _]; [done |]. cbn [mbind option_bind].
  rewrite Hstart, Hend. cbn [mbind option_bind].
  rewrite (forM_ext _ _
    (λ j t, if negb (j =? index) then
              q ← rd pos j; w ← rd vel j; Some (applyRules p q w t)
            else Some t)).
  2:{ intros j t Hj%elem_of_zrange. destruct (negb (j =? index)); [| done].
      by rewrite Hpai by lia. }
  destruct (forM _ _ tally0) as [t |]; cbn [mbind option_bind]; [| done].
  rewrite forM_const; [done |].
  intros j _. apply forM_const. intros k _. apply forM_const. intros m _. cbv zeta.
  destruct (gridIndex3Dto1D_range j k m side) as [-> | Hc]; [done |].
  destruct (negb (_ =? -1)); [| done].
  destruct (negb (_ =? _)); [| done].
  by rewrite Hlookup.
Qed.
End Rules.

Lemma single_range_search_is_brute_force_witness :
  newUpdateVelocity 2 0 0 [v32 0 0 0; v32 1 0 0] [v32 0 0 0; v32 0 0 0]
    [0; 1] [5566; 5566] [0; 0] [1; 1] (replicate (Z.to_nat 10648) (-1)) 22 10
  = computeVelocityChange 2 0 [v32 0 0 0; v32 1 0 0] [v32 0 0 0; v32 0 0 0].
Proof.
  apply (single_range_search_is_brute_force 2 0 [v32 0 0 0; v32 1 0 0]
           [v32 0 0 0; v32 0 0 0] [0; 1] [5566; 5566] [0; 0] [1; 1]
           (replicate (Z.to_nat 10648) (-1)) 22 10).
  - lia.
  - simpl. lia.
  - simpl. lia.
  - lia.
  - by eexists.
  - intros k Hk. assert (k = 0 ∨ k = 1) as [-> | ->] by lia; reflexivity.
  - reflexivity.
  - reflexivity.
  - intros c Hc. rewrite rd_lookup by lia. apply lookup_replicate_2. lia.
Defined.

(** ** The display after teardown *)

(** X24: [copyBoidsToVBO] called after [endSimulation], with one boid at
    least, has undefined behaviour: its first kernel reads a position
    through the released [dev_pos]. *)
Theorem display_after_teardown_is_undefined {F : Type} `{FloatOps F}
    (s : Sim F) (vbodptr_positions vbodptr_velocities : list F) :
  0 < numObjects s →
  copyBoidsToVBO (endSimulation s) vbodptr_positions vbodptr_velocities = Undefined.
Proof.
  intros HN. unfold copyBoidsToVBO, kernCopyPositionsToVBO. cbv zeta.
  cbn [endSimulation numObjects dev_pos contents].
  destruct (threads_pos (numObjects s) HN) as [l ->]. cbn [forM].
  reflexivity.
Qed.

Lemma display_after_teardown_is_undefined_witness :
  0 < numObjects twoBoids ∧
  copyBoidsToVBO (endSimulation twoBoids) (replicate 8 (f32 0)) (replicate 8 (f32 0))
    = Undefined.
Proof.
  assert (0 < numObjects twoBoids) as HN by (simpl; lia).
  split; [exact HN |].
  exact (display_after_teardown_is_undefined twoBoids _ _ HN).
Defined.

(** ** The grid of [initSimulation] in single precision, in general *)



(** ** The sorted tables of a grid step *)

(** X17: after a step of either grid strategy, [devBoidIndex] is a
    rearrangement of [0 .. N-1], the first [N] entries of
    [devGridCellnumber] ascend, and the entry at each sorted position is
    the cell id of the position the boid named there had before the
    step. *)
Theorem grid_tables_sorted_by_cell {F : Type} `{FloatOps F}
    (st : strategy) (sched : list Z) (dt : F) (s s' : Sim F) :
  st ≠ Naive → wellSized s → step st sched dt s = Done s' →
  contents (devBoidIndex s') ≡ₚ threads (numObjects s) ∧
  (∀ k k', 0 <= k <= k' → k' < numObjects s →
     ∃ c c', rd (contents (devGridCellnumber s')) k = Some c ∧
             rd (contents (devGridCellnumber s')) k' = Some c' ∧ c <= c') ∧
  (∀ k, 0 <= k < numObjects s →
     ∃ b p, rd (contents (devBoidIndex s')) k = Some b ∧ 0 <= b < numObjects s ∧
       rd (contents (dev_pos s)) b = Some p ∧
       rd (contents (devGridCellnumber s')) k = Some (cellOf s p)).
Proof.
  intros Hst Hwf Hstep.
  apply step_Done in Hstep as (_ & _ & _ & _ & _ & _ & _ & Htab).
  assert (∃ bi gcn starts ends lookup,
    buildGrid sched s = Some (bi, gcn, starts, ends, lookup) ∧
    devBoidIndex s' = store (devBoidIndex s) bi ∧
    devGridCellnumber s' = store (devGridCellnumber s) gcn)
    as (bi & gcn & starts & ends & lookup & Hgrid & -> & ->).
  { destruct st; [done | |];
      destruct Htab as (bi & gcn & starts & ends & lookup & ? & ? & ? & _);
      by exists bi, gcn, starts, ends, lookup. }
  pose proof (buildGrid_lengths _ _ _ _ _ _ _ Hgrid) as (Hlb & Hlg & _).
  rewrite !contents_store by done.
  apply buildGrid_Some in Hgrid
    as (indices & gridIndices & lookup0 & Hidx & _ & Hsort & _).
  destruct (sorted_arrays s _ _ _ _ Hwf Hidx Hsort) as (Hperm & _ & Hcell & Hmono).
  done.
Qed.

Lemma grid_tables_sorted_by_cell_witness :
  wellSized twoBoids ∧
  step Scattered [0; 1] (f32 1) twoBoids = Done twoBoidsScattered ∧
  contents (devBoidIndex twoBoidsScattered) ≡ₚ threads (numObjects twoBoids) ∧
  ∃ c c', rd (contents (devGridCellnumber twoBoidsScattered)) 0 = Some c ∧
          rd (contents (devGridCellnumber twoBoidsScattered)) 1 = Some c' ∧
          c <= c'.
Proof.
  split; [exact twoBoids_wellSized |]. split; [exact twoBoids_scattered_step |].
  destruct (grid_tables_sorted_by_cell Scattered [0; 1] (f32 1) twoBoids
              twoBoidsScattered) as (Hperm & Hsorted & _);
    [done | exact twoBoids_wellSized | exact twoBoids_scattered_step |].
  split; [exact Hperm |]. apply Hsorted; simpl; lia.
Defined.

(** ** What [initSimulation] leaves behind *)

(** X26: an [initSimulation] that returns leaves [numObjects = N], eight
    buffers of [N] elements, a lookup of [gridCellCount = gridSideCount^3]
    entries, and at each boid the random vector of its index, scaled by
    [scene_scale]. *)
Theorem initSimulation_establishes_state {F : Type} `{FloatOps F}
    (rng : F → Z → vec3 F) (junkV : vec3 F) (junkI : Z)
    (avail N : Z) (s : Sim F) :
  0 < N →
  initSimulation rng junkV junkI avail N = Done s →
  numObjects s = N ∧ wellSized s ∧
  gridCellCount s = gridSideCount s * gridSideCount s * gridSideCount s ∧
  length (contents (gridCellIndex s)) = Z.to_nat (gridCellCount s) ∧
  ∀ i, 0 <= i < N →
    rd (contents (dev_pos s)) i =
      Some (Vec3 (Fmul scene_scale (vx (rng (Fof_int 1) i)))
                 (Fmul scene_scale (vy (rng (Fof_int 1) i)))
                 (Fmul scene_scale (vz (rng (Fof_int 1) i)))).
Proof. intros HN. apply initSimulation_Done. lia. Qed.

Lemma initSimulation_establishes_state_witness :
  ∃ s : Sim R,
    initSimulation (λ _ _, Vec3 0%R 0%R 0%R) (Vec3 0%R 0%R 0%R) 0 1000000 1
      = Done s ∧
    numObjects s = 1 ∧ wellSized s.
Proof.
  assert (∃ s : Sim R,
    initSimulation (λ _ _, Vec3 0%R 0%R 0%R) (Vec3 0%R 0%R 0%R) 0 1000000 1
      = Done s) as [s Hinit].
  { eexists. unfold initSimulation. rewrite gridCellWidth_ideal, halfSideCount_ideal.
    reflexivity. }
  destruct (initSimulation_establishes_state _ _ _ _ 1 s ltac:(lia) Hinit)
    as (HN & Hwf & _).
  by exists s.
Defined.

(** ** The seed mixer *)

Lemma word_bits (a : Z) :
  0 <= a → (∀ n, 32 <= n → Z.testbit a n = false) → word a.
Proof.
  intros Ha Hb. split; [done|].
  assert (a = a mod 2 ^ 32) as ->; [|apply Z.mod_pos_bound; lia].
  apply Z.bits_inj'. intros n Hn.
  rewrite Z.testbit_mod_pow2 by lia.
  destruct (Z.ltb_spec n 32); simpl; [done|]. by apply Hb.
Qed.

Lemma word_high (a n : Z) : word a → 32 <= n → Z.testbit a n = false.
Proof.
  intros [Ha Hlt] Hn. rewrite <- (Z.mod_small a (2 ^ 32)) by lia.
  apply Z.mod_pow2_bits_high. lia.
Qed.

Lemma word_lxor (a b : Z) : word a → word b → word (Z.lxor a b).
Proof.
  intros Ha Hb. apply word_bits.
  - apply Z.lxor_nonneg. unfold word in *. lia.
  - intros n Hn. by rewrite Z.lxor_spec, !word_high.
Qed.

Lemma word_shiftr (a n : Z) : word a → 0 <= n → word (Z.shiftr a n).
Proof.
  intros Ha Hn. apply word_bits.
  - apply Z.shiftr_nonneg. unfold word in Ha. lia.
  - intros m Hm. rewrite Z.shiftr_spec by lia. apply word_high; [done|lia].
Qed.

Lemma word_add32 (a b : Z) : word (add32 a b).
Proof. apply Z.mod_pos_bound. lia. Qed.

Lemma lxor_cancel_r (a b c : Z) : Z.lxor a c = Z.lxor b c → a = b.
Proof.
  intros Heq. apply (f_equal (λ x, Z.lxor x c)) in Heq.
  by rewrite !Z.lxor_assoc, Z.lxor_nilpotent, !Z.lxor_0_r in Heq.
Qed.

(** A line [a = (a + c) + (a << k)] multiplies by the odd number
    [2^k + 1]: it loses nothing. *)
Lemma mix_add_inj (c k a b : Z) :
  0 <= k → Z.gcd (2 ^ 32) (2 ^ k + 1) = 1 → word a → word b →
  add32 (add32 a c) (shl32 a k) = add32 (add32 b c) (shl32 b k) → a = b.
Proof.
  intros Hk Hodd [Ha Ha'] [Hb Hb']. unfold add32, shl32.
  rewrite !Z.shiftl_mul_pow2 by done.
  rewrite <- !Z.add_mod by lia. intros Heq.
  assert (Hd : (2 ^ 32 | (2 ^ k + 1) * (a - b))).
  { apply Z.mod_divide; [lia|].
    replace ((2 ^ k + 1) * (a - b)) with ((a + c + a * 2 ^ k) - (b + c + b * 2 ^ k)) by ring.
    rewrite Zminus_mod, Heq, Z.sub_diag. done. }
  apply Z.gauss in Hd; [|done].
  destruct Hd as [q Hq]. change (2 ^ 32) with 4294967296 in *. lia.
Qed.

(** A line [a = (a ^ c) ^ (a >> k)] with [k >= 16] is undone by
    [b ^ (b >> k)]. *)
Lemma mix_xor_shr_inj (c k a b : Z) :
  16 <= k → word a → word b →
  Z.lxor (Z.lxor a c) (Z.shiftr a k) = Z.lxor (Z.lxor b c) (Z.shiftr b k) → a = b.
Proof.
  intros Hk Ha Hb Heq.
  assert (Hu : ∀ x, word x → Z.lxor (Z.lxor x (Z.shiftr x k))
                               (Z.shiftr (Z.lxor x (Z.shiftr x k)) k) = x).
  { intros x Hx. apply Z.bits_inj'. intros n Hn.
    rewrite !Z.lxor_spec, !Z.shiftr_spec, !Z.lxor_spec, !Z.shiftr_spec by lia.
    rewrite (word_high x (n + k + k)) by (done || lia).
    by destruct (Z.testbit x n), (Z.testbit x (n + k)). }
  assert (Heq' : Z.lxor a (Z.shiftr a k) = Z.lxor b (Z.shiftr b k)).
  { apply (lxor_cancel_r _ _ c).
    rewrite !Z.lxor_assoc, !(Z.lxor_comm _ c), <- !Z.lxor_assoc. done. }
  rewrite <- (Hu a Ha), <- (Hu b Hb). by rewrite Heq'.
Qed.

Lemma lxor_mod_pow2 (a b n : Z) :
  0 <= n → Z.lxor a b mod 2 ^ n = Z.lxor (a mod 2 ^ n) (b mod 2 ^ n).
Proof.
  intros Hn. apply Z.bits_inj'. intros m Hm.
  rewrite Z.lxor_spec, !Z.testbit_mod_pow2, Z.lxor_spec by done.
  by destruct (m <? n).
Qed.

(** A line [a = (a + c) ^ (a << k)] with [k >= 1]: bit [n] of the result
    is bit [n] of [a], changed by lower bits of [a] only, so the bits of
    [a] are recovered from the lowest one up. *)
Lemma mix_add_xor_shl_inj (c k a b : Z) :
  1 <= k → word a → word b →
  Z.lxor (add32 a c) (shl32 a k) = Z.lxor (add32 b c) (shl32 b k) → a = b.
Proof.
  intros Hk [Ha Ha'] [Hb Hb'] Heq.
  assert (Hlow : ∀ n : nat, Z.of_nat n <= 32 →
                 a mod 2 ^ Z.of_nat n = b mod 2 ^ Z.of_nat n).
  { induction n as [|n IH]; intros Hn.
    - by rewrite !Z.mod_1_r.
    - specialize (IH ltac:(lia)).
      set (m := Z.of_nat (S n)). set (j := Z.of_nat n) in *.
      assert (Hm : m = j + 1) by lia.
      apply (f_equal (λ x, x mod 2 ^ m)) in Heq.
      rewrite !lxor_mod_pow2 in Heq by lia.
      unfold add32, shl32 in Heq.
      assert (Hmm : ∀ x, (x mod 2 ^ 32) mod 2 ^ m = x mod 2 ^ m).
      { intros x. apply Z.mod_mod_divide. exists (2 ^ (32 - m)).
        rewrite <- Z.pow_add_r by lia. f_equal. lia. }
      rewrite !Hmm in Heq.
      assert (Hs : Z.shiftl a k mod 2 ^ m = Z.shiftl b k mod 2 ^ m).
      { rewrite !Z.shiftl_mul_pow2 by lia.
        assert (Hdiv : (2 ^ j | a - b)).
        { apply Z.mod_divide; [lia|]. rewrite Zminus_mod, IH, Z.sub_diag. done. }
        destruct Hdiv as [q Hq].
        replace (a * 2 ^ k) with (b * 2 ^ k + q * 2 ^ (k - 1) * 2 ^ m).
        - apply Z.mod_add. lia.
        - rewrite Hm, Z.pow_add_r by lia.
          replace (2 ^ k) with (2 ^ (k - 1) * 2 ^ 1).
          + replace a with (b + q * 2 ^ j) by lia. ring.
          + rewrite <- Z.pow_add_r by lia. f_equal. lia. }
      rewrite Hs in Heq. apply lxor_cancel_r in Heq.
      rewrite <- (Z.add_simpl_r a c), <- (Z.add_simpl_r b c).
      by rewrite Zminus_mod, Heq, <- Zminus_mod. }
  specialize (Hlow 32%nat ltac:(lia)).
  change (Z.of_nat 32) with 32 in Hlow.
  by rewrite !Z.mod_small in Hlow by lia.
Qed.

Lemma word_shl32 (a n : Z) : word (shl32 a n).
Proof. apply Z.mod_pos_bound. lia. Qed.

Lemma word_literal (c : Z) : (0 <=? c) && (c <? 2 ^ 32) = true → word c.
Proof. unfold word. lia. Qed.

Ltac word_solve :=
  first [ assumption | apply word_add32 | apply word_shl32
        | apply word_lxor; word_solve
        | apply word_shiftr; [word_solve | lia]
        | apply word_literal; reflexivity ].

(** X27: [hash] maps 32-bit words to 32-bit words and never sends two
    of them to the same word: distinct seeds stay distinct. *)
Theorem hash_injective (a b : Z) :
  0 <= a < 2 ^ 32 → 0 <= b < 2 ^ 32 →
  0 <= hash a < 2 ^ 32 ∧ (hash a = hash b → a = b).
Proof.
  intros Ha Hb. change (word a) in Ha. change (word b) in Hb.
  split; [change (word (hash a)); unfold hash; cbv zeta; word_solve |].
  unfold hash. cbv zeta. intros Heq.
  apply mix_xor_shr_inj in Heq; [| lia | word_solve ..].
  apply mix_add_inj in Heq; [| lia | reflexivity | word_solve ..].
  apply mix_add_xor_shl_inj in Heq; [| lia | word_solve ..].
  apply mix_add_inj in Heq; [| lia | reflexivity | word_solve ..].
  apply mix_xor_shr_inj in Heq; [| lia | word_solve ..].
  apply mix_add_inj in Heq; [done | lia | reflexivity | word_solve ..].
Qed.

Lemma hash_injective_witness :
  0 <= hash 1 < 2 ^ 32 ∧ (hash 1 = hash 2 → 1 = 2).
Proof. apply (hash_injective 1 2); lia. Defined.

(** ** The grid search with one boid per cell, over the reals *)

Lemma forM_app {A S : Type} (l1 l2 : list A) (body : A → S → option S) (s : S) :
  forM (l1 ++ l2) body s = forM l1 body s ≫= forM l2 body.
Proof.
  revert s. induction l1 as [| x l1 IH]; intros s; [done |].
  simpl. destruct (body x s) as [s' |]; simpl; [apply IH | done].
Qed.

Lemma forM_bind {A B S : Type} (l : list A) (f : A → list B)
    (body : B → S → option S) (s : S) :
  forM l (λ a s, forM (f a) body s) s = forM (l ≫= f) body s.
Proof.
  revert s. induction l as [| x l IH]; intros s; [done |].
  rewrite bind_cons, forM_app. simpl.
  destruct (forM (f x) body s) as [s' |]; simpl; [apply IH | done].
Qed.

Lemma forM_filter {S : Type} (l : list Z) (i : Z) (body : Z → S → option S) (s : S) :
  forM l (λ j s, if negb (j =? i) then body j s else Some s) s =
  forM (filter (λ j, j ≠ i) l) body s.
Proof.
  revert s. induction l as [| x l IH]; intros s; [done |].
  rewrite filter_cons. simpl.
  destruct (Z.eqb_spec x i) as [-> | Hne]; cbn [negb]; simpl.
  - destruct (decide (i ≠ i)); [done | apply IH].
  - destruct (decide (x ≠ i)); [| done]. simpl.
    destruct (body x s); simpl; [apply IH | done].
Qed.

Lemma zrange_singleton (h : Z) : zrange h h = [h].
Proof.
  unfold zrange. replace (h - h + 1) with 1 by lia. simpl. f_equal. lia.
Qed.

Section Gathering.
Context (pos vel : list (vec3 R)) (p : vec3 R).

Lemma tally_eq (t t' : tally R) :
  perceivedCenter t = perceivedCenter t' → count1 t = count1 t' →
  vectorC t = vectorC t' → perceivedVelocity t = perceivedVelocity t' →
  count3 t = count3 t' → t = t'.
Proof. destruct t, t'. simpl. by intros -> -> -> -> ->. Qed.

Lemma vec3_eq (a b : vec3 R) :
  vx a = vx b → vy a = vy b → vz a = vz b → a = b.
Proof. destruct a, b. simpl. by intros -> -> ->. Qed.

(** over the reals the order of two candidates does not matter *)
Lemma applyRules_comm (q1 w1 q2 w2 : vec3 R) (t : tally R) :
  applyRules p q1 w1 (applyRules p q2 w2 t) =
  applyRules p q2 w2 (applyRules p q1 w1 t).
Proof.
  destruct (applyRules_fields p q1 w1 (applyRules p q2 w2 t))
    as (A1 & A2 & A3 & A4 & A5).
  destruct (applyRules_fields p q2 w2 (applyRules p q1 w1 t))
    as (B1 & B2 & B3 & B4 & B5).
  destruct (applyRules_fields p q1 w1 t) as (C1 & C2 & C3 & C4 & C5).
  destruct (applyRules_fields p q2 w2 t) as (D1 & D2 & D3 & D4 & D5).
  apply tally_eq.
  - rewrite A1, B1, C1, D1.
    destruct (Fltb (glm_length (vsub q1 p)) rule1Distance),
             (Fltb (glm_length (vsub q2 p)) rule1Distance); try done.
    apply vec3_eq; unfold vadd; cbn [vx vy vz]; ideal_ops; lra.
  - rewrite A2, B2, C2, D2.
    destruct (Fltb (glm_length (vsub q1 p)) rule1Distance),
             (Fltb (glm_length (vsub q2 p)) rule1Distance); lia.
  - rewrite A3, B3, C3, D3.
    destruct (Fltb (glm_length (vsub q1 p)) rule2Distance),
             (Fltb (glm_length (vsub q2 p)) rule2Distance),
             (Fltb (glm_length (vsub q1 p)) (Flit 100 1)),
             (Fltb (glm_length (vsub q2 p)) (Flit 100 1)); try done;
      apply vec3_eq; unfold vsub; cbn [vx vy vz]; ideal_ops; lra.
  - rewrite A4, B4, C4, D4.
    destruct (Fltb (glm_length (vsub q1 p)) rule3Distance),
             (Fltb (glm_length (vsub q2 p)) rule3Distance); try done.
    apply vec3_eq; unfold vadd; cbn [vx vy vz]; ideal_ops; lra.
  - rewrite A5, B5, C5, D5.
    destruct (Fltb (glm_length (vsub q1 p)) rule3Distance),
             (Fltb (glm_length (vsub q2 p)) rule3Distance); lia.
Qed.

Lemma gather_cons (j : Z) (l : list Z) (t : tally R) :
  gather pos vel p (j :: l) t =
  (q ← rd pos j; w ← rd vel j; gather pos vel p l (applyRules p q w t)).
Proof.
  unfold gather. simpl.
  destruct (rd pos j); simpl; [| done]. by destruct (rd vel j).
Qed.

Lemma gather_perm (l1 l2 : list Z) :
  l1 ≡ₚ l2 → ∀ t, gather pos vel p l1 t = gather pos vel p l2 t.
Proof.
  induction 1 as [| x l1 l2 _ IH | x y l | l1 l2 l3 _ IH1 _ IH2]; intros t.
  - done.
  - rewrite !gather_cons. destruct (rd pos x); simpl; [| done].
    destruct (rd vel x); simpl; [apply IH | done].
  - destruct (rd pos x) as [qx |] eqn:Hqx, (rd pos y) as [qy |] eqn:Hqy,
             (rd vel x) as [wx |] eqn:Hwx, (rd vel y) as [wy |] eqn:Hwy;
      repeat (rewrite gather_cons, ?Hqx, ?Hqy, ?Hwx, ?Hwy;
              cbn [mbind option_bind]); try done.
    by rewrite applyRules_comm.
  - by rewrite IH1.
Qed.

(** a candidate out of reach changes nothing *)
Lemma applyRules_out_of_reach (q w : vec3 R) (t : tally R) :
  Fltb (glm_length (vsub q p)) rule1Distance = false →
  applyRules p q w t = t.
Proof.
  intros Hfar. unfold applyRules.
  assert (Fltb (glm_length (vsub q p)) rule2Distance = false) as H2.
  { revert Hfar. unfold rule1Distance, rule2Distance. ideal_ops.
    rewrite !Rltb_false. lra. }
  assert (Fltb (glm_length (vsub q p)) rule3Distance = false) as H3 by done.
  rewrite Hfar, H2, H3. by destruct t.
Qed.

Lemma gather_in_reach (l : list Z) (t : tally R) :
  (∀ j, j ∈ l → is_Some (rd pos j) ∧ is_Some (rd vel j)) →
  gather pos vel p l t =
  gather pos vel p (filter (λ j, inReach pos p j = true) l) t.
Proof.
  revert t. induction l as [| j l IH]; intros t Hrd; [done |].
  destruct (Hrd j) as [[q Hq] [w Hw]]; [by left |].
  assert (∀ k, k ∈ l → is_Some (rd pos k) ∧ is_Some (rd vel k)) as Hrd'
    by (intros k Hk; apply Hrd; by right).
  rewrite filter_cons, gather_cons, Hq, Hw. cbn [mbind option_bind].
  destruct (decide (inReach pos p j = true)) as [Hin | Hout].
  - rewrite gather_cons, Hq, Hw. cbn [mbind option_bind]. by apply IH.
  - rewrite applyRules_out_of_reach; [by apply IH |].
    unfold inReach in Hout. rewrite Hq in Hout.
    by destruct (Fltb _ _).
Qed.

Lemma gather_same_reach (l1 l2 : list Z) (t : tally R) :
  NoDup l1 → NoDup l2 →
  (∀ j, j ∈ l1 → is_Some (rd pos j) ∧ is_Some (rd vel j)) →
  (∀ j, j ∈ l2 → is_Some (rd pos j) ∧ is_Some (rd vel j)) →
  (∀ j, inReach pos p j = true → j ∈ l1 ↔ j ∈ l2) →
  gather pos vel p l1 t = gather pos vel p l2 t.
Proof.
  intros Hn1 Hn2 Hr1 Hr2 Hsame.
  rewrite (gather_in_reach l1), (gather_in_reach l2) by done.
  apply gather_perm, NoDup_Permutation; [by apply NoDup_filter .. |].
  intros j. rewrite !list_elem_of_filter. split; intros [Hj Hin]; (split; [done |]);
    by apply (Hsame j Hj).
Qed.
End Gathering.

Lemma forM_three {S : Type} (l1 l2 l3 : list Z)
    (body : Z → Z → Z → S → option S) (f : Z → Z → Z → list Z)
    (g : Z → S → option S) (s : S) :
  (∀ j k m t, body j k m t = forM (f j k m) g t) →
  forM l1 (λ j t, forM l2 (λ k t, forM l3 (λ m t, body j k m t) t) t) s =
  forM (j ← l1; k ← l2; m ← l3; f j k m) g s.
Proof.
  intros Hbody. rewrite <- forM_bind. apply forM_ext. intros j t _.
  rewrite <- forM_bind. apply forM_ext. intros k t' _.
  rewrite <- forM_bind. apply forM_ext. intros m t'' _. apply Hbody.
Qed.

(** *** Cells and distances *)

Lemma gridIndex3Dto1D_inGrid (x y z side : Z) :
  gridIndex3Dto1D x y z side ≠ -1 → inGrid x y z side.
Proof.
  intros Hne. destruct (decide (inGrid x y z side)) as [| Hout]; [done |].
  by apply gridIndex3Dto1D_outside in Hout.
Qed.

Lemma gridIndex3Dto1D_decode (x y z side : Z) :
  inGrid x y z side →
  idiv (gridIndex3Dto1D x y z side) (side * side) = Some z ∧
  idiv (gridIndex3Dto1D x y z side - z * side * side) side = Some y ∧
  gridIndex3Dto1D x y z side - z * side * side - y * side = x.
Proof.
  intros (Hx & Hy & Hz). rewrite gridIndex3Dto1D_inside by done.
  unfold encode1D, idiv.
  assert (0 < side) as Hs by lia.
  assert (x + y * side + z * side ^ 2 = x + y * side + z * (side * side)) as ->
    by (f_equal; lia).
  destruct (Z.eqb_spec (side * side) 0) as [? | _]; [nia |].
  destruct (Z.eqb_spec side 0) as [? | _]; [lia |].
  split; [| split; [| lia]].
  - f_equal. rewrite Z.quot_div_nonneg by nia.
    symmetry. apply (Z.div_unique_pos _ _ z (x + y * side)); nia.
  - f_equal. replace (x + y * side + z * (side * side) - z * side * side)
      with (x + y * side) by lia.
    rewrite Z.quot_div_nonneg by nia.
    symmetry. apply (Z.div_unique_pos _ _ y x); nia.
Qed.

Lemma gridIndex3Dto1D_inj (x y z x' y' z' side : Z) :
  gridIndex3Dto1D x y z side ≠ -1 →
  gridIndex3Dto1D x y z side = gridIndex3Dto1D x' y' z' side →
  x = x' ∧ y = y' ∧ z = z'.
Proof.
  intros Hne Heq.
  destruct (gridIndex3Dto1D_decode x y z side) as (Hz & Hy & Hx);
    [by apply gridIndex3Dto1D_inGrid |].
  destruct (gridIndex3Dto1D_decode x' y' z' side) as (Hz' & Hy' & Hx');
    [apply gridIndex3Dto1D_inGrid; congruence |].
  rewrite <- Heq in Hz', Hy', Hx'.
  assert (z = z') as <- by congruence.
  assert (y = y') as <- by congruence. lia.
Qed.

(** two coordinates less than five units apart lie in the same cell or in
    adjacent cells, when a cell is five units wide at least *)
Lemma cellCoord_adjacent (gridMin inv a b : R) :
  (0 < inv)%R → (5 * inv <= 1)%R → (-5 < a - b < 5)%R →
  cellCoord gridMin inv b - 1 <= cellCoord gridMin inv a
    <= cellCoord gridMin inv b + 1.
Proof.
  intros Hpos Hwide Hab. unfold cellCoord. ideal_ops.
  set (u := ((a - gridMin) * inv)%R). set (v := ((b - gridMin) * inv)%R).
  assert (v - 1 < u < v + 1)%R as Huv by (unfold u, v; nra).
  pose proof (Zfloor_bound u) as Hu. pose proof (Zfloor_bound v) as Hv.
  split.
  - apply Zfloor_lub. rewrite minus_IZR. lra.
  - assert (IZR (Zfloor u) < IZR (Zfloor v + 2))%R as Hlt
      by (rewrite plus_IZR; lra).
    apply lt_IZR in Hlt. lia.
Qed.

Lemma reach_components (q p : vec3 R) :
  Fltb (glm_length (vsub q p)) rule1Distance = true →
  (-5 < vx q - vx p < 5)%R ∧ (-5 < vy q - vy p < 5)%R ∧ (-5 < vz q - vz p < 5)%R.
Proof.
  unfold rule1Distance. rewrite glm_length_ideal. unfold vsub. cbn [vx vy vz].
  ideal_ops. rewrite Rltb_true.
  set (dx := (vx q - vx p)%R). set (dy := (vy q - vy p)%R).
  set (dz := (vz q - vz p)%R). intros Hlt.
  assert (dx * dx + dy * dy + dz * dz < 25)%R as Hsq.
  { destruct (Rlt_dec (dx * dx + dy * dy + dz * dz) 25) as [| Hge]; [done |].
    exfalso. apply Rnot_lt_le in Hge.
    apply sqrt_le_1_alt in Hge.
    replace 25%R with (5 * 5)%R in Hge by lra.
    rewrite sqrt_square in Hge by lra. lra. }
  repeat split; nra.
Qed.

(** *** The tables with one boid per cell *)

Section OneBoidPerCell.
Context {F : Type} `{FloatOps F}.

Lemma buildGrid_one_per_cell (sched : list Z) (s : Sim F)
    (bi gcn starts ends lookup : list Z) :
  wellSized s → oneBoidPerCell s →
  (∀ i, i ∈ sched → 0 <= i) →
  (∀ k, 0 <= k < numObjects s → k ∈ sched) →
  buildGrid sched s = Some (bi, gcn, starts, ends, lookup) →
  bi ≡ₚ threads (numObjects s) ∧
  (∀ k, 0 <= k < numObjects s →
     ∃ b p, rd bi k = Some b ∧ 0 <= b < numObjects s ∧
       rd (contents (dev_pos s)) b = Some p ∧ rd gcn k = Some (cellOf s p) ∧
       rd starts k = Some k ∧ rd ends k = Some k ∧
       rd lookup (cellOf s p) = Some k) ∧
  (∀ c, 0 <= c < gridSideCount s * gridSideCount s * gridSideCount s →
     occupants s c = [] → rd lookup c = Some (-1)).
Proof.
  intros Hwf Hone Hsched Hall Hgrid.
  apply buildGrid_Some in Hgrid
    as (indices & gridIndices & lookup0 & Hidx & Hinit & Hsort & Hrange & Hheads).
  destruct (sorted_arrays s _ _ _ _ Hwf Hidx Hsort) as (Hperm & Hlg & Hcell & Hmono).
  assert (∀ k k' b, rd bi k = Some b → rd bi k' = Some b → k = k') as Hinj.
  { intros k k' b Hk Hk'.
    pose proof (rd_Some_bound _ _ _ Hk). pose proof (rd_Some_bound _ _ _ Hk').
    rewrite rd_lookup in Hk, Hk' by lia.
    assert (NoDup bi) as Hnd by (rewrite Hperm; apply NoDup_threads).
    pose proof (NoDup_lookup _ _ _ _ Hnd Hk Hk'). lia. }
  assert (∀ k k', 0 <= k < numObjects s → 0 <= k' < numObjects s →
            rd gcn k = rd gcn k' → k = k') as Hkey.
  { intros k k' Hk Hk' Heq.
    destruct (Hcell k Hk) as (b & p & Hb & _ & Hp & Hg).
    destruct (Hcell k' Hk') as (b' & p' & Hb' & _ & Hp' & Hg').
    destruct (decide (b = b')) as [<- | Hne]; [by eapply Hinj |].
    exfalso. apply (Hone b b' p p' Hp Hp' Hne). congruence. }
  apply kernIdentifyCellStartEnd_Some in Hrange as (_ & _ & Hst & _).
  apply renewGridCellIndex_written in Hheads as (_ & Hkeep & Hwr).
  apply InitializeGridCellIndex_Some in Hinit as (_ & Hreset).
  assert (∀ k, 0 <= k < numObjects s →
            rd starts k = Some k ∧ rd ends k = Some k) as Hse.
  { intros k Hk. destruct (Hst k Hk) as (a & e & Ha & He & -> & ->). split.
    - apply storedStart_Some in Ha
        as [[-> _] | (c & c' & H1 & H2 & Hne & _)]; [done |].
      assert (k - 1 = k); [| lia].
      apply Hkey; [| done | congruence].
      apply rd_Some_bound in H1. lia.
    - apply storedEnd_Some in He
        as [[-> _] | (c & c' & H1 & H2 & _)]; [done |].
      assert (k = k + 1); [| lia].
      apply Hkey; [done | | congruence].
      apply rd_Some_bound in H2. lia. }
  split; [done |]. split.
  - intros k Hk. destruct (Hcell k Hk) as (b & p & Hb & HbN & Hp & Hg).
    destruct (Hse k Hk) as [Hs He].
    exists b, p. repeat (split; [done |]).
    destruct (Hwr k (Hall k Hk)) as (c & Hc & _ & i' & v & _ & Hi' & Hci' & Hv & Hl);
      [lia |].
    assert (c = cellOf s p) as -> by congruence.
    assert (i' = k) as -> by (apply Hkey; [done | done | congruence]).
    congruence.
  - intros c Hc Hocc. rewrite Hkeep; [by apply Hreset |].
    intros i Hi HiN Hci. pose proof (Hsched i Hi) as Hi0.
    destruct (Hcell i) as (b & p & Hb & HbN & Hp & Hg); [lia |].
    assert (b ∈ occupants s c) as Hel.
    { unfold occupants. apply list_elem_of_filter. split.
      - rewrite Hp. simpl. congruence.
      - by apply elem_of_threads. }
    rewrite Hocc in Hel. by apply elem_of_nil in Hel.
Qed.
End OneBoidPerCell.

(** *** The cells a thread looks into *)

Section Visits.
Context {F : Type} `{FloatOps F} (s : Sim F).

Lemma elem_of_occupants (b c : Z) :
  b ∈ occupants s c ↔
  0 <= b < numObjects s ∧
  ∃ q, rd (contents (dev_pos s)) b = Some q ∧ cellOf s q = c.
Proof.
  unfold occupants. rewrite list_elem_of_filter, elem_of_threads. split.
  - intros [Hc Hb]. split; [done |].
    destruct (rd (contents (dev_pos s)) b) as [q |]; [| done].
    exists q. split; [done |]. simpl in Hc. congruence.
  - intros [Hb (q & -> & <-)]. done.
Qed.

Lemma NoDup_occupants (c : Z) : NoDup (occupants s c).
Proof. apply NoDup_filter, NoDup_threads. Qed.

Lemma elem_of_visit (b own j k m : Z) :
  b ∈ visit s own j k m ↔
  gridIndex3Dto1D j k m (gridSideCount s) ≠ -1 ∧
  gridIndex3Dto1D j k m (gridSideCount s) ≠ own ∧
  b ∈ occupants s (gridIndex3Dto1D j k m (gridSideCount s)).
Proof.
  unfold visit. cbv zeta.
  destruct (Z.eqb_spec (gridIndex3Dto1D j k m (gridSideCount s)) (-1)) as [-> | ?];
    cbn [orb].
  { rewrite elem_of_nil. split; [done | by intros [? _]]. }
  destruct (Z.eqb_spec (gridIndex3Dto1D j k m (gridSideCount s)) own) as [? | ?].
  { rewrite elem_of_nil. split; [done | by intros (_ & ? & _)]. }
  split; [done | by intros (_ & _ & ?)].
Qed.

Lemma NoDup_visit (own j k m : Z) : NoDup (visit s own j k m).
Proof.
  unfold visit. cbv zeta. destruct (_ || _); [constructor | apply NoDup_occupants].
Qed.

Lemma elem_of_neighbours (b own x y z : Z) :
  b ∈ neighbours s own x y z ↔
  ∃ j k m, x - 1 <= j <= x + 1 ∧ y - 1 <= k <= y + 1 ∧ z - 1 <= m <= z + 1 ∧
           b ∈ visit s own j k m.
Proof.
  unfold neighbours. rewrite list_elem_of_bind. split.
  - intros (j & (k & (m & Hb & Hm%elem_of_zrange)%list_elem_of_bind
                   & Hk%elem_of_zrange)%list_elem_of_bind & Hj%elem_of_zrange).
    by exists j, k, m.
  - intros (j & k & m & Hj & Hk & Hm & Hb).
    exists j. split; [| by apply elem_of_zrange].
    apply list_elem_of_bind. exists k. split; [| by apply elem_of_zrange].
    apply list_elem_of_bind. exists m. split; [done | by apply elem_of_zrange].
Qed.

Lemma visit_same_cell (b own j k m j' k' m' : Z) :
  b ∈ visit s own j k m → b ∈ visit s own j' k' m' →
  j = j' ∧ k = k' ∧ m = m'.
Proof.
  intros (Hne & _ & (_ & q & Hq & Hc)%elem_of_occupants)%elem_of_visit
         (_ & _ & (_ & q' & Hq' & Hc')%elem_of_occupants)%elem_of_visit.
  apply (gridIndex3Dto1D_inj _ _ _ _ _ _ (gridSideCount s)); [done |].
  congruence.
Qed.

Lemma NoDup_neighbours (own x y z : Z) : NoDup (neighbours s own x y z).
Proof.
  unfold neighbours. apply NoDup_bind; [| | apply NoDup_zrange].
  - intros j j' b _ _
      (k & (m & Hb & _)%list_elem_of_bind & _)%list_elem_of_bind
      (k' & (m' & Hb' & _)%list_elem_of_bind & _)%list_elem_of_bind.
    by destruct (visit_same_cell _ _ _ _ _ _ _ _ Hb Hb') as (? & _).
  - intros j _. apply NoDup_bind; [| | apply NoDup_zrange].
    + intros k k' b _ _ (m & Hb & _)%list_elem_of_bind
                        (m' & Hb' & _)%list_elem_of_bind.
      by destruct (visit_same_cell _ _ _ _ _ _ _ _ Hb Hb') as (_ & ? & _).
    + intros k _. apply NoDup_bind; [| | apply NoDup_zrange].
      * intros m m' b _ _ Hb Hb'.
        by destruct (visit_same_cell _ _ _ _ _ _ _ _ Hb Hb') as (_ & _ & ?).
      * intros m _. apply NoDup_visit.
Qed.
End Visits.

(** *** One thread of the search *)

Lemma occupants_cases {F : Type} `{FloatOps F} (s : Sim F) (c : Z) :
  oneBoidPerCell s → occupants s c = [] ∨ ∃ b, occupants s c = [b].
Proof.
  intros Hone.
  destruct (occupants s c) as [| b l] eqn:Hocc; [by left | right].
  exists b. destruct l as [| b' l]; [done |]. exfalso.
  pose proof (NoDup_occupants s c) as Hnd. rewrite Hocc in Hnd.
  assert (b ∈ occupants s c) as (_ & q & Hq & Hc)%elem_of_occupants
    by (rewrite Hocc; left).
  assert (b' ∈ occupants s c) as (_ & q' & Hq' & Hc')%elem_of_occupants
    by (rewrite Hocc; right; left).
  apply NoDup_cons in Hnd as [Hnot _].
  destruct (decide (b = b')) as [-> | Hne]; [apply Hnot; left |].
  apply (Hone b b' q q' Hq Hq' Hne). congruence.
Qed.

Lemma position_of_boid (N : Z) (bi : list Z) (b : Z) :
  bi ≡ₚ threads N → 0 <= b < N → ∃ k, 0 <= k < N ∧ rd bi k = Some b.
Proof.
  intros Hperm Hb.
  assert (b ∈ bi) as (k & Hk)%list_elem_of_lookup
    by (rewrite Hperm; by apply elem_of_threads).
  pose proof (lookup_lt_Some _ _ _ Hk) as Hlt.
  rewrite Hperm, threads_length in Hlt.
  exists (Z.of_nat k). split; [lia |]. by rewrite rd_nat.
Qed.

Section GridSearchOnePerCell.
Context (s : Sim R) (vel : list (vec3 R)) (bi gcn starts ends lookup : list Z).
Context (Hwf : wellSized s) (Hone : oneBoidPerCell s).
Context (Hvel : numObjects s <= Z.of_nat (length vel)).
Context (Hin : ∀ i p, rd (contents (dev_pos s)) i = Some p → cellOf s p ≠ -1).
Context (Hinv : (0 < gridInverseCellWidth s)%R).
Context (Hwide : (5 * gridInverseCellWidth s <= 1)%R).
Context (Hperm : bi ≡ₚ threads (numObjects s)).
Context (Htab : ∀ k, 0 <= k < numObjects s →
     ∃ b p, rd bi k = Some b ∧ 0 <= b < numObjects s ∧
       rd (contents (dev_pos s)) b = Some p ∧ rd gcn k = Some (cellOf s p) ∧
       rd starts k = Some k ∧ rd ends k = Some k ∧
       rd lookup (cellOf s p) = Some k).
Context (Hempty :
  ∀ c, 0 <= c < gridSideCount s * gridSideCount s * gridSideCount s →
       occupants s c = [] → rd lookup c = Some (-1)).

(** the body of the neighbour loops meets the occupants of the cell *)
Lemma cell_body (p : vec3 R) (own j k m : Z) (t : tally R) :
  (let testGridIndexBeighbor := gridIndex3Dto1D j k m (gridSideCount s) in
   if negb (testGridIndexBeighbor =? -1) then
     if negb (testGridIndexBeighbor =? own) then
       startPoint ← rd lookup testGridIndexBeighbor;
       if negb (startPoint =? -1) then
         endPoint ← rd ends startPoint;
         forM (zrange startPoint endPoint) (λ n t,
           testBoidIndex ← rd bi n;
           testPos ← rd (contents (dev_pos s)) testBoidIndex;
           testVel ← rd vel testBoidIndex;
           Some (applyRules p testPos testVel t)) t
       else Some t
     else Some t
   else Some t) =
  forM (visit s own j k m)
       (λ j t, q ← rd (contents (dev_pos s)) j; w ← rd vel j;
               Some (applyRules p q w t)) t.
Proof.
  cbv zeta. unfold visit. cbv zeta.
  destruct (gridIndex3Dto1D_range j k m (gridSideCount s)) as [-> | Hc]; [done |].
  destruct (Z.eqb_spec (gridIndex3Dto1D j k m (gridSideCount s)) (-1)) as [? | _];
    [lia |].
  destruct (Z.eqb_spec (gridIndex3Dto1D j k m (gridSideCount s)) own) as [? | _];
    [done |].
  cbn [negb orb].
  destruct (occupants_cases s (gridIndex3Dto1D j k m (gridSideCount s)) Hone)
    as [Hocc | [b Hocc]].
  - rewrite Hocc, (Hempty _ Hc Hocc). done.
  - assert (b ∈ occupants s (gridIndex3Dto1D j k m (gridSideCount s)))
      as (Hb & q & Hq & Hcq)%elem_of_occupants by (rewrite Hocc; left).
    destruct (position_of_boid _ _ b Hperm Hb) as (h & Hh & Hbh).
    destruct (Htab h Hh) as (b' & q' & Hb' & _ & Hq' & _ & _ & He & Hl).
    assert (b' = b) as -> by congruence.
    assert (q' = q) as -> by congruence.
    rewrite Hocc, <- Hcq, Hl. cbn [mbind option_bind].
    destruct (Z.eqb_spec h (-1)) as [? | _]; [lia |]. cbn [negb].
    rewrite He. cbn [mbind option_bind]. rewrite zrange_singleton.
    cbn [forM]. rewrite Hbh. cbn [mbind option_bind].
    by destruct (rd (contents (dev_pos s)) b ≫= _).
Qed.

(** A thread of the grid search gets what the brute force gets for its
    boid. *)
Lemma newUpdateVelocity_one_per_cell (k b width : Z) :
  0 <= k < numObjects s → rd bi k = Some b →
  newUpdateVelocity (numObjects s) k b (contents (dev_pos s)) vel bi gcn
    starts ends lookup (gridSideCount s) width
  = computeVelocityChange (numObjects s) b (contents (dev_pos s)) vel.
Proof.
  intros Hk Hbk.
  destruct (Htab k Hk) as (b' & p & Hb' & HbN & Hp & Hg & Hs & He & Hl).
  assert (b' = b) as -> by congruence.
  pose proof Hwf as (HN & Hlp & _).
  destruct (rd_is_Some vel b) as [v Hv]; [lia |].
  rewrite computeVelocityChange_one_loop by lia.
  unfold newUpdateVelocity. rewrite Hp, Hv, Hg. cbn [mbind option_bind].
  pose proof (Hin b p Hp) as Hgrid.
  set (x := cellCoord (vx (gridMinimum s)) (gridInverseCellWidth s) (vx p)) in *.
  set (y := cellCoord (vy (gridMinimum s)) (gridInverseCellWidth s) (vy p)) in *.
  set (z := cellCoord (vz (gridMinimum s)) (gridInverseCellWidth s) (vz p)) in *.
  assert (cellOf s p = gridIndex3Dto1D x y z (gridSideCount s)) as Hown by done.
  destruct (gridIndex3Dto1D_decode x y z (gridSideCount s)) as (Hz & Hy & Hx).
  { apply gridIndex3Dto1D_inGrid. by rewrite <- Hown. }
  rewrite <- Hown in Hz, Hy, Hx.
  rewrite Hz. cbn [mbind option_bind]. rewrite Hy. cbn [mbind option_bind].
  rewrite Hx, Hs, He. cbn [mbind option_bind].
  rewrite zrange_singleton. cbn [forM]. rewrite Z.eqb_refl.
  cbn [negb mbind option_bind].
  rewrite (forM_three _ _ _ _ (visit s (cellOf s p))
             (λ j t, q ← rd (contents (dev_pos s)) j; w ← rd vel j;
                     Some (applyRules p q w t)))
    by (intros; apply cell_body).
  rewrite forM_filter.
  change (gather (contents (dev_pos s)) vel p (neighbours s (cellOf s p) x y z) tally0
            ≫= (λ t, Some (finalSpeed p v t)) =
          gather (contents (dev_pos s)) vel p
            (filter (λ j, j ≠ b) (zrange 0 (numObjects s - 1))) tally0
            ≫= (λ t, Some (finalSpeed p v t))).
  f_equal. apply gather_same_reach.
  - apply NoDup_neighbours.
  - apply NoDup_filter, NoDup_zrange.
  - intros j (j' & k' & m' & _ & _ & _ & (_ & _ & (Hj & _)%elem_of_occupants)
                %elem_of_visit)%elem_of_neighbours.
    split; apply rd_is_Some; lia.
  - intros j [_ Hj%elem_of_zrange]%list_elem_of_filter.
    split; apply rd_is_Some; lia.
  - intros j Hreach. rewrite list_elem_of_filter, elem_of_zrange, elem_of_neighbours.
    split.
    + intros (j' & k' & m' & _ & _ & _ &
              (_ & Hne & (Hj & q & Hq & Hc)%elem_of_occupants)%elem_of_visit).
      split; [| lia]. intros ->. congruence.
    + intros [Hne Hj]. unfold inReach in Hreach.
      destruct (rd (contents (dev_pos s)) j) as [q |] eqn:Hq; [| done].
      apply reach_components in Hreach as (Hdx & Hdy & Hdz).
      exists (cellCoord (vx (gridMinimum s)) (gridInverseCellWidth s) (vx q)),
             (cellCoord (vy (gridMinimum s)) (gridInverseCellWidth s) (vy q)),
             (cellCoord (vz (gridMinimum s)) (gridInverseCellWidth s) (vz q)).
      split; [by apply cellCoord_adjacent |].
      split; [by apply cellCoord_adjacent |].
      split; [by apply cellCoord_adjacent |].
      apply elem_of_visit. split; [by apply (Hin j q) |].
      split; [by apply (Hone j b q p) |].
      apply elem_of_occupants. split; [lia |]. by exists q.
Qed.
End GridSearchOnePerCell.

(** *** The step *)

Lemma list_eq_rd {A : Type} (a b : list A) :
  length a = length b →
  (∀ i, 0 <= i < Z.of_nat (length a) → rd a i = rd b i) → a = b.
Proof.
  intros Hlen Hrd. apply list_eq. intros n.
  destruct (decide (n < length a)%nat) as [Hn | Hn].
  - rewrite <- !rd_nat. apply Hrd. lia.
  - rewrite !lookup_ge_None_2 by lia. done.
Qed.

(** with one boid per cell, a boid is alone in the lowest occupied cell
    and one in the highest *)
Lemma one_per_cell_alone {F : Type} `{FloatOps F} (s : Sim F) :
  wellSized s → 2 <= numObjects s → oneBoidPerCell s →
  (∃ lo, aloneAtEnd true s lo) ∧ (∃ hi, aloneAtEnd false s hi).
Proof.
  intros Hwf HN Hone.
  pose proof Hwf as (_ & Hlp & _ & _ & Hlg & Hlb & _).
  destruct (kernComputeIndices_total (numObjects s) (gridSideCount s)
              (gridMinimum s) (gridInverseCellWidth s) (contents (dev_pos s))
              (contents (devBoidIndex s)) (contents (devGridCellnumber s)))
    as [[indices gridIndices] Hidx]; [lia .. |].
  pose proof Hidx as (Hli & Hlgi & _)%kernComputeIndices_spec.
  destruct (sort_by_key (numObjects s) gridIndices indices) as [[gcn bi] |] eqn:Hsort.
  2:{ unfold sort_by_key in Hsort.
      destruct (Z.ltb_spec (Z.of_nat (length gridIndices)) (numObjects s)); [lia |].
      destruct (Z.ltb_spec (Z.of_nat (length indices)) (numObjects s)); [lia |].
      done. }
  destruct (sorted_arrays s _ _ _ _ Hwf Hidx Hsort) as (Hperm & Hlgcn & Hcell & Hmono).
  apply (sorted_ends_alone s gcn bi); try done.
  assert (∀ k k', 0 <= k < numObjects s → 0 <= k' < numObjects s → k ≠ k' →
            rd gcn k ≠ rd gcn k') as Hkey.
  { intros k k' Hk Hk' Hne Heq.
    destruct (Hcell k Hk) as (b & p & Hb & _ & Hp & Hg).
    destruct (Hcell k' Hk') as (b' & p' & Hb' & _ & Hp' & Hg').
    destruct (decide (b = b')) as [<- | Hbb].
    - pose proof (rd_Some_bound _ _ _ Hb). pose proof (rd_Some_bound _ _ _ Hb').
      rewrite rd_lookup in Hb, Hb' by lia.
      assert (NoDup bi) as Hnd by (rewrite Hperm; apply NoDup_threads).
      pose proof (NoDup_lookup _ _ _ _ Hnd Hb Hb'). lia.
    - apply (Hone b b' p p' Hp Hp' Hbb). congruence. }
  split; apply Hkey; lia.
Qed.

(** X28: over the reals, from a state with buffers of [N] boids, two at
    least, all inside the grid, cells five units wide at least and no two
    boids in one cell, [stepSimulationScatteredGrid] and
    [stepSimulationNaive] both return and leave the same positions and the
    same two velocity buffers.  With one boid per cell every range of the
    table is one slot, so the slot past the end of a range is never read. *)
Theorem scattered_step_is_brute_force_step (sched : list Z) (dt : R) (s : Sim R) :
  wellSized s → 2 <= numObjects s →
  (0 < gridInverseCellWidth s)%R → (5 * gridInverseCellWidth s <= 1)%R →
  gridSideCount s * gridSideCount s * gridSideCount s
    <= Z.of_nat (length (contents (gridCellIndex s))) →
  (∀ i, i ∈ sched → 0 <= i) →
  (∀ k, 0 <= k < numObjects s → k ∈ sched) →
  (∀ i p, rd (contents (dev_pos s)) i = Some p → cellOf s p ≠ -1) →
  oneBoidPerCell s →
  ∃ sN sS,
    stepSimulationNaive dt s = Done sN ∧
    stepSimulationScatteredGrid sched dt s = Done sS ∧
    dev_pos sS = dev_pos sN ∧ dev_vel1 sS = dev_vel1 sN ∧
    dev_vel2 sS = dev_vel2 sN.
Proof.
  intros Hwf HN Hinv Hwide Hlk Hsched Hall Hin Hone.
  pose proof Hwf as (_ & Hlp & Hl1 & Hl2 & _).
  destruct (one_per_cell_alone s Hwf HN Hone) as [Hlo Hhi].
  destruct (buildGrid_total sched s) as [[[[[bi gcn] starts] ends] lookup] Hgrid];
    try done.
  destruct (buildGrid_tables _ _ _ _ _ _ _ Hwf Hgrid) as (Htabs & Hlg & Hlb & _).
  destruct (buildGrid_one_per_cell _ _ _ _ _ _ _ Hwf Hone Hsched Hall Hgrid)
    as (Hperm & Htab & Hempty).
  assert (gridSideCount s ≠ 0) as Hside.
  { destruct (rd_is_Some (contents (dev_pos s)) 0) as [p Hp]; [lia |].
    pose proof (Hin 0 p Hp) as Hne. intros Hzero. apply Hne.
    unfold cellOf. rewrite Hzero. unfold gridIndex3Dto1D.
    destruct (Z.geb_spec
                (cellCoord (vx (gridMinimum s)) (gridInverseCellWidth s) (vx p)) 0),
             (Z.ltb_spec
                (cellCoord (vx (gridMinimum s)) (gridInverseCellWidth s) (vx p)) 0);
      (done || lia). }
  destruct (grid_step_total Scattered sched dt s bi gcn starts ends lookup)
    as [sS HS]; try done.
  destruct (stepSimulationNaive_total dt s) as [sN HsN]; [lia .. |].
  exists sN, sS. split; [done |]. split; [done |].
  simpl in HS. unfold stepSimulationScatteredGrid in HS. cbv zeta in HS.
  apply run_Done in HS. rewrite Hgrid in HS. cbn [mbind option_bind] in HS.
  apply bind_Some in HS as (vel2S & HkS & HS).
  apply bind_Some in HS as (posS & HpS & HS).
  apply bind_Some in HS as (vel1S & HcS & [= <-]).
  unfold stepSimulationNaive in HsN. cbv zeta in HsN. apply run_Done in HsN.
  apply bind_Some in HsN as (vel2N & HkN & HsN).
  apply bind_Some in HsN as (posN & HpN & HsN).
  apply bind_Some in HsN as (vel1N & HcN & [= <-]).
  assert (vel2S = vel2N) as ->.
  { apply kernUpdateVelNeighborSearchScattered_spec in HkS as (HlS & HwS & _).
    apply kernUpdateVelocityBruteForce_spec in HkN as (HlN & HwN & _).
    apply list_eq_rd; [congruence |].
    intros i Hi. rewrite HlS, Hl2 in Hi.
    destruct (HwN i) as (u & Hu & ->); [lia |].
    destruct (position_of_boid _ _ i Hperm) as (k & Hk & Hbk); [lia |].
    destruct (HwS k Hk) as (b & _ & Hb & _ & _ & k' & u' & Hk' & Hbk' & Hu' & Hrd).
    assert (b = i) as -> by congruence.
    rewrite Hrd. do 2 f_equal.
    rewrite (newUpdateVelocity_one_per_cell s (contents (dev_vel1 s)) bi gcn
               starts ends lookup) in Hu'; try done; [congruence | lia]. }
  cbn [dev_pos dev_vel1 dev_vel2]. repeat split; congruence.
Qed.

Lemma twoNeighboursIdeal_cells (i : Z) (p : vec3 R) :
  rd (contents (dev_pos twoNeighboursIdeal)) i = Some p →
  (i = 0 ∧ cellOf twoNeighboursIdeal p = 5577) ∨
  (i = 1 ∧ cellOf twoNeighboursIdeal p = 5578).
Proof.
  intros Hp. pose proof (rd_Some_bound _ _ _ Hp) as Hi. simpl in Hi.
  assert (i = 0 ∨ i = 1) as [-> | ->] by lia; injection Hp as <-; [left | right];
    (split; [done |]); unfold cellOf, cellCoord; ideal_ops;
    cbn [gridMinimum gridInverseCellWidth gridSideCount twoNeighboursIdeal vx vy vz].
  - rewrite (Zfloor_eq 11 ((8 - -110) * (1 / 10))) by (split; lra).
    rewrite (Zfloor_eq 11 ((1 - -110) * (1 / 10))) by (split; lra). reflexivity.
  - rewrite (Zfloor_eq 12 ((11 - -110) * (1 / 10))) by (split; lra).
    rewrite (Zfloor_eq 11 ((1 - -110) * (1 / 10))) by (split; lra). reflexivity.
Qed.

Lemma scattered_step_is_brute_force_step_witness :
  ∃ sN sS,
    stepSimulationNaive 1%R twoNeighboursIdeal = Done sN ∧
    stepSimulationScatteredGrid [0; 1] 1%R twoNeighboursIdeal = Done sS ∧
    dev_pos sS = dev_pos sN ∧ dev_vel1 sS = dev_vel1 sN ∧
    dev_vel2 sS = dev_vel2 sN.
Proof.
  apply (scattered_step_is_brute_force_step [0; 1] 1%R twoNeighboursIdeal).
  - unfold wellSized. simpl. repeat split; (done || lia).
  - simpl. lia.
  - simpl. lra.
  - simpl. lra.
  - cbn [twoNeighboursIdeal gridSideCount gridCellIndex contents].
    rewrite length_replicate. lia.
  - intros i Hi. apply elem_of_cons in Hi as [-> | Hi]; [lia |].
    apply elem_of_cons in Hi as [-> | Hi]; [lia |]. by apply elem_of_nil in Hi.
  - intros k Hk. simpl in Hk. assert (k = 0 ∨ k = 1) as [-> | ->] by lia.
    + left.
    + right. left.
  - intros i p Hp. destruct (twoNeighboursIdeal_cells i p Hp) as [[_ ->] | [_ ->]]; lia.
  - intros i j p q Hp Hq Hne.
    destruct (twoNeighboursIdeal_cells i p Hp) as [[-> ->] | [-> ->]],
             (twoNeighboursIdeal_cells j q Hq) as [[-> ->] | [-> ->]]; lia.
Defined.

(** ** The seeds of the first positions, in single precision *)

Lemma float_of_16777217 : Fof_int 16777217 = Fof_int (F := spec_float) 16777216.
Proof. vm_compute. reflexivity. Qed.

(** X29: in single precision [(float) 16777217] is [16777216.0f], so the
    boids 16777216 and 16777217 get the same seed, whatever the engine:
    the launch of [kernGenerateRandomPosArray] in [initSimulation]
    ([time] is 1), over more than 16777217 boids, stores the same position
    for both. *)
Theorem boids_beyond_2_24_share_a_position (unitDistrib : Z → vec3 spec_float)
    (N : Z) (arr arr' : list (vec3 spec_float)) (scale : spec_float) :
  16777217 < N →
  kernGenerateRandomPosArray (generateRandomVec3 unitDistrib) 1 N arr scale
    = Some arr' →
  is_Some (rd arr' 16777216) ∧ rd arr' 16777216 = rd arr' 16777217.
Proof.
  intros HN Hrun. unfold kernGenerateRandomPosArray in Hrun.
  pose (val := λ i : Z,
    let rand := generateRandomVec3 unitDistrib (Fof_int 1) i in
    Some (Vec3 (Fmul scale (vx rand)) (Fmul scale (vy rand))
               (Fmul scale (vz rand)))).
  rewrite (forM_ext _ _ (λ i a, v ← val i; wr a i v)) in Hrun by (intros; done).
  apply forM_own_slot in Hrun as (_ & Hin & _).
  destruct (Hin 16777216) as (v & [= <-] & Hv); [lia |].
  destruct (Hin 16777217) as (v' & [= <-] & Hv'); [lia |].
  rewrite Hv, Hv'. split; [by eexists |].
  unfold generateRandomVec3. by rewrite float_of_16777217.
Qed.

Lemma boids_beyond_2_24_share_a_position_witness :
  ∃ arr',
    kernGenerateRandomPosArray (generateRandomVec3 (λ _, v32 0 0 0)) 1 16777218
      (replicate (Z.to_nat 16777218) (v32 0 0 0)) (f32 100) = Some arr' ∧
    is_Some (rd arr' 16777216) ∧ rd arr' 16777216 = rd arr' 16777217.
Proof.
  destruct (kernGenerateRandomPosArray_spec (generateRandomVec3 (λ _, v32 0 0 0))
              1 16777218 (replicate (Z.to_nat 16777218) (v32 0 0 0)) (f32 100))
    as (arr' & Hrun & _).
  { rewrite length_replicate, Z2Nat.id; lia. }
  exists arr'. split; [done |].
  apply (boids_beyond_2_24_share_a_position (λ _, v32 0 0 0) 16777218
           (replicate (Z.to_nat 16777218) (v32 0 0 0)) arr' (f32 100));
    [lia | done].
Defined.
